(** * Spektr: query execution engine and schema discovery, embedded in Rocq

    The Go sources are embedded shallowly:
    - [float64] is Rocq's primitive binary64 float ([PrimFloat.float]), so
      sums, quotients and comparisons round exactly as in Go;
    - Go maps keyed by strings are [gmap string _] (a nil map reads like the
      empty map), Go sets [map[string]bool] are [gset string];
    - lengths and loop indices are [nat] (Go's [len] is never negative and the
      engine only produces indices from [for i := 0; i < n; i++] loops);
    - the [RecordView] interface is a record of its five methods, and each Go
      implementation is a function building such a record;
    - what the Go runtime leaves open (the order in which [range] visits a
      map, the order [sort.Slice] gives to equal elements) and the Unicode
      tables of package [strings] are gathered in the class [GoRuntime];
      every result holds for all of its instances. *)

From Stdlib Require Import ZArith Lia Bool List Ascii String.
From Stdlib Require Import Floats Uint63.
From Stdlib Require Import Sorting.Permutation Sorting.Sorted.
From stdpp Require Import base option list strings pretty gmap sets.

Local Open Scope string_scope.
Local Open Scope list_scope.

(** * The Go runtime the code relies on *)

(** [less] is a strict weak order: what [sort.Slice] asks of it. *)
Definition strict_weak {A} (less : A -> A -> bool) : Prop :=
  (forall a, less a a = false) /\
  (forall a b c, less a b = true -> less b c = true -> less a c = true) /\
  (forall a b c, less a b = false -> less b c = false -> less a c = false).

(** [sorted_by less l]: no element is [less] than one placed before it. *)
Definition sorted_by {A} (less : A -> A -> bool) (l : list A) : Prop :=
  StronglySorted (fun a b => less b a = false) l.

Class GoRuntime := {
  (** [strings.ToLower], [strings.ToUpper], [strings.TrimSpace] *)
  ToLower : string -> string;
  ToUpper : string -> string;
  TrimSpace : string -> string;
  (** [for k, v := range m]: every entry once, in an order of Go's choice *)
  range_map : forall {V : Type}, gmap string V -> list (string * V);
  range_map_perm : forall (V : Type) (m : gmap string V),
    Permutation (range_map m) (map_to_list m);
  (** [sort.Slice]: a reordering, sorted when [less] is a strict weak order,
      not guaranteed stable *)
  sort_Slice : forall {A : Type}, (A -> A -> bool) -> list A -> list A;
  sort_Slice_perm : forall (A : Type) (less : A -> A -> bool) (l : list A),
    Permutation (sort_Slice less l) l;
  sort_Slice_sorted : forall (A : Type) (less : A -> A -> bool) (l : list A),
    strict_weak less -> sorted_by less (sort_Slice less l)
}.

Module Engine.

Section WithRuntime.
Context {rt : GoRuntime}.

(** ** Types (engine/types.go) *)

Record Record_ := mkRecord {
  Dimensions : gmap string string;
  Measures   : gmap string float
}.

(** [Filters.Dimensions]: dimension key to allowed values. *)
Record Filters := mkFilters {
  FDimensions : gmap string (list string)
}.

(** Go: [HasFilter]. *)
Definition HasFilter (f : Filters) (dimension : string) : bool :=
  match FDimensions f !! dimension with
  | Some vals => Nat.ltb 0 (length vals)
  | None => false
  end.

(** Go: [IsEmpty]: false as soon as one allow-list is non-empty. *)
Definition IsEmpty (f : Filters) : bool :=
  negb (existsb (fun kv => Nat.ltb 0 (length (snd kv)))
                (range_map (FDimensions f))).

(** ** Views (engine/view.go) *)

Record RecordView := mkView {
  Len : nat;
  Dimension : nat -> string -> string;
  Measure : nat -> string -> float;
  DimensionKeys : list string;
  MeasureKeys : list string
}.

(** First-seen keys over all records ([SliceView.cacheKeys]). *)
Definition cacheKeys {V} (maps : list (gmap string V)) : list string :=
  foldl (fun (acc : list string) m =>
           foldl (fun (acc : list string) k =>
                    if bool_decide (k ∈ acc) then acc else acc ++ [k])
                 acc (fst <$> range_map m))
        [] maps.

Definition NewSliceView (records : list Record_) : RecordView :=
  {| Len := length records;
     Dimension := fun i key =>
       match records !! i with
       | Some r => default "" (Dimensions r !! key)
       | None => ""
       end;
     Measure := fun i key =>
       match records !! i with
       | Some r => default 0%float (Measures r !! key)
       | None => 0%float
       end;
     DimensionKeys := cacheKeys (Dimensions <$> records);
     MeasureKeys := cacheKeys (Measures <$> records) |}.

Definition newSubView (parent : RecordView) (indices : list nat) : RecordView :=
  {| Len := length indices;
     Dimension := fun i key =>
       match indices !! i with
       | Some j => Dimension parent j key
       | None => ""
       end;
     Measure := fun i key =>
       match indices !! i with
       | Some j => Measure parent j key
       | None => 0%float
       end;
     DimensionKeys := DimensionKeys parent;
     MeasureKeys := MeasureKeys parent |}.

Definition newConcatView (a b : RecordView) : RecordView :=
  {| Len := Len a + Len b;
     Dimension := fun i key =>
       if Nat.ltb i (Len a) then Dimension a i key
       else Dimension b (i - Len a) key;
     Measure := fun i key =>
       if Nat.ltb i (Len a) then Measure a i key
       else Measure b (i - Len a) key;
     DimensionKeys := DimensionKeys a;
     MeasureKeys := MeasureKeys a |}.

(** Go: [x > 0] on float64. *)
Definition fpos (x : float) : bool := PrimFloat.ltb 0%float x.

Definition newCurrencyView (parent : RecordView)
    (measure dimension baseCurrency : string) (rates : gmap string float)
    : RecordView :=
  {| Len := Len parent;
     Dimension := fun i key =>
       if String.eqb key dimension then
         let orig := Dimension parent i key in
         if negb (String.eqb orig baseCurrency) then
           match rates !! orig with
           | Some _ => baseCurrency
           | None => orig
           end
         else orig
       else Dimension parent i key;
     Measure := fun i key =>
       let val := Measure parent i key in
       if String.eqb key measure then
         let currency := Dimension parent i dimension in
         if negb (String.eqb currency baseCurrency) then
           match rates !! currency with
           | Some rate => if fpos rate then PrimFloat.mul val rate else val
           | None => val
           end
         else val
       else val;
     DimensionKeys := DimensionKeys parent;
     MeasureKeys := MeasureKeys parent |}.

(** Typed-adapter view: [DomainAdapter[T].Bind]. *)
Definition Bind {T : Type} (dimOrder mesOrder : list string)
    (dims : gmap string (T -> string)) (meas : gmap string (T -> float))
    (data : list T) : RecordView :=
  {| Len := length data;
     Dimension := fun i key =>
       match data !! i, dims !! key with
       | Some x, Some fn => fn x
       | _, _ => ""
       end;
     Measure := fun i key =>
       match data !! i, meas !! key with
       | Some x, Some fn => fn x
       | _, _ => 0%float
       end;
     DimensionKeys := dimOrder;
     MeasureKeys := mesOrder |}.

(** [for i := 0; i < view.Len(); i++] *)
Definition indices (view : RecordView) : list nat := seq 0 (Len view).

(** ** Filters (engine/filters.go) *)

Definition toLowerSet (items : list string) : gset string :=
  foldl (fun (set : gset string) item => {[ ToLower item ]} ∪ set) ∅ items.

(** The lookup sets of the first loop: one per non-empty allow-list. *)
Definition buildSets (filters : Filters) : gmap string (gset string) :=
  foldl (fun (sets : gmap string (gset string)) kv =>
           if Nat.ltb 0 (length (snd kv))
           then <[fst kv := toLowerSet (snd kv)]> sets else sets)
        ∅ (range_map (FDimensions filters)).

(** The inner loop: [pass] stays true iff every set holds the record's
    lowercased value. *)
Definition passes (view : RecordView) (sets : gmap string (gset string))
    (i : nat) : bool :=
  forallb (fun ds => bool_decide (ToLower (Dimension view i (fst ds)) ∈ snd ds))
          (range_map sets).

Definition ApplyFilters (view : RecordView) (filters : Filters) : RecordView :=
  if IsEmpty filters then view
  else
    let sets := buildSets filters in
    if Nat.eqb (size sets) 0 then view
    else newSubView view (List.filter (passes view sets) (indices view)).

(** ** Package [time], as far as the engine uses it *)

Definition isDigit (c : ascii) : bool :=
  (48 <=? nat_of_ascii c)%nat && (nat_of_ascii c <=? 57)%nat.

Definition digitVal (c : ascii) : Z := Z.of_nat (nat_of_ascii c - 48).

(** Go [time.match]: equal bytes, or equal letters once bit 0x20 is set. *)
Definition matchByte (c1 c2 : ascii) : bool :=
  if Ascii.eqb c1 c2 then true
  else
    let l1 := N.lor (N_of_ascii c1) 32 in
    let l2 := N.lor (N_of_ascii c2) 32 in
    (l1 =? l2)%N && (97 <=? l1)%N && (l1 <=? 122)%N.

Fixpoint matchFold (s1 s2 : string) : bool :=
  match s1, s2 with
  | String c1 r1, String c2 r2 => matchByte c1 c2 && matchFold r1 r2
  | EmptyString, EmptyString => true
  | _, _ => false
  end.

Definition shortMonthNames : list string :=
  ["Jan"; "Feb"; "Mar"; "Apr"; "May"; "Jun";
   "Jul"; "Aug"; "Sep"; "Oct"; "Nov"; "Dec"].

(** Go [time.lookup] on [shortMonthNames], then [month++]. *)
Fixpoint lookupMonth (tab : list string) (n : Z) (val : string)
    : option (Z * string) :=
  match tab with
  | [] => None
  | v :: tab' =>
      if (String.length v <=? String.length val)%nat
         && matchFold (substring 0 (String.length v) val) v
      then Some (n, substring (String.length v)
                              (String.length val - String.length v) val)
      else lookupMonth tab' (n + 1)%Z val
  end.

(** Layout element [2006]: exactly four digits. *)
Definition parseLongYear (val : string) : option (Z * string) :=
  match val with
  | String a (String b (String c (String d rest))) =>
      if isDigit a && isDigit b && isDigit c && isDigit d
      then Some ((((digitVal a * 10 + digitVal b) * 10 + digitVal c) * 10
                  + digitVal d)%Z, rest)
      else None
  | _ => None
  end.

(** [time.Parse("Jan-2006", s)]: year and month, [None] on error. *)
Definition parseMonYear (s : string) : option (Z * Z) :=
  match lookupMonth shortMonthNames 1 s with
  | Some (month, String "-" rest) =>
      match parseLongYear rest with
      | Some (year, EmptyString) => Some (year, month)
      | _ => None
      end
  | _ => None
  end.

(** [time.Parse("2006", s)]: the year, [None] on error. *)
Definition parseYear (s : string) : option Z :=
  match parseLongYear s with
  | Some (year, EmptyString) => Some year
  | _ => None
  end.

(** ** Aggregators (engine/aggregators.go) *)

(** Go: [ParseMonthOrder]. *)
Definition ParseMonthOrder (monthStr : string) : Z :=
  match parseMonYear monthStr with
  | None => 0
  | Some (year, month) => year * 100 + month
  end.

Definition parseSortableDate (key : string) : Z :=
  let v := ParseMonthOrder key in
  if (0 <? v)%Z then v
  else match parseYear key with
       | Some year => year * 100
       | None => 0
       end.

(** [strings.Split(s, sep)] for a one-byte separator. *)
Fixpoint splitByte (sep : ascii) (s : string) : list string :=
  match s with
  | EmptyString => [EmptyString]
  | String c rest =>
      if Ascii.eqb c sep then EmptyString :: splitByte sep rest
      else match splitByte sep rest with
           | [] => [String c EmptyString]
           | p :: ps => String c p :: ps
           end
  end.

(** [fmt.Sprintf("%d", n)] *)
Definition itoa (n : Z) : string := pretty n.

(** [float64(n)] for a length or a count. *)
Definition float64_of_nat (n : nat) : float :=
  PrimFloat.of_uint63 (Uint63.of_Z (Z.of_nat n)).

#[local] Unset Elimination Schemes.
Inductive Group : Type :=
  mkGroup (Key Label : string) (Value : float) (Count : nat)
          (SubGroups : list Group) (View : RecordView).
#[local] Set Elimination Schemes.

Definition Key (g : Group) := let 'mkGroup k _ _ _ _ _ := g in k.
Definition Label (g : Group) := let 'mkGroup _ l _ _ _ _ := g in l.
Definition Value (g : Group) := let 'mkGroup _ _ v _ _ _ := g in v.
Definition Count (g : Group) := let 'mkGroup _ _ _ c _ _ := g in c.
Definition SubGroups (g : Group) := let 'mkGroup _ _ _ _ s _ := g in s.
Definition View (g : Group) := let 'mkGroup _ _ _ _ _ w := g in w.

Definition getDimensionValue (view : RecordView) (i : nat) (dimension : string)
    : string :=
  if String.eqb dimension "year" then
    let month := Dimension view i "month" in
    match splitByte "-" month with
    | [_; year] => year
    | _ =>
        match parseMonYear month with
        | Some (year, _) => itoa year
        | None => Dimension view i dimension
        end
    end
  else Dimension view i dimension.

(** Loop body of [groupBySingle]: [order] keeps first-seen keys. *)
Definition groupStep (view : RecordView) (dimension : string)
    (st : gmap string (list nat) * list string) (i : nat)
    : gmap string (list nat) * list string :=
  let '(grouped, order) := st in
  let key := getDimensionValue view i dimension in
  let order' := match grouped !! key with
                | Some _ => order
                | None => order ++ [key]
                end in
  (<[key := default [] (grouped !! key) ++ [i]]> grouped, order').

Definition groupBySingle (view : RecordView) (dimension : string) : list Group :=
  let '(grouped, order) := foldl (groupStep view dimension) (∅, []) (indices view) in
  (fun key => mkGroup key key 0%float 0 []
                      (newSubView view (default [] (grouped !! key)))) <$> order.

Definition setSubGroups (g : Group) (subs : list Group) : Group :=
  mkGroup (Key g) (Label g) (Value g) (Count g) subs (View g).

(** Callers pass at least one dimension. *)
Definition groupByMulti (view : RecordView) (dimensions : list string)
    : list Group :=
  match dimensions with
  | d0 :: d1 :: _ =>
      (fun g => setSubGroups g (groupBySingle (View g) d1))
      <$> groupBySingle view d0
  | d0 :: [] => groupBySingle view d0
  | [] => []
  end.

Definition SumMeasure (view : RecordView) (measure : string) : float :=
  foldl (fun total i => PrimFloat.add total (Measure view i measure))
        0%float (indices view).

Definition AvgMeasure (view : RecordView) (measure : string) : float :=
  let n := Len view in
  if Nat.eqb n 0 then 0%float
  else PrimFloat.div (SumMeasure view measure) (float64_of_nat n).

Definition MaxMeasure (view : RecordView) (measure : string) : float :=
  let n := Len view in
  if Nat.eqb n 0 then 0%float
  else
    let '(m, found) :=
      foldl (fun (st : float * bool) i =>
               let v := Measure view i measure in
               if negb (snd st) || PrimFloat.ltb (fst st) v then (v, true) else st)
            (neg_infinity, false) (seq 0 n) in
    if found then m else 0%float.

Definition MinMeasure (view : RecordView) (measure : string) : float :=
  let n := Len view in
  if Nat.eqb n 0 then 0%float
  else
    let '(m, found) :=
      foldl (fun (st : float * bool) i =>
               let v := Measure view i measure in
               if negb (snd st) || PrimFloat.ltb v (fst st) then (v, true) else st)
            (infinity, false) (seq 0 n) in
    if found then m else 0%float.

Definition setValue (g : Group) (v : float) : Group :=
  mkGroup (Key g) (Label g) v (Count g) (SubGroups g) (View g).

(** Go: [aggregateGroup], returning the updated group. *)
Definition aggregateGroup (group : Group) (measure aggregation : string) : Group :=
  let group := mkGroup (Key group) (Label group) (Value group)
                       (Len (View group)) (SubGroups group) (View group) in
  if Nat.eqb (Count group) 0 then group
  else if String.eqb aggregation "sum" then
    setValue group (SumMeasure (View group) measure)
  else if String.eqb aggregation "count" then
    setValue group (float64_of_nat (Count group))
  else if String.eqb aggregation "avg" then
    setValue group (AvgMeasure (View group) measure)
  else if String.eqb aggregation "max" then
    setValue group (MaxMeasure (View group) measure)
  else if String.eqb aggregation "min" then
    setValue group (MinMeasure (View group) measure)
  else if String.eqb aggregation "list" then
    setValue group (SumMeasure (View group) measure)
  else if String.eqb aggregation "none" then group
  else setValue group (SumMeasure (View group) measure).

Definition inb (x : string) (l : list string) : bool :=
  existsb (String.eqb x) l.

(** Go: [SortGroups]; string [<] is bytewise. *)
Definition SortGroups (groups : list Group) (sortBy : string) : list Group :=
  if inb sortBy ["value_desc"; "amount_desc"] then
    sort_Slice (fun a b => PrimFloat.ltb (Value b) (Value a)) groups
  else if inb sortBy ["value_asc"; "amount_asc"] then
    sort_Slice (fun a b => PrimFloat.ltb (Value a) (Value b)) groups
  else if inb sortBy ["chronological"; "date_asc"] then
    sort_Slice (fun a b => (parseSortableDate (Key a) <? parseSortableDate (Key b))%Z) groups
  else if inb sortBy ["reverse_chronological"; "date_desc"] then
    sort_Slice (fun a b => (parseSortableDate (Key b) <? parseSortableDate (Key a))%Z) groups
  else if inb sortBy ["label_asc"; "alpha_asc"] then
    sort_Slice (fun a b => String.ltb (ToLower (Key a)) (ToLower (Key b))) groups
  else if inb sortBy ["label_desc"] then
    sort_Slice (fun a b => String.ltb (ToLower (Key b)) (ToLower (Key a))) groups
  else groups.

(** Go: [GroupAndAggregate]: group, aggregate, sort, limit.  A nil result is
    the empty list. *)
Definition GroupAndAggregate (view : RecordView) (groupBy : list string)
    (measure aggregation sortBy : string) (limit : Z) : list Group :=
  if Nat.eqb (Len view) 0 then []
  else
    let groups :=
      match groupBy with
      | [] => [mkGroup "all" "Total" 0%float 0 [] view]
      | [d] => groupBySingle view d
      | _ => groupByMulti view groupBy
      end in
    let groups :=
      (fun g =>
         let g := aggregateGroup g measure aggregation in
         setSubGroups g ((fun sg => aggregateGroup sg measure aggregation)
                         <$> SubGroups g))
      <$> groups in
    let groups := SortGroups groups sortBy in
    if (0 <? limit)%Z && (limit <? Z.of_nat (length groups))%Z
    then take (Z.to_nat limit) groups
    else groups.

(** ** Conversions and formatting of package [fmt] and [math] *)

Definition minInt64 : Z := (- 2 ^ 63)%Z.

(** [int64(x)]: truncation toward zero; out of range, NaN and infinities
    give the smallest int64, as on amd64 and arm64. *)
Definition int64_of_float (x : float) : Z :=
  match Prim2SF x with
  | S754_zero _ => 0%Z
  | S754_finite s m e =>
      let a := if (0 <=? e)%Z then (Zpos m * 2 ^ e)%Z
               else (Zpos m / 2 ^ (- e))%Z in
      let v := if s then (- a)%Z else a in
      if (minInt64 <=? v)%Z && (v <? 2 ^ 63)%Z then v else minInt64
  | _ => minInt64
  end.

(** [float64(n)] for an int64, rounded to nearest. *)
Definition float64_of_int (n : Z) : float :=
  if (n =? minInt64)%Z then (-9223372036854775808)%float
  else if (n <? 0)%Z then PrimFloat.opp (PrimFloat.of_uint63 (Uint63.of_Z (- n)))
  else PrimFloat.of_uint63 (Uint63.of_Z n).

(** Decimal digits of [n >= 0], left-padded with zeros to [width]. *)
Definition padZeros (width : nat) (n : Z) : string :=
  let d := itoa n in
  String.concat "" (replicate (width - String.length d) "0") +:+ d.

(** [fmt.Sprintf("%.<prec>f", x)]: correctly rounded, ties to even. *)
Definition formatFixed (prec : nat) (x : float) : string :=
  let body (n : Z) :=
    let p := (10 ^ Z.of_nat prec)%Z in
    itoa (n / p) +:+
    (if Nat.eqb prec 0 then "" else "." +:+ padZeros prec (n mod p)) in
  match Prim2SF x with
  | S754_nan => "NaN"
  | S754_infinity s => if s then "-Inf" else "+Inf"
  | S754_zero s => (if s then "-" else "") +:+ body 0%Z
  | S754_finite s m e =>
      let num := (Zpos m * 10 ^ Z.of_nat prec)%Z in
      let n :=
        if (0 <=? e)%Z then (num * 2 ^ e)%Z
        else
          let den := (2 ^ (- e))%Z in
          let q := (num / den)%Z in
          let r := (num mod den)%Z in
          if (den <? 2 * r)%Z || ((den =? 2 * r)%Z && Z.odd q)
          then (q + 1)%Z else q in
      (if s then "-" else "") +:+ body n
  end.

(** [math.Round]: nearest integer, halves away from zero. *)
Definition math_Round (x : float) : float :=
  match Prim2SF x with
  | S754_finite s m e =>
      if (0 <=? e)%Z then x
      else
        let den := (2 ^ (- e))%Z in
        let q := (Zpos m / den)%Z in
        let r := (Zpos m mod den)%Z in
        let n := if (den <=? 2 * r)%Z then (q + 1)%Z else q in
        if s then PrimFloat.opp (float64_of_int n) else float64_of_int n
  | _ => x
  end.

Definition RoundTo2 (v : float) : float :=
  PrimFloat.div (math_Round (PrimFloat.mul v 100%float)) 100%float.

(** The thousands loop of [FormatCurrency]: three bytes at a time from the
    right while more than three remain. *)
Fixpoint chunk3 (fuel : nat) (s : string) : list string :=
  match fuel with
  | O => [s]
  | S fuel' =>
      let n := String.length s in
      if (3 <? n)%nat
      then chunk3 fuel' (substring 0 (n - 3) s) ++ [substring (n - 3) 3 s]
      else [s]
  end.

Definition FormatCurrency (amount : float) (currency : string) : string :=
  let negative := PrimFloat.ltb amount 0%float in
  let amount := if negative then PrimFloat.opp amount else amount in
  let intPart := int64_of_float amount in
  let decPart :=
    int64_of_float
      (PrimFloat.add
         (PrimFloat.mul (PrimFloat.sub amount (float64_of_int intPart)) 100%float)
         0.5%float) in
  let intStr := itoa intPart in
  let intStr := String.concat "," (chunk3 (String.length intStr) intStr) in
  let dec := if (0 <=? decPart)%Z then padZeros 2 decPart else itoa decPart in
  let result := currency +:+ " " +:+ intStr +:+ "." +:+ dec in
  if negative then "-" +:+ result else result.

(** Go: [FormatInt], for [n >= 0]; Go's recursion ends after one step per
    three digits. *)
Fixpoint FormatInt_go (fuel : nat) (n : Z) : string :=
  match fuel with
  | O => itoa n
  | S fuel' =>
      if (n <? 1000)%Z then itoa n
      else FormatInt_go fuel' (n / 1000) +:+ "," +:+ padZeros 3 (n mod 1000)
  end.

Definition FormatInt (n : Z) : string :=
  if (n <? 0)%Z then "-" +:+ FormatInt_go (Z.to_nat (Z.log2 (- n))) (- n)
  else FormatInt_go (Z.to_nat (Z.log2 n)) n.

(** Only the first byte is upper-cased. *)
Definition LabelForDimension (dimension : string) : string :=
  match dimension with
  | EmptyString => ""
  | String c rest => ToUpper (String c EmptyString) +:+ rest
  end.

Definition LabelForAggregation (aggregation : string) : string :=
  if String.eqb aggregation "sum" then "Amount"
  else if String.eqb aggregation "count" then "Count"
  else if String.eqb aggregation "avg" then "Average"
  else if String.eqb aggregation "max" then "Maximum"
  else if String.eqb aggregation "min" then "Minimum"
  else "Value".

Definition UniqueValues (view : RecordView) (dimension : string) : list string :=
  foldl (fun (result : list string) i =>
           let val := getDimensionValue view i dimension in
           if negb (String.eqb val "") && negb (inb val result)
           then result ++ [val] else result)
        [] (indices view).

(** ** Result types (engine/types.go) *)

Record GrowthData := mkGrowthData {
  EarliestValue : float;
  LatestValue : float;
  EarliestPeriod : string;
  LatestPeriod : string;
  ChangeAmount : float;
  ChangePercent : float;
  Direction : string
}.

Record RatioData := mkRatioData {
  NumeratorTotal : float;
  DenominatorTotal : float;
  Percentage : float;
  NumeratorLabel : string;
  DenominatorLabel : string
}.

Record TextData := mkTextData {
  TValue : string;
  RawValue : float;
  TUnit : string;
  Period : string;
  TCount : nat;
  Growth : option GrowthData;
  Ratio : option RatioData
}.

Record ChartPoint := mkChartPoint { PLabel : string; PValue : float }.

Record ChartSeries := mkChartSeries {
  SName : string; SData : list ChartPoint; SColor : string
}.

Record ChartConfig := mkChartConfig {
  ChartType : string;
  CTitle : string;
  XAxis : string;
  YAxis : string;
  Series : list ChartSeries;
  Colors : list string;
  ShowLegend : bool;
  ShowGrid : bool
}.

Record Column := mkColumn {
  ColKey : string; ColLabel : string; ColType : string; ColAlign : string
}.

Record Summary := mkSummary {
  SumLabel : string; SumValues : gmap string string
}.

Record TableData := mkTableData {
  TabTitle : string;
  Columns : list Column;
  Rows : list (list string);
  TabSummary : option Summary
}.

Record QuerySpec := mkQuerySpec {
  Intent : string;
  QFilters : Filters;
  CompareFilters : option Filters;
  Aggregation : string;
  QMeasure : string;
  GroupBy : list string;
  SortBy : string;
  Limit : Z;
  Visualize : string;
  Title : string;
  Reply : string;
  Confidence : float
}.

(** The fields of [Result] that [Execute] sets; [Data] holds a [*TextData]. *)
Record Result := mkResult {
  Success : bool;
  RType : string;
  RReply : string;
  RChartConfig : option ChartConfig;
  RTableData : option TableData;
  Data : option TextData;
  DisplayUnit : string;
  ShouldConvert : bool
}.

(** ** Text builder (engine/text_builder.go) *)

(** The set of non-empty values of the [month] dimension. *)
Definition monthSet (view : RecordView) : gmap string bool :=
  foldl (fun (months : gmap string bool) i =>
           let m := Dimension view i "month" in
           if String.eqb m "" then months else <[m := true]> months)
        ∅ (indices view).

Record periodScan := mkScan {
  sc_earliest : string; sc_latest : string;
  sc_earliestOrder : Z; sc_latestOrder : Z; sc_first : bool
}.

Definition DerivePeriod (view : RecordView) : string :=
  if Nat.eqb (Len view) 0 then "No data"
  else
    let months := monthSet view in
    if Nat.eqb (size months) 0 then "All time"
    else
      match Nat.eqb (size months) 1, range_map months with
      | true, (m, _) :: _ => m
      | _, _ =>
          let st :=
            foldl (fun st (mb : string * bool) =>
                     let m := fst mb in
                     let order := ParseMonthOrder m in
                     let st1 :=
                       if sc_first st || (order <? sc_earliestOrder st)%Z
                       then mkScan m (sc_latest st) order (sc_latestOrder st)
                                   (sc_first st)
                       else st in
                     let st2 :=
                       if sc_first st1 || (sc_latestOrder st1 <? order)%Z
                       then mkScan (sc_earliest st1) m (sc_earliestOrder st1)
                                   order (sc_first st1)
                       else st1 in
                     mkScan (sc_earliest st2) (sc_latest st2)
                            (sc_earliestOrder st2) (sc_latestOrder st2) false)
                  (mkScan "" "" 0 0 true) (range_map months) in
          sc_earliest st +:+ " – " +:+ sc_latest st
      end.

(** Per-month sums: [monthTotals[month] += view.Measure(i, measure)]. *)
Definition monthTotals (view : RecordView) (measure : string) : gmap string float :=
  foldl (fun (totals : gmap string float) i =>
           let month := Dimension view i "month" in
           if String.eqb month "" then totals
           else <[month := PrimFloat.add (default 0%float (totals !! month))
                                         (Measure view i measure)]> totals)
        ∅ (indices view).

Record entry := mkEntry { Month : string; Order : Z; Total : float }.

Definition sortedEntries (totals : gmap string float) : list entry :=
  sort_Slice (fun a b => (Order a <? Order b)%Z)
             ((fun mt => mkEntry (fst mt) (ParseMonthOrder (fst mt)) (snd mt))
              <$> range_map totals).

Definition zeroEntry : entry := mkEntry "" 0 0%float.

(** Go: [BuildGrowthText]. *)
Definition BuildGrowthText (view : RecordView) (measure unit_ : string) : TextData :=
  if Nat.eqb (Len view) 0 then
    mkTextData "No data" 0%float unit_ "No data" 0 None None
  else
    let totals := monthTotals view measure in
    if (size totals <? 2)%nat then
      let total := SumMeasure view measure in
      let period := DerivePeriod view in
      mkTextData (FormatCurrency total unit_) total unit_ period (Len view)
        (Some (mkGrowthData total total period period 0%float 0%float
                            "insufficient data"))
        None
    else
      let entries := sortedEntries totals in
      let earliest := default zeroEntry (head entries) in
      let latest := default zeroEntry (last entries) in
      let changeAmount := PrimFloat.sub (Total latest) (Total earliest) in
      let changePercent :=
        if negb (PrimFloat.eqb (Total earliest) 0%float)
        then PrimFloat.mul (PrimFloat.div changeAmount (Total earliest)) 100%float
        else 0%float in
      let direction :=
        if PrimFloat.ltb 0.5%float changePercent then "increased"
        else if PrimFloat.ltb changePercent (-0.5)%float then "decreased"
        else "unchanged" in
      let absPercent :=
        if PrimFloat.ltb changePercent 0%float then PrimFloat.opp changePercent
        else changePercent in
      let displayValue :=
        if String.eqb direction "increased"
        then "↑ " +:+ formatFixed 1 absPercent +:+ "%"
        else if String.eqb direction "decreased"
        then "↓ " +:+ formatFixed 1 absPercent +:+ "%"
        else "→ No change" in
      mkTextData displayValue changePercent unit_
        (Month earliest +:+ " – " +:+ Month latest) (Len view)
        (Some (mkGrowthData (Total earliest) (Total latest)
                            (Month earliest) (Month latest)
                            changeAmount changePercent direction))
        None.

(** Go: [BuildText]. *)
Definition BuildText (spec : QuerySpec) (groups : list Group) (view : RecordView)
    (measure unit_ : string) : TextData :=
  if Nat.eqb (Len view) 0 then
    mkTextData "0" 0%float unit_ (DerivePeriod view) 0 None None
  else if String.eqb (Aggregation spec) "growth" then
    BuildGrowthText view measure unit_
  else
    let value :=
      if String.eqb (Aggregation spec) "sum" then SumMeasure view measure
      else if String.eqb (Aggregation spec) "count" then float64_of_nat (Len view)
      else if String.eqb (Aggregation spec) "avg" then AvgMeasure view measure
      else if String.eqb (Aggregation spec) "max" then MaxMeasure view measure
      else if String.eqb (Aggregation spec) "min" then MinMeasure view measure
      else SumMeasure view measure in
    let formatted :=
      if String.eqb (Aggregation spec) "count"
      then FormatInt (int64_of_float value)
      else FormatCurrency value unit_ in
    mkTextData formatted value unit_ (DerivePeriod view) (Len view) None None.

(** ** Table builder (engine/table_builder.go) *)

Definition buildListTable (spec : QuerySpec) (view : RecordView)
    (measure unit_ : string) : TableData :=
  if Nat.eqb (Len view) 0 then mkTableData (Title spec) [] [] None
  else
    let dimKeys := DimensionKeys view in
    let columns :=
      ((fun key => mkColumn key (LabelForDimension key) "text" "left") <$> dimKeys)
      ++ [mkColumn measure (LabelForDimension measure) "number" "right"] in
    let rows :=
      (fun i => ((fun key => Dimension view i key) <$> dimKeys)
                ++ [formatFixed 2 (Measure view i measure)]) <$> indices view in
    let total := SumMeasure view measure in
    mkTableData (Title spec) columns rows
      (Some (mkSummary ("Total (" +:+ itoa (Z.of_nat (Len view)) +:+ " records)")
                       {[ measure := FormatCurrency total unit_ ]})).

Definition buildAggregatedTable (spec : QuerySpec) (groups : list Group)
    (measure unit_ : string) : TableData :=
  if Nat.eqb (length groups) 0 then mkTableData (Title spec) [] [] None
  else
    let groupLabel :=
      match GroupBy spec with
      | d :: _ => LabelForDimension d
      | [] => "Group"
      end in
    let valueLabel := LabelForAggregation (Aggregation spec) in
    let columns :=
      [mkColumn "group" groupLabel "text" "left";
       mkColumn "value" valueLabel "number" "right";
       mkColumn "count" "Count" "number" "center"] in
    let rows :=
      (fun g => [Label g; formatFixed 2 (Value g); itoa (Z.of_nat (Count g))])
      <$> groups in
    let totalValue :=
      foldl (fun t g => PrimFloat.add t (Value g)) 0%float groups in
    let totalCount := foldl (fun t g => t + Count g) 0 groups in
    mkTableData (Title spec) columns rows
      (Some (mkSummary "Total"
               (<["count" := itoa (Z.of_nat totalCount)]>
                  {[ "value" := FormatCurrency totalValue unit_ ]}))).

Definition BuildTable (spec : QuerySpec) (groups : list Group)
    (view : RecordView) (measure unit_ : string) : TableData :=
  if String.eqb (Aggregation spec) "list"
  then buildListTable spec view measure unit_
  else buildAggregatedTable spec groups measure unit_.

(** ** Chart builder (engine/chart_builder.go) *)

Definition defaultColors : list string :=
  ["#4F46E5"; "#10B981"; "#F59E0B"; "#EF4444"; "#8B5CF6";
   "#06B6D4"; "#EC4899"; "#84CC16"; "#F97316"; "#6366F1"].

Definition colorAt (i : nat) : string :=
  default "" (defaultColors !! (i mod length defaultColors)).

Definition buildSingleSeries (groups : list Group) (seriesName : string)
    : list ChartSeries :=
  let seriesName := if String.eqb seriesName "" then "Value" else seriesName in
  [mkChartSeries seriesName
     ((fun g => mkChartPoint (Label g) (RoundTo2 (Value g))) <$> groups) ""].

Definition buildMultiSeries (groups : list Group) : list ChartSeries :=
  let subKeySet : gmap string bool :=
    foldl (fun set g =>
             foldl (fun (set : gmap string bool) sg => <[Key sg := true]> set)
                   set (SubGroups g))
          ∅ groups in
  let subKeys := fst <$> range_map subKeySet in
  let sgLookup (g : Group) : gmap string float :=
    foldl (fun (m : gmap string float) sg => <[Key sg := Value sg]> m)
          ∅ (SubGroups g) in
  imap (fun i key =>
          mkChartSeries key
            ((fun g => mkChartPoint (Label g)
                         (RoundTo2 (default 0%float (sgLookup g !! key))))
             <$> groups)
            (colorAt i))
       subKeys.

Definition hasSubGroups (groups : list Group) : bool :=
  existsb (fun g => Nat.ltb 0 (length (SubGroups g))) groups.

Definition assignColors (count : nat) : list string := colorAt <$> seq 0 count.

(** Go: [BuildChart]; [None] is the nil result. *)
Definition BuildChart (spec : QuerySpec) (groups : list Group)
    : option ChartConfig :=
  if Nat.eqb (length groups) 0 then None
  else
    let chartType := if String.eqb (Visualize spec) "" then "bar"
                     else Visualize spec in
    let xAxis := match GroupBy spec with
                 | d :: _ => LabelForDimension d
                 | [] => ""
                 end in
    let series :=
      if (2 <=? length (GroupBy spec))%nat && hasSubGroups groups
      then buildMultiSeries groups
      else buildSingleSeries groups (Title spec) in
    Some (mkChartConfig chartType (Title spec) xAxis
            (LabelForAggregation (Aggregation spec)) series
            (assignColors (length series)) true
            (negb (String.eqb chartType "pie"))).

(** ** Options (engine/options.go) *)

Record config := mkConfig {
  BaseCurrency : string;
  CurrencyDimension : string;
  ExchangeRates : gmap string float;
  DefaultMeasure : string
}.

(** A functional option updates the configuration. *)
Definition Option_ : Type := config -> config.


Definition WithDefaultMeasure (measure : string) : Option_ :=
  fun c => mkConfig (BaseCurrency c) (CurrencyDimension c) (ExchangeRates c) measure.

Definition applyOptions (opts : list Option_) : config :=
  foldl (fun cfg opt => opt cfg) (mkConfig "" "" ∅ "amount") opts.

(** ** Executor (engine/executor.go) *)

(** [strings.ReplaceAll(s, old, new)] for a non-empty [old]. *)
Fixpoint replaceAll_go (fuel : nat) (s old new : string) : string :=
  match fuel, s with
  | S fuel', String c rest =>
      if String.prefix old s
      then new +:+ replaceAll_go fuel'
                     (substring (String.length old)
                                (String.length s - String.length old) s)
                     old new
      else String c (replaceAll_go fuel' rest old new)
  | _, _ => s
  end.

Definition ReplaceAll (s old new : string) : string :=
  replaceAll_go (String.length s) s old new.

Definition isPlaceholderByte (c : ascii) : bool :=
  ((97 <=? nat_of_ascii c)%nat && (nat_of_ascii c <=? 122)%nat)
  || Ascii.eqb c "_".

(** Length of the longest prefix made of [a-z_]. *)
Fixpoint nameRun (s : string) : nat :=
  match s with
  | String c rest => if isPlaceholderByte c then S (nameRun rest) else 0
  | EmptyString => 0
  end.

(** [placeholderRegex.ReplaceAllString(text, "")] for [\{[a-z_]+\}]. *)
Fixpoint stripPlaceholders_go (fuel : nat) (s : string) : string :=
  match fuel, s with
  | S fuel', String c rest =>
      let n := nameRun rest in
      if Ascii.eqb c "{" && (0 <? n)%nat
         && String.prefix "}" (substring n (String.length rest - n) rest)
      then stripPlaceholders_go fuel'
             (substring (n + 1) (String.length rest - (n + 1)) rest)
      else String c (stripPlaceholders_go fuel' rest)
  | _, _ => s
  end.

(** [strings.TrimRight(s, " .—-–")], on the reversed bytes: the two dashes
    are the three-byte runes U+2014 and U+2013. *)
Fixpoint trimRight_go (fuel : nat) (r : list ascii) : list ascii :=
  match fuel, r with
  | S fuel', c :: r' =>
      if Ascii.eqb c " " || Ascii.eqb c "." || Ascii.eqb c "-"
      then trimRight_go fuel' r'
      else
        match r' with
        | c2 :: c1 :: r'' =>
            if (nat_of_ascii c1 =? 226)%nat && (nat_of_ascii c2 =? 128)%nat
               && ((nat_of_ascii c =? 148)%nat || (nat_of_ascii c =? 147)%nat)
            then trimRight_go fuel' r''
            else r
        | _ => r
        end
  | _, _ => r
  end.

Definition trimRightDashes (s : string) : string :=
  let r := rev (list_ascii_of_string s) in
  string_of_list_ascii (rev (trimRight_go (length r) r)).

Definition stripUnresolvedPlaceholders (text : string) : string :=
  let cleaned := stripPlaceholders_go (String.length text) text in
  let cleaned := ReplaceAll cleaned "  " " " in
  let cleaned := TrimSpace cleaned in
  let cleaned := trimRightDashes cleaned in
  if String.eqb cleaned "" then text else cleaned.

(** [for k, v := range replacements { reply = strings.ReplaceAll(reply, k, v) }] *)
Definition applyReplacements (template : string)
    (replacements : gmap string string) : string :=
  foldl (fun result kv => ReplaceAll result (fst kv) (snd kv))
        template (range_map replacements).

Definition buildDefaultReply (view : RecordView) (measure unit_ : string) : string :=
  if Nat.eqb (Len view) 0 then "No matching records found."
  else "Found " +:+ itoa (Z.of_nat (Len view)) +:+ " records totalling "
       +:+ FormatCurrency (SumMeasure view measure) unit_ +:+ ".".

(** Go: [buildFilterLabel]; [None] is the nil pointer. *)
Definition buildFilterLabel (f : option Filters) : string :=
  match f with
  | None => "All"
  | Some f =>
      if IsEmpty f then "All"
      else
        let parts :=
          omap (fun kv => if Nat.ltb 0 (length (snd kv))
                          then Some (String.concat ", " (snd kv)) else None)
               (range_map (FDimensions f)) in
        if Nat.eqb (length parts) 0 then "All records"
        else String.concat " — " parts
  end.

(** The group with the highest value, the first one on ties. *)
Definition topGroup (g0 : Group) (rest : list Group) : Group :=
  foldl (fun top g => if PrimFloat.ltb (Value top) (Value g) then g else top)
        g0 rest.

(** Go: [ResolvePlaceholders]. *)
Definition ResolvePlaceholders (template : string) (groups : list Group)
    (view : RecordView) (measure unit_ : string) : string :=
  if String.eqb template "" then buildDefaultReply view measure unit_
  else
    let total := SumMeasure view measure in
    let count := Len view in
    let period := DerivePeriod view in
    let r : gmap string string :=
      <["{currency}" := unit_]>
      (<["{period}" := period]>
       (<["{count}" := itoa (Z.of_nat count)]>
        {[ "{total}" := FormatCurrency total unit_ ]})) in
    let r :=
      match groups with
      | g0 :: rest =>
          let top := topGroup g0 rest in
          <["{top_amount}" := FormatCurrency (Value top) unit_]>
          (<["{top_category}" := Label top]> r)
      | [] => r
      end in
    let r :=
      if Nat.ltb 0 count
      then <["{avg}" := FormatCurrency
                          (PrimFloat.div total (float64_of_nat count)) unit_]> r
      else r in
    let r :=
      if Nat.ltb 0 count
      then <["{min}" := FormatCurrency (MinMeasure view measure) unit_]>
           (<["{max}" := FormatCurrency (MaxMeasure view measure) unit_]> r)
      else r in
    let r :=
      match Growth (BuildGrowthText view measure unit_) with
      | Some g =>
          <["{direction}" := Direction g]>
          (<["{latest_period}" := LatestPeriod g]>
           (<["{earliest_period}" := EarliestPeriod g]>
            (<["{latest_value}" := FormatCurrency (LatestValue g) unit_]>
             (<["{earliest_value}" := FormatCurrency (EarliestValue g) unit_]>
              (<["{change_amount}" := FormatCurrency (ChangeAmount g) unit_]>
               (<["{growth_percent}" :=
                    formatFixed 1 (ChangePercent g) +:+ "%"]> r))))))
      | None => r
      end in
    stripUnresolvedPlaceholders (applyReplacements template r).

(** Go: [NormalizeQuerySpec]. *)
Definition setIntent (spec : QuerySpec) (intent visualize : string) : QuerySpec :=
  mkQuerySpec intent (QFilters spec) (CompareFilters spec) (Aggregation spec)
    (QMeasure spec) (GroupBy spec) (SortBy spec) (Limit spec) visualize
    (Title spec) (Reply spec) (Confidence spec).

Definition NormalizeQuerySpec (spec : QuerySpec) : QuerySpec :=
  let spec :=
    if String.eqb (Aggregation spec) "list"
       && negb (String.eqb (Intent spec) "table")
    then setIntent spec "table" "table" else spec in
  let spec :=
    if String.eqb (Intent spec) "chart" && Nat.eqb (length (GroupBy spec)) 0
    then setIntent spec "text" "text" else spec in
  if (String.eqb (Aggregation spec) "max" || String.eqb (Aggregation spec) "min")
     && Nat.eqb (length (GroupBy spec)) 0
  then setIntent spec "text" "text" else spec.

(** Go: [detectDisplayCurrency]. *)
Definition detectDisplayCurrency (view : RecordView)
    (currencyDimension baseCurrency : string) : string * bool :=
  if Nat.eqb (Len view) 0 then (baseCurrency, false)
  else
    let currencies : gmap string bool :=
      foldl (fun (cs : gmap string bool) i =>
               let c := Dimension view i currencyDimension in
               if String.eqb c "" then cs else <[c := true]> cs)
            ∅ (indices view) in
    match Nat.eqb (size currencies) 1, range_map currencies with
    | true, (c, _) :: _ => (c, false)
    | _, _ => (baseCurrency, true)
    end.

(** Go: [inferUnit]. *)
Definition inferUnit (view : RecordView) (currencyDimension : string) : string :=
  if String.eqb currencyDimension "" || Nat.eqb (Len view) 0 then ""
  else Dimension view 0 currencyDimension.

(** Go's [error]: [None] is nil. *)
Definition error : Type := option string.

Definition textReply (reply : string) : Result :=
  mkResult true "text" reply None None None "" false.

(** Go: [executeRatio]. *)
Definition executeRatio (spec : QuerySpec) (compare : Filters)
    (view : RecordView) (measure : string) (cfg : config) : Result * error :=
  let denominator := ApplyFilters view (QFilters spec) in
  let numerator := ApplyFilters view compare in
  let denomSum := SumMeasure denominator measure in
  let numSum := SumMeasure numerator measure in
  let pct :=
    if PrimFloat.ltb 0%float denomSum
    then PrimFloat.mul (PrimFloat.div numSum denomSum) 100%float
    else 0%float in
  let unit_ :=
    if String.eqb (BaseCurrency cfg) ""
    then inferUnit denominator (CurrencyDimension cfg)
    else BaseCurrency cfg in
  let numLabel := buildFilterLabel (Some compare) in
  let denomLabel := buildFilterLabel (Some (QFilters spec)) in
  let displayValue := formatFixed 1 pct +:+ "%" in
  let combined := newConcatView denominator numerator in
  let period := DerivePeriod combined in
  let textData :=
    mkTextData displayValue pct unit_ period (Len numerator + Len denominator)
      None
      (Some (mkRatioData numSum denomSum pct numLabel denomLabel)) in
  let replacements : gmap string string :=
    <["{total}" := FormatCurrency numSum unit_]>
    (<["{period}" := period]>
     (<["{denominator_label}" := denomLabel]>
      (<["{numerator_label}" := numLabel]>
       (<["{denominator_total}" := FormatCurrency denomSum unit_]>
        (<["{numerator_total}" := FormatCurrency numSum unit_]>
         {[ "{ratio_percent}" := displayValue ]}))))) in
  (mkResult true "text" (applyReplacements (Reply spec) replacements)
            None None (Some textData) unit_ false,
   None).

(** The head of [Execute]: which measure to aggregate. *)
Definition resolveMeasure (spec : QuerySpec) (cfg : config) : string :=
  let measure := QMeasure spec in
  let measure := if String.eqb measure "" then DefaultMeasure cfg else measure in
  if String.eqb measure "" then "amount" else measure.

(** Step 2 of [Execute], currency normalization: the view that grouping and
    the builders read from, [displayUnit] and [needsConversion]. *)
Definition currencyStage (cfg : config) (filtered : RecordView)
    (measure : string) : RecordView * string * bool :=
  if negb (String.eqb (BaseCurrency cfg) "")
     && negb (String.eqb (CurrencyDimension cfg) "")
     && Nat.ltb 0 (size (ExchangeRates cfg))
  then
    let '(displayUnit, needsConversion) :=
      detectDisplayCurrency filtered (CurrencyDimension cfg)
                            (BaseCurrency cfg) in
    if needsConversion
    then (newCurrencyView filtered measure (CurrencyDimension cfg)
                          (BaseCurrency cfg) (ExchangeRates cfg),
          BaseCurrency cfg, needsConversion)
    else (filtered, displayUnit, needsConversion)
  else (filtered, BaseCurrency cfg, false).

(** Steps 3 to 5 of [Execute]: group, dispatch on the intent, resolve the
    reply. *)
Definition dispatch (spec : QuerySpec) (filtered : RecordView)
    (measure displayUnit : string) (needsConversion : bool) : Result :=
  let groups :=
    GroupAndAggregate filtered (GroupBy spec) measure (Aggregation spec)
                      (SortBy spec) (Limit spec) in
  let result (type_ : string) (reply : string)
             (chart : option ChartConfig) (table : option TableData)
             (data : option TextData) :=
    mkResult true type_ reply chart table data displayUnit needsConversion in
  let resolved :=
    ResolvePlaceholders (Reply spec) groups filtered measure displayUnit in
  if String.eqb (Intent spec) "chart" then
    match BuildChart spec groups with
    | None => result "text" "Not enough data to generate a chart." None None None
    | Some chart => result "chart" resolved (Some chart) None None
    end
  else if String.eqb (Intent spec) "table" then
    result "table" resolved None
           (Some (BuildTable spec groups filtered measure displayUnit)) None
  else
    let data := BuildText spec groups filtered measure displayUnit in
    if String.eqb (Intent spec) "text"
       && String.eqb (Aggregation spec) "growth"
       && match Growth data with
          | Some g => String.eqb (Direction g) "insufficient data"
          | None => false
          end
    then
      result "text"
        ("Your data shows " +:+ TValue data +:+ " for " +:+ Period data
         +:+ ". Need at least 2 months of data to show trends.")
        None None (Some data)
    else result "text" resolved None None (Some data).

(** Go: [Execute].  Writes to the log are left out; the three blocks of its
    body are [resolveMeasure], [currencyStage] and [dispatch]. *)
Definition Execute (spec : QuerySpec) (view : RecordView) (opts : list Option_)
    : Result * error :=
  let cfg := applyOptions opts in
  let measure := resolveMeasure spec cfg in
  if Nat.eqb (Len view) 0 then
    (textReply "No data available to analyze.", None)
  else
    match String.eqb (Aggregation spec) "ratio", CompareFilters spec with
    | true, Some compare => executeRatio spec compare view measure cfg
    | _, _ =>
      let filtered := ApplyFilters view (QFilters spec) in
      if Nat.eqb (Len filtered) 0 then
        (textReply
           "No records match your query filters. Try broadening your search.",
         None)
      else
        let '(filtered, displayUnit, needsConversion) :=
          currencyStage cfg filtered measure in
        let displayUnit :=
          if String.eqb displayUnit ""
          then inferUnit filtered (CurrencyDimension cfg) else displayUnit in
        (dispatch spec filtered measure displayUnit needsConversion, None)
    end.

End WithRuntime.

End Engine.

(** * Schema description and discovery (package schema) *)

Module Schema.

(** ** Types (schema/schema.go)

    The slice-valued fields are kept abstract in [strs]: discovery builds
    plain values ([list string]); refinement, which is about sharing, puts
    references into a store there.  [SortHint], [RefinedAt] and [RefinedBy]
    are written by refine.go and read by its tests. *)

Record DimensionMeta_ (strs : Type) := mkDimensionMeta {
  Key : string;
  DisplayName : string;
  Description : string;
  SampleValues : strs;
  Groupable : bool;
  Filterable : bool;
  Parent : string;
  IsTemporal : bool;
  TemporalFormat : string;
  TemporalOrder : string;
  IsCurrencyCode : bool;
  CardinalityHint : string;
  DerivedFrom : string;
  SortHint : string
}.
Arguments mkDimensionMeta {strs}.
Arguments Key {strs}. Arguments DisplayName {strs}.
Arguments Description {strs}. Arguments SampleValues {strs}.
Arguments Groupable {strs}. Arguments Filterable {strs}.
Arguments Parent {strs}. Arguments IsTemporal {strs}.
Arguments TemporalFormat {strs}. Arguments TemporalOrder {strs}.
Arguments IsCurrencyCode {strs}. Arguments CardinalityHint {strs}.
Arguments DerivedFrom {strs}. Arguments SortHint {strs}.

Record MeasureMeta_ (strs : Type) := mkMeasureMeta {
  MKey : string;
  MDisplayName : string;
  MDescription : string;
  Unit : string;
  IsCurrency : bool;
  IsSynthetic : bool;
  Aggregations : strs;
  DefaultAggregation : string;
  Format : string
}.
Arguments mkMeasureMeta {strs}.
Arguments MKey {strs}. Arguments MDisplayName {strs}.
Arguments MDescription {strs}. Arguments Unit {strs}.
Arguments IsCurrency {strs}. Arguments IsSynthetic {strs}.
Arguments Aggregations {strs}. Arguments DefaultAggregation {strs}.
Arguments Format {strs}.

Record SkippedColumn := mkSkippedColumn {
  Column : string;
  Reason : string;
  Recoverable : bool
}.

Record CurrencyConfig_ (rates : Type) := mkCurrencyConfig {
  Enabled : bool;
  CodeDimension : string;
  CBaseCurrency : string;
  Rates : rates
}.
Arguments mkCurrencyConfig {rates}.
Arguments Enabled {rates}. Arguments CodeDimension {rates}.
Arguments CBaseCurrency {rates}. Arguments Rates {rates}.

Definition setParent {strs} (d : DimensionMeta_ strs) (parent : string)
    : DimensionMeta_ strs :=
  mkDimensionMeta (Key d) (DisplayName d) (Description d) (SampleValues d)
    (Groupable d) (Filterable d) parent (IsTemporal d) (TemporalFormat d)
    (TemporalOrder d) (IsCurrencyCode d) (CardinalityHint d) (DerivedFrom d)
    (SortHint d).

End Schema.

Module Discovery.
Import Schema.

Abbreviation DimensionMeta := (DimensionMeta_ (list string)).
Abbreviation MeasureMeta := (MeasureMeta_ (list string)).
Abbreviation CurrencyConfig := (CurrencyConfig_ (gmap string float)).

Record Config := mkConfig {
  Name : string;
  Version : string;
  CDescription : string;
  Dimensions : list DimensionMeta;
  Measures : list MeasureMeta;
  Currency : option CurrencyConfig;
  DiscoveredFrom : string;
  DiscoveredAt : string;
  SkippedColumns : list SkippedColumn
}.

Inductive columnRole := roleDimension | roleMeasure | roleSkipped.
Inductive columnType := typeString | typeNumeric | typeDate | typeBool.

#[global] Instance columnRole_eq_dec : EqDecision columnRole.
Proof. solve_decision. Defined.
#[global] Instance columnType_eq_dec : EqDecision columnType.
Proof. solve_decision. Defined.

Record columnAnalysis := mkColumn {
  header : string;
  key : string;
  index : nat;
  colType : columnType;
  role : columnRole;
  skipReason : string;
  recoverable : bool;
  uniqueCount : nat;
  totalCount : nat;
  nullCount : nat;
  sampleVals : list string;
  isTemporal : bool;
  temporalFormat : string;
  isCurrencyCode : bool;
  hasDecimals : bool;
  cardinalityHint : string
}.

Definition setRole (col : columnAnalysis) (r : columnRole) : columnAnalysis :=
  mkColumn (header col) (key col) (index col) (colType col) r (skipReason col)
    (recoverable col) (uniqueCount col) (totalCount col) (nullCount col)
    (sampleVals col) (isTemporal col) (temporalFormat col) (isCurrencyCode col)
    (hasDecimals col) (cardinalityHint col).

(** [col.role = roleSkipped; col.skipReason = ...; col.recoverable = ...] *)
Definition setSkipped (col : columnAnalysis) (reason : string) (rec : bool)
    : columnAnalysis :=
  mkColumn (header col) (key col) (index col) (colType col) roleSkipped reason
    rec (uniqueCount col) (totalCount col) (nullCount col)
    (sampleVals col) (isTemporal col) (temporalFormat col) (isCurrencyCode col)
    (hasDecimals col) (cardinalityHint col).

Definition setIsTemporal (col : columnAnalysis) (b : bool) : columnAnalysis :=
  mkColumn (header col) (key col) (index col) (colType col) (role col)
    (skipReason col) (recoverable col) (uniqueCount col) (totalCount col)
    (nullCount col) (sampleVals col) b (temporalFormat col) (isCurrencyCode col)
    (hasDecimals col) (cardinalityHint col).

Definition setCardinalityHint (col : columnAnalysis) (h : string)
    : columnAnalysis :=
  mkColumn (header col) (key col) (index col) (colType col) (role col)
    (skipReason col) (recoverable col) (uniqueCount col) (totalCount col)
    (nullCount col) (sampleVals col) (isTemporal col) (temporalFormat col)
    (isCurrencyCode col) (hasDecimals col) h.

(** The float64 nearest to 0.3. *)
Definition threshold03 : float := 0x1.3333333333333p-2%float.

(** Go: [classifyRole]; the ratio test is the float64 one. *)
Definition classifyRole (col : columnAnalysis) (totalRows : nat) : columnAnalysis :=
  match colType col with
  | typeNumeric =>
      if Nat.eqb (uniqueCount col) totalRows && (10 <? totalRows)%nat then
        setSkipped col "Unique per row — likely an ID column" false
      else if hasDecimals col then setRole col roleMeasure
      else
        let uniqueRatio :=
          PrimFloat.div (Engine.float64_of_nat (uniqueCount col))
                        (Engine.float64_of_nat totalRows) in
        if (uniqueCount col <? 20)%nat && PrimFloat.ltb uniqueRatio threshold03
        then setRole col roleDimension
        else setRole col roleMeasure
  | typeDate => setIsTemporal (setRole col roleDimension) true
  | typeBool => setRole col roleDimension
  | typeString =>
      if Nat.eqb (uniqueCount col) totalRows && (10 <? totalRows)%nat then
        setSkipped col "Unique per row — likely an identifier" false
      else if (totalRows / 2 <? uniqueCount col)%nat
              && (50 <? uniqueCount col)%nat then
        setSkipped col
          ("High cardinality (" +:+ Engine.itoa (Z.of_nat (uniqueCount col))
           +:+ " unique values) — not useful for grouping") true
      else setRole col roleDimension
  end.

(** The null markers of [analyzeColumn]. *)
Definition isNull (val : string) : bool :=
  Engine.inb val [""; "null"; "NULL"; "N/A"; "n/a"].

Section WithRuntime.
Context {rt : GoRuntime}.

(** The recognisers of discover.go that rest on [strconv], [time] layouts,
    [regexp] and [unicode]; they are parameters here, and the results hold
    for all of them. *)
Variable detectType : list string -> columnType.
Variable detectCurrencyCodes : list string -> bool.
Variable detectTemporalPattern : list string -> bool * string.
Variable toSnakeCase : string -> string.
Variable toDisplayName : string -> string.

(** The first loop of [analyzeColumn]: the trimmed non-null values of the
    column, in row order, and the number of nulls. *)
Definition columnValues (idx : nat) (rows : list (list string))
    : list string * nat :=
  foldl (fun (st : list string * nat) row =>
           match row !! idx with
           | None => (fst st, S (snd st))
           | Some cell =>
               let val := TrimSpace cell in
               if isNull val then (fst st, S (snd st))
               else (fst st ++ [val], snd st)
           end)
        ([], 0) rows.

Definition uniqueSetOf (values : list string) : gmap string bool :=
  foldl (fun (set : gmap string bool) v => <[v := true]> set) ∅ values.

(** Go: [collectSamples]; [sort.Strings] orders bytewise. *)
Definition collectSamples (uniqueSet : gmap string bool) (maxSamples : nat)
    : list string :=
  take maxSamples (sort_Slice String.ltb (fst <$> range_map uniqueSet)).

Definition containsDot (v : string) : bool :=
  existsb (fun c => Ascii.eqb c ".") (list_ascii_of_string v).

(** Go: [analyzeColumn]. *)
Definition analyzeColumn (hdr : string) (idx : nat) (rows : list (list string))
    (totalRows : nat) : columnAnalysis :=
  let '(values, nulls) := columnValues idx rows in
  let uniqueSet := uniqueSetOf values in
  let col := mkColumn hdr (toSnakeCase hdr) idx typeString roleDimension ""
               false (size uniqueSet) totalRows nulls [] false "" false false "" in
  if Nat.eqb (length values) 0 then
    setSkipped col "All values are empty/null" false
  else
    let samples := collectSamples uniqueSet 10 in
    let ty := detectType values in
    let decimals :=
      match ty with typeNumeric => existsb containsDot values | _ => false end in
    let currencyCode :=
      match ty with typeString => detectCurrencyCodes samples | _ => false end in
    let temporal :=
      match ty with
      | typeString => detectTemporalPattern samples
      | typeDate => (true, "")
      | _ => (false, "")
      end in
    let col := mkColumn hdr (toSnakeCase hdr) idx ty roleDimension "" false
                 (size uniqueSet) totalRows nulls samples (fst temporal)
                 (snd temporal) currencyCode decimals "" in
    let col := classifyRole col totalRows in
    setCardinalityHint col
      (if (uniqueCount col <=? 10)%nat then "low"
       else if (uniqueCount col <=? 100)%nat then "medium" else "high").

Definition toDimension (col : columnAnalysis) : DimensionMeta :=
  mkDimensionMeta (key col) (toDisplayName (header col)) "" (sampleVals col)
    true true "" (isTemporal col) (temporalFormat col) "chronological"
    (isCurrencyCode col) (cardinalityHint col) "" "".

Definition toMeasure (col : columnAnalysis) : MeasureMeta :=
  mkMeasureMeta (key col) (toDisplayName (header col)) "" "" false false
    ["sum"; "avg"; "min"; "max"; "count"] "sum" "".

(** ** Hierarchy detection *)

(** [dimIndices] and [dimUniques]: key to column index and to unique count,
    over the columns whose role is dimension. *)
Definition dimIndices (columns : list columnAnalysis) : gmap string nat :=
  foldl (fun (m : gmap string nat) col =>
           match role col with
           | roleDimension => <[key col := index col]> m
           | _ => m
           end) ∅ columns.

Definition dimUniques (columns : list columnAnalysis) : gmap string nat :=
  foldl (fun (m : gmap string nat) col =>
           match role col with
           | roleDimension => <[key col := uniqueCount col]> m
           | _ => m
           end) ∅ columns.

(** The scan over the rows for one (child, parent) pair: the child-to-parent
    map and [isHierarchy]; once [isHierarchy] is false the loop has left. *)
Definition hierarchyScan (rows : list (list string)) (childIdx parentIdx : nat)
    : gmap string string * bool :=
  foldl (fun (st : gmap string string * bool) row =>
           if negb (snd st) then st
           else
             match row !! childIdx, row !! parentIdx with
             | Some c, Some p =>
                 let child := TrimSpace c in
                 let parent := TrimSpace p in
                 if String.eqb child "" || String.eqb parent "" then st
                 else
                   match fst st !! child with
                   | Some existing =>
                       if String.eqb existing parent then st else (fst st, false)
                   | None => (<[child := parent]> (fst st), true)
                   end
             | _, _ => st
             end)
        (∅, true) rows.

(** One round of the inner loop, for candidate [j] of child [i]. *)
Definition parentStep (dimensions : list DimensionMeta)
    (rows : list (list string)) (columns : list columnAnalysis)
    (i childIdx : nat) (childKey : string)
    (best : string * nat) (j : nat) : string * nat :=
  if Nat.eqb i j then best
  else
    match dimensions !! j with
    | None => best
    | Some dj =>
        let parentKey := Key dj in
        match dimIndices columns !! parentKey with
        | None => best
        | Some parentIdx =>
            let pu := default 0 (dimUniques columns !! parentKey) in
            let cu := default 0 (dimUniques columns !! childKey) in
            if (cu <=? pu)%nat then best
            else
              let '(childToParent, isHierarchy) :=
                hierarchyScan rows childIdx parentIdx in
              if isHierarchy && (1 <? size childToParent)%nat
                 && (snd best <? pu)%nat
              then (parentKey, pu) else best
        end
    end.

Definition bestParent (dimensions : list DimensionMeta)
    (rows : list (list string)) (columns : list columnAnalysis)
    (i childIdx : nat) (childKey : string) : string * nat :=
  foldl (parentStep dimensions rows columns i childIdx childKey)
        ("", 0) (seq 0 (length dimensions)).

(** Go: [detectHierarchies]; the slice is updated in place, the model
    returns its new contents.  [headers] is not read. *)
Definition detectHierarchies (dimensions : list DimensionMeta)
    (rows : list (list string)) (headers : list string)
    (columns : list columnAnalysis) : list DimensionMeta :=
  imap (fun i d =>
          match dimIndices columns !! Key d with
          | None => d
          | Some childIdx =>
              let best := bestParent dimensions rows columns i childIdx (Key d) in
              if String.eqb (fst best) "" then d else setParent d (fst best)
          end)
       dimensions.

(** Go: [detectCurrencyConfig]. *)
Definition detectCurrencyConfig (dimensions : list DimensionMeta)
    : option CurrencyConfig :=
  match List.find (fun d => IsCurrencyCode d) dimensions with
  | Some d =>
      Some (mkCurrencyConfig true (Key d) (default "" (head (SampleValues d))) ∅)
  | None => None
  end.

(** ** Discovery proper *)

Record DiscoverOptions := mkDiscoverOptions {
  SampleSize : Z;
  RecoverColumns : list string;
  OName : string
}.

(** Step 5 of [DiscoverFromCSV]: each analysed column goes to the
    dimensions, the measures or the skipped columns. *)
Definition placeColumns (recoverSet : gmap string bool)
    (columns : list columnAnalysis)
    : list DimensionMeta * list MeasureMeta * list SkippedColumn :=
  foldl (fun (st : list DimensionMeta * list MeasureMeta * list SkippedColumn) col =>
           let '(dimensions, measures, skipped) := st in
           let recovered :=
             default false (recoverSet !! ToLower (header col))
             || default false (recoverSet !! key col) in
           match role col with
           | roleDimension => (dimensions ++ [toDimension col], measures, skipped)
           | roleMeasure => (dimensions, measures ++ [toMeasure col], skipped)
           | roleSkipped =>
               if recovered
               then (dimensions ++ [toDimension col], measures, skipped)
               else (dimensions, measures,
                     skipped ++ [mkSkippedColumn (header col) (skipReason col)
                                                 (recoverable col)])
           end)
        ([], [], []) columns.

(** [DiscoverFromCSV] once [encoding/csv] has delivered the header row and
    the sampled rows; [now] is [time.Now().Format(time.RFC3339)]. *)
Definition Discover (headers : list string) (rows : list (list string))
    (opt : DiscoverOptions) (now : string) : option Config * Engine.error :=
  if Nat.eqb (length headers) 0 then (None, Some "CSV has no columns")
  else
    let totalRows := length rows in
    if Nat.eqb totalRows 0 then (None, Some "CSV has no data rows")
    else
      let columns := imap (fun i hdr => analyzeColumn hdr i rows totalRows) headers in
      let recoverSet : gmap string bool :=
        foldl (fun (m : gmap string bool) c => <[ToLower c := true]> m)
              ∅ (RecoverColumns opt) in
      let '(dimensions, measures, skipped) := placeColumns recoverSet columns in
      let measures :=
        measures ++ [mkMeasureMeta "record_count" "Record Count"
                       "Number of records (auto-generated)" "" false true
                       ["count"] "count" ""] in
      let dimensions := detectHierarchies dimensions rows headers columns in
      let currency := detectCurrencyConfig dimensions in
      (Some (mkConfig (if String.eqb (OName opt) "" then "Auto-discovered Dataset"
                       else OName opt)
                      "1.0" "" dimensions measures currency "CSV" now skipped),
       None).

End WithRuntime.

End Discovery.

(** * AI-assisted refinement (schema/refine.go)

    Refinement is about sharing: a [*Config] points to slices whose backing
    arrays and to a map that other values may alias.  The store maps
    locations to the objects Go allocates; a slice is the location of its
    backing array and a length.  A read of a location that holds no object
    of the expected kind yields the zero value and a store to it does
    nothing: in a store built by Go neither occurs. *)

Module Refine.
Import Schema.

Abbreviation loc := positive.

(** [base] is [None] for a nil slice. *)
Record slice := mkSlice { base : option loc; len : nat }.

Abbreviation DimensionMeta := (DimensionMeta_ slice).
Abbreviation MeasureMeta := (MeasureMeta_ slice).
(** [Rates] is a map reference, [None] for the nil map. *)
Abbreviation CurrencyConfig := (CurrencyConfig_ (option loc)).

Record Config := mkConfig {
  Name : string;
  Version : string;
  CDescription : string;
  Dimensions : slice;
  Measures : slice;
  Currency : option loc;
  DiscoveredFrom : string;
  DiscoveredAt : string;
  SkippedColumns : slice;
  RefinedAt : string;
  RefinedBy : string
}.

Inductive cell :=
| CConfig (c : Config)
| CDims (l : list DimensionMeta)
| CMeasures (l : list MeasureMeta)
| CSkipped (l : list SkippedColumn)
| CStrings (l : list string)
| CCurrency (c : CurrencyConfig)
| CRates (m : gmap string float).

Abbreviation heap := (gmap loc cell).

(** ** The store monad *)

Definition M (A : Type) : Type := heap -> A * heap.

Definition ret {A} (a : A) : M A := fun h => (a, h).

Definition bind {A B} (m : M A) (k : A -> M B) : M B :=
  fun h => let '(a, h') := m h in k a h'.

Notation "'let*' x ':=' m 'in' k" := (bind m (fun x => k))
  (at level 10, x name, m at level 100, k at level 200).
Notation "m ';;' k" := (bind m (fun _ => k))
  (at level 100, k at level 200, right associativity).

Fixpoint forM_ {A} (l : list A) (body : A -> M unit) : M unit :=
  match l with
  | [] => ret tt
  | x :: l' => body x ;; forM_ l' body
  end.

(** [new] / [make]: a location not in use. *)
Definition alloc (c : cell) : M loc :=
  fun h => let l := fresh (dom h) in (l, <[l := c]> h).

(** A store at [l], which holds an object of the matching kind. *)
Definition modify (l : loc) (f : cell -> cell) : M unit :=
  fun h => (tt, match h !! l with
                | Some c => <[l := f c]> h
                | None => h
                end).

Definition zeroSlice : slice := mkSlice None 0.

Definition zeroConfig : Config :=
  mkConfig "" "" "" zeroSlice zeroSlice None "" "" zeroSlice "" "".

Definition zeroDim : DimensionMeta :=
  mkDimensionMeta "" "" "" zeroSlice false false "" false "" "" false "" "" "".

Definition zeroMeasure : MeasureMeta :=
  mkMeasureMeta "" "" "" "" false false zeroSlice "" "".

Definition zeroSkipped : SkippedColumn := mkSkippedColumn "" "" false.

Definition getConfig (l : loc) : M Config :=
  fun h => (match h !! l with Some (CConfig c) => c | _ => zeroConfig end, h).

Definition getDims (s : slice) : M (list DimensionMeta) :=
  fun h => (match base s with
            | Some b => match h !! b with
                        | Some (CDims l) => take (len s) l | _ => [] end
            | None => []
            end, h).

Definition getMeasures (s : slice) : M (list MeasureMeta) :=
  fun h => (match base s with
            | Some b => match h !! b with
                        | Some (CMeasures l) => take (len s) l | _ => [] end
            | None => []
            end, h).

Definition getSkipped (s : slice) : M (list SkippedColumn) :=
  fun h => (match base s with
            | Some b => match h !! b with
                        | Some (CSkipped l) => take (len s) l | _ => [] end
            | None => []
            end, h).

Definition getStrings (s : slice) : M (list string) :=
  fun h => (match base s with
            | Some b => match h !! b with
                        | Some (CStrings l) => take (len s) l | _ => [] end
            | None => []
            end, h).

Definition getCurrency (l : loc) : M CurrencyConfig :=
  fun h => (match h !! l with
            | Some (CCurrency c) => c
            | _ => mkCurrencyConfig false "" "" None end, h).

Definition getRates (r : option loc) : M (gmap string float) :=
  fun h => (match r with
            | Some l => match h !! l with Some (CRates m) => m | _ => ∅ end
            | None => ∅
            end, h).

Definition modifyConfig (l : loc) (f : Config -> Config) : M unit :=
  modify l (fun c => match c with CConfig x => CConfig (f x) | _ => c end).

(** [a[i] = f(a[i])] on the backing array at [l]. *)
Definition modifyDimAt (l : loc) (i : nat) (f : DimensionMeta -> DimensionMeta)
    : M unit :=
  modify l (fun c => match c with CDims x => CDims (alter f i x) | _ => c end).

Definition modifyMeasureAt (l : loc) (i : nat) (f : MeasureMeta -> MeasureMeta)
    : M unit :=
  modify l (fun c => match c with CMeasures x => CMeasures (alter f i x) | _ => c end).

(** [copy(dst, src)] for slices of equal length. *)
Definition copyStrings (l : loc) (vals : list string) : M unit :=
  modify l (fun c => match c with
                     | CStrings x => CStrings (vals ++ drop (length vals) x)
                     | _ => c end).

Definition copySkipped (l : loc) (vals : list SkippedColumn) : M unit :=
  modify l (fun c => match c with
                     | CSkipped x => CSkipped (vals ++ drop (length vals) x)
                     | _ => c end).

(** An element store through a slice: on its backing array. *)
Definition atBase (s : slice) (k : loc -> M unit) : M unit :=
  match base s with
  | Some b => k b
  | None => ret tt
  end.

Definition setRate (l : loc) (k : string) (v : float) : M unit :=
  modify l (fun c => match c with CRates m => CRates (<[k := v]> m) | _ => c end).

Section WithRuntime.
Context {rt : GoRuntime}.

(** ** Deep copy *)

Definition setSampleValues (d : DimensionMeta) (s : slice) : DimensionMeta :=
  mkDimensionMeta (Key d) (DisplayName d) (Description d) s
    (Groupable d) (Filterable d) (Parent d) (IsTemporal d) (TemporalFormat d)
    (TemporalOrder d) (IsCurrencyCode d) (CardinalityHint d) (DerivedFrom d)
    (SortHint d).

Definition setAggregations (m : MeasureMeta) (s : slice) : MeasureMeta :=
  mkMeasureMeta (MKey m) (MDisplayName m) (MDescription m) (Unit m)
    (IsCurrency m) (IsSynthetic m) s (DefaultAggregation m) (Format m).

Definition setDimensions (c : Config) (s : slice) : Config :=
  mkConfig (Name c) (Version c) (CDescription c) s (Measures c) (Currency c)
    (DiscoveredFrom c) (DiscoveredAt c) (SkippedColumns c) (RefinedAt c)
    (RefinedBy c).

Definition setMeasures (c : Config) (s : slice) : Config :=
  mkConfig (Name c) (Version c) (CDescription c) (Dimensions c) s (Currency c)
    (DiscoveredFrom c) (DiscoveredAt c) (SkippedColumns c) (RefinedAt c)
    (RefinedBy c).

Definition setSkippedColumns (c : Config) (s : slice) : Config :=
  mkConfig (Name c) (Version c) (CDescription c) (Dimensions c) (Measures c)
    (Currency c) (DiscoveredFrom c) (DiscoveredAt c) s (RefinedAt c)
    (RefinedBy c).

Definition setCurrency (c : Config) (p : option loc) : Config :=
  mkConfig (Name c) (Version c) (CDescription c) (Dimensions c) (Measures c)
    p (DiscoveredFrom c) (DiscoveredAt c) (SkippedColumns c) (RefinedAt c)
    (RefinedBy c).

(** [for i, x := range l] *)
Definition indexed {A} (l : list A) : list (nat * A) := imap pair l.

(** Go: [deepCopyConfig]. *)
Definition deepCopyConfig (src : loc) : M loc :=
  let* s := getConfig src in
  let* dst := alloc (CConfig (mkConfig (Name s) (Version s) (CDescription s)
                                zeroSlice zeroSlice None
                                (DiscoveredFrom s) (DiscoveredAt s)
                                zeroSlice "" "")) in
  (* dimensions *)
  let* dimsArr := alloc (CDims (replicate (len (Dimensions s)) zeroDim)) in
  modifyConfig dst (fun c => setDimensions c (mkSlice (Some dimsArr) (len (Dimensions s)))) ;;
  let* srcDims := getDims (Dimensions s) in
  forM_ (indexed srcDims) (fun id =>
    modifyDimAt dimsArr (fst id) (fun _ => snd id) ;;
    let n := len (SampleValues (snd id)) in
    let* arr := alloc (CStrings (replicate n "")) in
    modifyDimAt dimsArr (fst id) (fun d => setSampleValues d (mkSlice (Some arr) n)) ;;
    let* vals := getStrings (SampleValues (snd id)) in
    copyStrings arr vals) ;;
  (* measures *)
  let* measArr := alloc (CMeasures (replicate (len (Measures s)) zeroMeasure)) in
  modifyConfig dst (fun c => setMeasures c (mkSlice (Some measArr) (len (Measures s)))) ;;
  let* srcMeas := getMeasures (Measures s) in
  forM_ (indexed srcMeas) (fun im =>
    modifyMeasureAt measArr (fst im) (fun _ => snd im) ;;
    let n := len (Aggregations (snd im)) in
    let* arr := alloc (CStrings (replicate n "")) in
    modifyMeasureAt measArr (fst im) (fun m => setAggregations m (mkSlice (Some arr) n)) ;;
    let* vals := getStrings (Aggregations (snd im)) in
    copyStrings arr vals) ;;
  (* skipped columns *)
  let* skArr := alloc (CSkipped (replicate (len (SkippedColumns s)) zeroSkipped)) in
  modifyConfig dst (fun c =>
    setSkippedColumns c (mkSlice (Some skArr) (len (SkippedColumns s)))) ;;
  let* srcSk := getSkipped (SkippedColumns s) in
  copySkipped skArr srcSk ;;
  (* currency *)
  match Currency s with
  | Some cp =>
      let* currency := getCurrency cp in
      let* rates := alloc (CRates ∅) in
      let* srcRates := getRates (Rates currency) in
      forM_ (range_map srcRates) (fun kv => setRate rates (fst kv) (snd kv)) ;;
      let* p := alloc (CCurrency (mkCurrencyConfig (Enabled currency)
                                    (CodeDimension currency)
                                    (CBaseCurrency currency) (Some rates))) in
      modifyConfig dst (fun c => setCurrency c (Some p)) ;;
      ret dst
  | None => ret dst
  end.

(** ** Payload, response and merge *)

Record RefineConfig := mkRefineConfig {
  APIKey : string; Model : string; Endpoint : string
}.

Record refineColumn := mkRefineColumn {
  rcName : string; rcKey : string; rcRole : string; rcType : string;
  rcSamples : list string; rcUnique : Z;
  rcIsTemporal : bool; rcIsCurrencyCode : bool; rcParent : string
}.

Record refineDetected := mkRefineDetected {
  HasCurrency : bool; HasTemporal : bool;
  Hierarchies : list string; DetectedSkipped : list string
}.

Record refinePayload := mkRefinePayload {
  PColumns : list refineColumn; RowCount : Z; Detected : refineDetected
}.

Record columnEnrichment := mkColumnEnrichment {
  eKey : string; eDisplayName : string; eDescription : string;
  eUnit : string; eSortHint : string; eDefaultAggregation : string
}.

Record hierarchySuggestion := mkHierarchySuggestion {
  hParent : string; hChild : string; hReason : string
}.

Record recoverSuggestion := mkRecoverSuggestion {
  rColumn : string; rReason : string; rSuggestedRole : string
}.

Record refineEnrichment := mkRefineEnrichment {
  DatasetName : string;
  DatasetDescription : string;
  Enrichments : list columnEnrichment;
  SuggestedHierarchies : list hierarchySuggestion;
  RecoverColumns : list recoverSuggestion
}.

(** What lies outside the program: the model's answer to a prompt
    ([callRefineGemini], an HTTP round trip), [encoding/json] in both
    directions, the clock, and the fixed text around the metadata in the
    prompt. *)
Variable callRefineGemini : string -> RefineConfig -> string * Engine.error.
Variable json_MarshalIndent : refinePayload -> string.
Variable json_Unmarshal : string -> option refineEnrichment * Engine.error.
Variable time_Now : string.
Variable promptHead promptTail : string.

Definition estimateUnique (hint : string) : Z :=
  if String.eqb hint "low" then 5
  else if String.eqb hint "medium" then 30
  else if String.eqb hint "high" then 200
  else 10.

Definition isValidAggregation (agg : string) : bool :=
  Engine.inb agg ["sum"; "avg"; "count"; "max"; "min"].

(** Go: [limitSamples]: the same backing array, at most [max] long. *)
Definition limitSamples (vals : slice) (max : nat) : slice :=
  if (len vals <=? max)%nat then vals else mkSlice (base vals) max.

(** Go: [buildRefinePayload]; the samples are read where the encoder
    reads them. *)
Definition buildRefinePayload (draft : loc) : M refinePayload :=
  let* d := getConfig draft in
  let* dims := getDims (Dimensions d) in
  let* meas := getMeasures (Measures d) in
  let* skipped := getSkipped (SkippedColumns d) in
  let* hasCurrency :=
    match Currency d with
    | Some cp => let* c := getCurrency cp in ret (Enabled c)
    | None => ret false
    end in
  let* dimCols :=
    foldr (fun dm rest =>
             let* samples := getStrings (limitSamples (SampleValues dm) 5) in
             let* cols := rest in
             ret (mkRefineColumn (DisplayName dm) (Key dm) "dimension"
                    (if IsTemporal dm then "temporal" else "string")
                    samples (estimateUnique (CardinalityHint dm))
                    (IsTemporal dm) (IsCurrencyCode dm) (Parent dm) :: cols))
          (ret []) dims in
  let measCols :=
    omap (fun m => if IsSynthetic m then None
                   else Some (mkRefineColumn (MDisplayName m) (MKey m) "measure"
                                "numeric" [] 0 false false ""))
         meas in
  ret (mkRefinePayload (dimCols ++ measCols) 0
         (mkRefineDetected hasCurrency
            (existsb (fun dm => IsTemporal dm) dims)
            (omap (fun dm => if String.eqb (Parent dm) "" then None
                             else Some (Key dm +:+ " → " +:+ Parent dm)) dims)
            (Column <$> skipped))).

Definition buildRefinePrompt (payload : refinePayload) : string :=
  promptHead +:+ json_MarshalIndent payload +:+ promptTail.

Definition TrimPrefix (s prefix : string) : string :=
  if String.prefix prefix s
  then substring (String.length prefix) (String.length s - String.length prefix) s
  else s.

Definition TrimSuffix (s suffix : string) : string :=
  let n := String.length s - String.length suffix in
  if (String.length suffix <=? String.length s)%nat
     && String.eqb (substring n (String.length suffix) s) suffix
  then substring 0 n s else s.

(** Go: [parseRefineResponse]. *)
Definition parseRefineResponse (response : string)
    : option refineEnrichment * Engine.error :=
  let response := TrimSpace response in
  let response := TrimPrefix response "```json" in
  let response := TrimPrefix response "```" in
  let response := TrimSuffix response "```" in
  let response := TrimSpace response in
  match json_Unmarshal response with
  | (Some result, None) => (Some result, None)
  | (_, err) =>
      (None, Some ("failed to parse refine response: " +:+ default "" err
                   +:+ " (response: " +:+ substring 0 300 response +:+ ")"))
  end.

Definition enrichDimension (e : columnEnrichment) (d : DimensionMeta)
    : DimensionMeta :=
  mkDimensionMeta (Key d)
    (if String.eqb (eDisplayName e) "" then DisplayName d else eDisplayName e)
    (if String.eqb (eDescription e) "" then Description d else eDescription e)
    (SampleValues d) (Groupable d) (Filterable d) (Parent d) (IsTemporal d)
    (TemporalFormat d) (TemporalOrder d) (IsCurrencyCode d) (CardinalityHint d)
    (DerivedFrom d)
    (if String.eqb (eSortHint e) "" then SortHint d else eSortHint e).

Definition enrichMeasure (e : columnEnrichment) (m : MeasureMeta) : MeasureMeta :=
  mkMeasureMeta (MKey m)
    (if String.eqb (eDisplayName e) "" then MDisplayName m else eDisplayName e)
    (if String.eqb (eDescription e) "" then MDescription m else eDescription e)
    (if String.eqb (eUnit e) "" then Unit m else eUnit e)
    (if negb (String.eqb (eUnit e) "") && String.eqb (eUnit e) "currency"
     then true else IsCurrency m)
    (IsSynthetic m) (Aggregations m)
    (if negb (String.eqb (eDefaultAggregation e) "")
        && isValidAggregation (eDefaultAggregation e)
     then eDefaultAggregation e else DefaultAggregation m)
    (Format m).

Definition setName (c : Config) (v : string) : Config :=
  mkConfig v (Version c) (CDescription c) (Dimensions c) (Measures c)
    (Currency c) (DiscoveredFrom c) (DiscoveredAt c) (SkippedColumns c)
    (RefinedAt c) (RefinedBy c).

Definition setDescription (c : Config) (v : string) : Config :=
  mkConfig (Name c) (Version c) v (Dimensions c) (Measures c)
    (Currency c) (DiscoveredFrom c) (DiscoveredAt c) (SkippedColumns c)
    (RefinedAt c) (RefinedBy c).

Definition setRefined (c : Config) (at_ by_ : string) : Config :=
  mkConfig (Name c) (Version c) (CDescription c) (Dimensions c) (Measures c)
    (Currency c) (DiscoveredFrom c) (DiscoveredAt c) (SkippedColumns c)
    at_ by_.

(** Go: [applyEnrichments]. *)
Definition applyEnrichments (draft : loc) (enrichment : refineEnrichment)
    : M loc :=
  let* result := deepCopyConfig draft in
  (if String.eqb (DatasetName enrichment) "" then ret tt
   else modifyConfig result (fun c => setName c (DatasetName enrichment))) ;;
  (if String.eqb (DatasetDescription enrichment) "" then ret tt
   else modifyConfig result
          (fun c => setDescription c (DatasetDescription enrichment))) ;;
  let enrichMap : gmap string columnEnrichment :=
    foldl (fun (m : gmap string columnEnrichment) e => <[eKey e := e]> m)
          ∅ (Enrichments enrichment) in
  (* dimensions *)
  let* r := getConfig result in
  forM_ (seq 0 (len (Dimensions r))) (fun i =>
    let* r := getConfig result in
    atBase (Dimensions r) (fun b =>
      modifyDimAt b i (fun d =>
        match enrichMap !! Key d with
        | Some e => enrichDimension e d
        | None => d
        end))) ;;
  (* measures *)
  let* r := getConfig result in
  forM_ (seq 0 (len (Measures r))) (fun i =>
    let* r := getConfig result in
    atBase (Measures r) (fun b =>
      modifyMeasureAt b i (fun m =>
        match enrichMap !! MKey m with
        | Some e => enrichMeasure e m
        | None => m
        end))) ;;
  (* hierarchy suggestions, only where no parent is set *)
  forM_ (SuggestedHierarchies enrichment) (fun h =>
    let* r := getConfig result in
    forM_ (seq 0 (len (Dimensions r))) (fun i =>
      let* r := getConfig result in
      atBase (Dimensions r) (fun b =>
        modifyDimAt b i (fun d =>
          if String.eqb (Key d) (hChild h) && String.eqb (Parent d) ""
          then setParent d (hParent h) else d)))) ;;
  modifyConfig result (fun c => setRefined c time_Now "gemini") ;;
  ret result.

(** Go: [Refine]; [None] is the nil pointer.  Writes to the log are left
    out. *)
Definition Refine (draft : option loc) (cfg : RefineConfig)
    : M (option loc * Engine.error) :=
  match draft with
  | None => ret (None, Some "draft schema is nil")
  | Some draft =>
      if String.eqb (APIKey cfg) ""
      then ret (None, Some "API key is required for Smart Refine")
      else
        let cfg :=
          mkRefineConfig (APIKey cfg)
            (if String.eqb (Model cfg) "" then "gemini-2.5-flash-lite"
             else Model cfg)
            (if String.eqb (Endpoint cfg) ""
             then "https://generativelanguage.googleapis.com/v1beta/models"
             else Endpoint cfg) in
        let* payload := buildRefinePayload draft in
        let prompt := buildRefinePrompt payload in
        match callRefineGemini prompt cfg with
        | (_, Some err) =>
            ret (Some draft, Some ("smart refine AI call failed: " +:+ err))
        | (response, None) =>
            match parseRefineResponse response with
            | (Some enrichment, None) =>
                let* result := applyEnrichments draft enrichment in
                ret (Some result, None)
            | (_, err) =>
                ret (Some draft,
                     Some ("smart refine parse failed: " +:+ default "" err))
            end
        end
  end.

End WithRuntime.

End Refine.

(** * Helpers on a schema (schema/schema.go) *)

Module SchemaConfig.
Import Schema Discovery.

Definition DefaultDimension (key displayName : string) (samples : list string)
    : DimensionMeta :=
  mkDimensionMeta key displayName "" samples true true "" false "" "" false
                  "" "" "".

Definition DefaultMeasure (key displayName : string) : MeasureMeta :=
  mkMeasureMeta key displayName "" "" false false
                ["sum"; "avg"; "min"; "max"; "count"] "sum" "".

(** Go: [Config.GetDefaultMeasure]. *)
Definition GetDefaultMeasure (c : Config) : string :=
  match Measures c with
  | m :: _ => MKey m
  | [] => "amount"
  end.

(** Go: [Config.DimensionKeys] and [Config.MeasureKeys]. *)
Definition DimensionKeys (c : Config) : list string := Key <$> Dimensions c.

Definition MeasureKeys (c : Config) : list string := MKey <$> Measures c.

End SchemaConfig.

(** * Reading records from CSV (helpers/csv.go)

    As for discovery, [encoding/csv] has delivered the header row and the
    rows it could read; [parseFloat] is [strconv.ParseFloat(val, 64)], [None]
    when it returns an error. *)

Module Helpers.
Import Schema.

Section WithRuntime.
Context {rt : GoRuntime}.
Variable parseFloat : string -> option float.

(** Go: [toSnakeCase] of package helpers. *)
Definition toSnakeCase (s : string) : string :=
  let s := ToLower s in
  let s := Engine.ReplaceAll s " " "_" in
  Engine.ReplaceAll s "-" "_".










End WithRuntime.

End Helpers.

(** * Reading the translator's answer (translator/parser.go) *)

Module Translator.

Record InterpretDetail := mkInterpretDetail {
  DLabel : string; DValue : string
}.

Record InterpretSuggestion := mkInterpretSuggestion {
  SLabel : string; SModifier : string
}.

Record Interpretation := mkInterpretation {
  VisualType : string;
  ISummary : string;
  Details : list InterpretDetail;
  Suggestions : list InterpretSuggestion;
  IConfidence : float
}.

Record TranslateResult := mkTranslateResult {
  TQuerySpec : Engine.QuerySpec;
  TInterpretation : Interpretation
}.

Section WithRuntime.
Context {rt : GoRuntime}.

(** [json.Unmarshal] into a [TranslateResult]: the decoded value and the
    error; [firstRunes n s] is [fmt.Sprintf("%.<n>s", s)]. *)
Variable json_Unmarshal : string -> TranslateResult * Engine.error.
Variable firstRunes : nat -> string -> string.

Definition setConfidence (spec : Engine.QuerySpec) (c : float)
    : Engine.QuerySpec :=
  Engine.mkQuerySpec (Engine.Intent spec) (Engine.QFilters spec)
    (Engine.CompareFilters spec) (Engine.Aggregation spec)
    (Engine.QMeasure spec) (Engine.GroupBy spec) (Engine.SortBy spec)
    (Engine.Limit spec) (Engine.Visualize spec) (Engine.Title spec)
    (Engine.Reply spec) c.

Definition setAggregation (spec : Engine.QuerySpec) (a : string)
    : Engine.QuerySpec :=
  Engine.mkQuerySpec (Engine.Intent spec) (Engine.QFilters spec)
    (Engine.CompareFilters spec) a
    (Engine.QMeasure spec) (Engine.GroupBy spec) (Engine.SortBy spec)
    (Engine.Limit spec) (Engine.Visualize spec) (Engine.Title spec)
    (Engine.Reply spec) (Engine.Confidence spec).

(** The markdown fences around the answer are removed. *)
Definition stripFences (response : string) : string :=
  let response := TrimSpace response in
  let response := Refine.TrimPrefix response "```json" in
  let response := Refine.TrimPrefix response "```" in
  let response := Refine.TrimSuffix response "```" in
  TrimSpace response.

(** Go: [parseResponse]. *)
Definition parseResponse (response : string)
    : option TranslateResult * Engine.error :=
  let response := stripFences response in
  match json_Unmarshal response with
  | (_, Some err) =>
      (None, Some ("failed to parse translator response: " +:+ err
                   +:+ " (response: " +:+ firstRunes 200 response +:+ ")"))
  | (result, None) =>
      let spec := TQuerySpec result in
      let spec :=
        if String.eqb (Engine.Intent spec) ""
        then Engine.setIntent spec "text" (Engine.Visualize spec) else spec in
      let spec :=
        if String.eqb (Engine.Aggregation spec) ""
        then setAggregation spec "sum" else spec in
      let spec :=
        if String.eqb (Engine.Visualize spec) ""
        then Engine.setIntent spec (Engine.Intent spec) (Engine.Intent spec)
        else spec in
      let spec :=
        if PrimFloat.eqb (Engine.Confidence spec) 0%float
           && PrimFloat.ltb 0%float (IConfidence (TInterpretation result))
        then setConfidence spec (IConfidence (TInterpretation result))
        else spec in
      (Some (mkTranslateResult (Engine.NormalizeQuerySpec spec)
                               (TInterpretation result)),
       None)
  end.

End WithRuntime.

End Translator.

(** * An instance of the runtime

    [range] in the order of [map_to_list], [sort.Slice] as the insertion
    sort Go runs on slices of at most twelve elements, and the [strings]
    functions on ASCII text, where they agree with Go's. *)

Module AsciiRuntime.

Definition lowerByte (c : ascii) : ascii :=
  let n := nat_of_ascii c in
  if (65 <=? n)%nat && (n <=? 90)%nat then ascii_of_nat (n + 32) else c.

Definition upperByte (c : ascii) : ascii :=
  let n := nat_of_ascii c in
  if (97 <=? n)%nat && (n <=? 122)%nat then ascii_of_nat (n - 32) else c.

Fixpoint mapBytes (f : ascii -> ascii) (s : string) : string :=
  match s with
  | EmptyString => EmptyString
  | String c rest => String (f c) (mapBytes f rest)
  end.

Definition isSpaceByte (c : ascii) : bool :=
  let n := nat_of_ascii c in
  ((9 <=? n)%nat && (n <=? 13)%nat) || (n =? 32)%nat.

Fixpoint dropSpaces (l : list ascii) : list ascii :=
  match l with
  | c :: l' => if isSpaceByte c then dropSpaces l' else l
  | [] => []
  end.

Definition trimSpace (s : string) : string :=
  string_of_list_ascii
    (rev (dropSpaces (rev (dropSpaces (list_ascii_of_string s))))).

(** [x] moves left past every element it is [less] than; [rp] is the sorted
    prefix, last element first. *)
Fixpoint bubble {A} (less : A -> A -> bool) (x : A) (rp : list A) : list A :=
  match rp with
  | [] => [x]
  | y :: rest => if less x y then y :: bubble less x rest else x :: rp
  end.

Definition insertionSort {A} (less : A -> A -> bool) (l : list A) : list A :=
  rev (foldl (fun rp x => bubble less x rp) [] l).

End AsciiRuntime.

(** * Results *)

Module AsciiRuntimeFacts.
Import AsciiRuntime.

Lemma bubble_perm {A} (less : A -> A -> bool) x (rp : list A) :
  Permutation (bubble less x rp) (x :: rp).
Proof.
  induction rp as [|y rest IH]; simpl; [done|].
  destruct (less x y); [|done].
  rewrite IH. apply perm_swap.
Qed.

Lemma insertionSort_perm {A} (less : A -> A -> bool) (l : list A) :
  Permutation (insertionSort less l) l.
Proof.
  unfold insertionSort.
  assert (H : forall acc, Permutation (foldl (fun rp x => bubble less x rp) acc l)
                                      (rev l ++ acc)).
  { induction l as [|x l IH]; intros acc; simpl; [done|].
    rewrite IH, bubble_perm, <- app_assoc. simpl.
    reflexivity. }
  rewrite <- Permutation_rev, H, app_nil_r. by rewrite <- Permutation_rev.
Qed.

Definition sorted_down {A} (less : A -> A -> bool) (rp : list A) : Prop :=
  StronglySorted (fun a b => less a b = false) rp.

Lemma bubble_sorted {A} (less : A -> A -> bool) x (rp : list A) :
  strict_weak less -> sorted_down less rp -> sorted_down less (bubble less x rp).
Proof.
  intros (Hirr & Htr & Hneg) Hs.
  induction Hs as [|y rest Hrest IH Hy]; simpl.
  - repeat constructor.
  - destruct (less x y) eqn:Hxy.
    + constructor; [exact IH|].
      rewrite (bubble_perm less x rest).
      constructor; [|exact Hy].
      destruct (less y x) eqn:Hyx; [|done].
      rewrite <- (Hirr x). symmetry. by eapply Htr.
    + constructor; [by constructor|].
      constructor; [exact Hxy|].
      eapply Forall_impl; [exact Hy|]. simpl. intros z Hyz.
      by eapply Hneg.
Qed.

Lemma StronglySorted_snoc {A} (R : A -> A -> Prop) (l : list A) x :
  StronglySorted R l -> Forall (fun y => R y x) l -> StronglySorted R (l ++ [x]).
Proof.
  induction 1 as [|y l Hl IH Hy]; intros Hx; simpl.
  - repeat constructor.
  - apply Forall_cons in Hx as [Hyx Hx].
    constructor; [by apply IH|].
    apply Forall_app. split; [done|]. by constructor.
Qed.

Lemma StronglySorted_rev {A} (R : A -> A -> Prop) (l : list A) :
  StronglySorted R l -> StronglySorted (fun a b => R b a) (rev l).
Proof.
  induction 1 as [|x l Hl IH Hx]; simpl; [constructor|].
  apply StronglySorted_snoc; [done|].
  by apply Forall_rev.
Qed.

Lemma insertionSort_sorted {A} (less : A -> A -> bool) (l : list A) :
  strict_weak less -> sorted_by less (insertionSort less l).
Proof.
  intros Hsw. unfold insertionSort, sorted_by.
  apply (StronglySorted_rev (fun a b => less a b = false)).
  assert (H : forall acc, sorted_down less acc ->
             sorted_down less (foldl (fun rp x => bubble less x rp) acc l)).
  { induction l as [|x l IH]; intros acc Hacc; simpl; [done|].
    apply IH. by apply bubble_sorted. }
  apply H. constructor.
Qed.

#[export] Instance asciiRuntime : GoRuntime := {|
  ToLower := mapBytes lowerByte;
  ToUpper := mapBytes upperByte;
  TrimSpace := trimSpace;
  range_map := fun V m => map_to_list m;
  range_map_perm := fun V m => Permutation_refl _;
  sort_Slice := @insertionSort;
  sort_Slice_perm := @insertionSort_perm;
  sort_Slice_sorted := @insertionSort_sorted
|}.

End AsciiRuntimeFacts.
Export AsciiRuntimeFacts.

(** ** Sample data *)

Module Samples.
Import Engine.

Definition row (month category currency : string) (amount : float) : Record_ :=
  mkRecord (<["month" := month]> (<["category" := category]>
              {[ "currency" := currency ]}))
           {[ "amount" := amount ]}.

(** A small single-currency ledger. *)
Definition ledger : RecordView :=
  NewSliceView (rt := asciiRuntime)
    [ row "Jan-2026" "Expense" "USD" 1000%float;
      row "Feb-2026" "EXPENSE" "USD" 1200%float;
      row "Feb-2026" "Income" "USD" 3000%float ].

Definition onlyExpense : Filters :=
  mkFilters {[ "category" := ["expense"] ]}.

Definition onlyJanuary : Filters :=
  mkFilters {[ "month" := ["Jan-2026"] ]}.

(** A ledger with a refund: the rows of category [Refund] sum to -10. *)
Definition refunds : RecordView :=
  NewSliceView (rt := asciiRuntime)
    [ row "Jan-2026" "Refund" "USD" (-10)%float;
      row "Jan-2026" "Fee" "USD" 5%float ].

Definition onlyRefund : Filters := mkFilters {[ "category" := ["Refund"] ]}.
Definition onlyFee : Filters := mkFilters {[ "category" := ["Fee"] ]}.

Definition ratioSpec (filters compare : Filters) : QuerySpec :=
  mkQuerySpec "text" filters (Some compare) "ratio" "amount" [] "" 0 "text"
              "" "" 1%float.

Definition noCurrency : config := mkConfig "" "" ∅ "amount".






End Samples.

Module EngineFacts.
Import Engine.

Section RuntimeFacts.
Context {rt : GoRuntime}.

Lemma elem_of_range_map {V} (m : gmap string V) k v :
  (k, v) ∈ range_map m <-> m !! k = Some v.
Proof.
  rewrite <- elem_of_map_to_list.
  split; intros H; [by rewrite <- (range_map_perm V m) | by rewrite (range_map_perm V m)].
Qed.

Lemma NoDup_range_map_keys {V} (m : gmap string V) : NoDup ((range_map m).*1).
Proof.
  rewrite (range_map_perm V m). apply NoDup_fst_map_to_list.
Qed.

Lemma length_range_map {V} (m : gmap string V) : length (range_map m) = size m.
Proof. rewrite (range_map_perm V m). by rewrite length_map_to_list. Qed.

End RuntimeFacts.

Section FilterFacts.
Context {rt : GoRuntime}.

Lemma elem_of_toLowerSet_acc (items : list string) (acc : gset string) x :
  x ∈ foldl (fun (set : gset string) item => {[ ToLower item ]} ∪ set) acc items
  <-> x ∈ acc \/ x ∈ ToLower <$> items.
Proof.
  revert acc. induction items as [|it items IH]; intros acc; simpl.
  - rewrite elem_of_nil. tauto.
  - rewrite IH, elem_of_union, elem_of_singleton, elem_of_cons. tauto.
Qed.

Lemma elem_of_toLowerSet (items : list string) x :
  x ∈ toLowerSet items <-> x ∈ ToLower <$> items.
Proof.
  unfold toLowerSet. rewrite elem_of_toLowerSet_acc, elem_of_empty. tauto.
Qed.

Definition setsStep (sets : gmap string (gset string))
    (kv : string * list string) : gmap string (gset string) :=
  if Nat.ltb 0 (length (snd kv))
  then <[fst kv := toLowerSet (snd kv)]> sets else sets.

Lemma setsStep_foldl_notin l (acc : gmap string (gset string)) dim :
  dim ∉ l.*1 -> foldl setsStep acc l !! dim = acc !! dim.
Proof.
  revert acc. induction l as [|[k v] l IH]; intros acc Hn; simpl; [done|].
  rewrite fmap_cons, not_elem_of_cons in Hn. destruct Hn as [Hk Hn].
  rewrite IH by done. unfold setsStep; simpl.
  destruct (Nat.ltb 0 (length v)); [|done].
  by rewrite lookup_insert_ne.
Qed.

Lemma setsStep_foldl_in l (acc : gmap string (gset string)) dim allowed :
  NoDup (l.*1) -> (dim, allowed) ∈ l -> allowed <> [] ->
  foldl setsStep acc l !! dim = Some (toLowerSet allowed).
Proof.
  revert acc. induction l as [|[k v] l IH]; intros acc Hnd Hin Hne; simpl.
  - by apply elem_of_nil in Hin.
  - rewrite fmap_cons in Hnd. apply NoDup_cons in Hnd as [Hk Hnd].
    apply elem_of_cons in Hin as [Heq|Hin].
    + inversion Heq; subst k v.
      rewrite setsStep_foldl_notin by done.
      unfold setsStep; simpl.
      destruct allowed; [congruence|]. simpl.
      by rewrite lookup_insert_eq.
    + by apply IH.
Qed.

Lemma buildSets_constrained (F : Filters) dim (allowed : list string) :
  FDimensions F !! dim = Some allowed -> allowed <> [] ->
  buildSets F !! dim = Some (toLowerSet allowed).
Proof.
  intros Hl Hne. unfold buildSets.
  apply (setsStep_foldl_in _ ∅ dim allowed); [apply NoDup_range_map_keys| |done].
  by apply elem_of_range_map.
Qed.

Lemma IsEmpty_false_constrained (F : Filters) dim (allowed : list string) :
  FDimensions F !! dim = Some allowed -> allowed <> [] -> IsEmpty F = false.
Proof.
  intros Hl Hne. unfold IsEmpty.
  apply negb_false_iff, existsb_exists.
  exists (dim, allowed). split.
  - by apply list_elem_of_In, elem_of_range_map.
  - simpl. destruct allowed; [congruence | reflexivity].
Qed.

Lemma passes_constrained view (F : Filters) j dim (allowed : list string) :
  passes view (buildSets F) j = true ->
  FDimensions F !! dim = Some allowed -> allowed <> [] ->
  ToLower (Dimension view j dim) ∈ ToLower <$> allowed.
Proof.
  intros Hp Hl Hne. unfold passes in Hp.
  rewrite forallb_forall in Hp.
  specialize (Hp (dim, toLowerSet allowed)).
  rewrite <- list_elem_of_In, elem_of_range_map in Hp.
  specialize (Hp (buildSets_constrained F dim allowed Hl Hne)).
  simpl in Hp. apply bool_decide_eq_true in Hp.
  by apply elem_of_toLowerSet in Hp.
Qed.

Lemma ApplyFilters_Len_le view F : Len (ApplyFilters view F) <= Len view.
Proof.
  unfold ApplyFilters.
  destruct (IsEmpty F); [lia|].
  destruct (Nat.eqb _ 0); [lia|]. simpl.
  etransitivity; [apply List.filter_length_le|].
  unfold indices. by rewrite length_seq.
Qed.

End FilterFacts.

(** C1. Filter correctness: the filtered view is no longer than the view it
    was taken from, and every record it retains has, for every dimension that
    the filter set constrains (gives a non-empty allow-list), a lowercased
    value among the lowercased allowed values of that dimension: AND across
    dimensions, OR within one, matching modulo case. *)
Theorem ApplyFilters_correct {rt : GoRuntime} (view : RecordView) (F : Filters) :
  Len (ApplyFilters view F) <= Len view /\
  forall (i : nat) (dim : string) (allowed : list string),
    i < Len (ApplyFilters view F) ->
    FDimensions F !! dim = Some allowed -> allowed <> [] ->
    ToLower (Dimension (ApplyFilters view F) i dim) ∈ ToLower <$> allowed.
Proof.
  split; [apply ApplyFilters_Len_le|].
  intros i dim allowed Hi Hl Hne. revert Hi.
  unfold ApplyFilters.
  rewrite (IsEmpty_false_constrained F dim allowed Hl Hne).
  destruct (Nat.eqb (size (buildSets F)) 0) eqn:Hz.
  { apply Nat.eqb_eq, map_size_empty_iff in Hz.
    pose proof (buildSets_constrained F dim allowed Hl Hne) as Hin.
    rewrite Hz in Hin. by rewrite lookup_empty in Hin. }
  simpl. intros Hi.
  destruct (lookup_lt_is_Some_2 _ _ Hi) as [j Hj]. rewrite Hj.
  apply list_elem_of_lookup_2, list_elem_of_In, filter_In in Hj.
  destruct Hj as [_ Hp].
  by eapply passes_constrained.
Qed.


(** A concrete instance of C1: filtering the sample ledger on
    [category = "expense"] keeps the two expense rows. *)
Lemma ApplyFilters_correct_witness :
  Len (ApplyFilters (rt := asciiRuntime) Samples.ledger Samples.onlyExpense)
  <= Len Samples.ledger /\
  ToLower (Dimension (ApplyFilters (rt := asciiRuntime) Samples.ledger
                                   Samples.onlyExpense) 1 "category")
  ∈ ToLower <$> ["expense"].
Proof.
  destruct (ApplyFilters_correct (rt := asciiRuntime) Samples.ledger
                                 Samples.onlyExpense) as [Hlen Hmem].
  split; [exact Hlen|].
  apply (Hmem 1 "category" ["expense"]).
  - vm_compute. lia.
  - vm_compute. reflexivity.
  - discriminate.
Defined.

Section GroupFacts.
Context {rt : GoRuntime}.

Lemma sort_Slice_singleton {A} (less : A -> A -> bool) (x : A) :
  sort_Slice less [x] = [x].
Proof. apply Permutation_singleton_r, sort_Slice_perm. Qed.

Lemma SortGroups_singleton (g : Group) (sortBy : string) :
  SortGroups [g] sortBy = [g].
Proof.
  unfold SortGroups.
  repeat (destruct (inb sortBy _); [apply sort_Slice_singleton|]).
  reflexivity.
Qed.

Lemma aggregateGroup_Count (g : Group) (measure aggregation : string) :
  Count (aggregateGroup g measure aggregation) = Len (View g).
Proof.
  unfold aggregateGroup. simpl.
  destruct (Nat.eqb (Len (View g)) 0); [reflexivity|].
  repeat (destruct (String.eqb aggregation _); [reflexivity|]).
  reflexivity.
Qed.

Lemma aggregateGroup_View (g : Group) (measure aggregation : string) :
  View (aggregateGroup g measure aggregation) = View g.
Proof.
  unfold aggregateGroup. simpl.
  destruct (Nat.eqb (Len (View g)) 0); [reflexivity|].
  repeat (destruct (String.eqb aggregation _); [reflexivity|]).
  reflexivity.
Qed.

End GroupFacts.

(** C5, as the code has it.  Grouping a non-empty view with zero group-by
    keys yields exactly one group, and the count of that group is the length
    of the view, whatever the measure, aggregation, sort mode and limit. *)
Theorem GroupAndAggregate_no_keys {rt : GoRuntime} (view : RecordView)
    (measure aggregation sortBy : string) (limit : Z) :
  0 < Len view ->
  exists g : Group,
    GroupAndAggregate view [] measure aggregation sortBy limit = [g]
    /\ Count g = Len view.
Proof.
  intros Hpos. unfold GroupAndAggregate.
  destruct (Nat.eqb_spec (Len view) 0) as [Hz|_]; [lia|].
  simpl fmap. rewrite SortGroups_singleton. simpl length.
  destruct ((0 <? limit)%Z && (limit <? Z.of_nat 1)%Z) eqn:Hlim.
  { apply andb_true_iff in Hlim as [H1 H2].
    apply Z.ltb_lt in H1, H2. lia. }
  eexists. split; [reflexivity|].
  unfold setSubGroups. simpl. apply aggregateGroup_Count.
Qed.

Lemma GroupAndAggregate_no_keys_witness :
  0 < Len Samples.ledger /\
  exists g : Group,
    GroupAndAggregate (rt := asciiRuntime) Samples.ledger [] "amount" "sum"
                      "value_desc" 0 = [g]
    /\ Count g = Len Samples.ledger.
Proof.
  assert (H : 0 < Len Samples.ledger) by (vm_compute; lia).
  split; [exact H|].
  exact (GroupAndAggregate_no_keys (rt := asciiRuntime) Samples.ledger
           "amount" "sum" "value_desc" 0 H).
Defined.

(** C5 as stated fails on the empty view: [GroupAndAggregate] returns no
    group at all there. *)
Lemma GroupAndAggregate_no_keys_empty_view :
  ~ (exists g : Group,
       GroupAndAggregate (rt := asciiRuntime) (NewSliceView []) [] "amount"
                         "sum" "" 0 = [g]
       /\ Count g = Len (NewSliceView [])).
Proof. intros (g & Hg & _). vm_compute in Hg. discriminate Hg. Qed.

(** ** Growth *)

Section GrowthFacts.
Context {rt : GoRuntime}.

(** The rows of [view] whose [month] is [m], in row order. *)
Definition rowsOfMonth (view : RecordView) (m : string) (l : list nat) : list nat :=
  List.filter (fun i => String.eqb (Dimension view i "month") m) l.

(** The sum the code accumulates for one month: [0 + v1 + v2 + ...]. *)
Definition sumFrom (view : RecordView) (measure : string) (init : float)
    (js : list nat) : float :=
  foldl (fun t i => PrimFloat.add t (Measure view i measure)) init js.

Definition totalsStep (view : RecordView) (measure : string)
    (totals : gmap string float) (i : nat) : gmap string float :=
  let month := Dimension view i "month" in
  if String.eqb month "" then totals
  else <[month := PrimFloat.add (default 0%float (totals !! month))
                                (Measure view i measure)]> totals.

Lemma totalsStep_foldl_lookup view measure (l : list nat)
    (acc : gmap string float) (m : string) :
  m <> "" ->
  foldl (totalsStep view measure) acc l !! m =
  match rowsOfMonth view m l with
  | [] => acc !! m
  | js => Some (sumFrom view measure (default 0%float (acc !! m)) js)
  end.
Proof.
  intros Hm. revert acc.
  induction l as [|i l IH]; intros acc; [done|].
  cbn [foldl]. rewrite IH.
  unfold rowsOfMonth. cbn [List.filter]. fold (rowsOfMonth view m l).
  unfold totalsStep.
  destruct (String.eqb_spec (Dimension view i "month") "") as [He|Hne].
  - destruct (String.eqb_spec (Dimension view i "month") m) as [Hem|_];
      [congruence|done].
  - destruct (String.eqb_spec (Dimension view i "month") m) as [Hem|Hnm].
    + rewrite Hem. rewrite lookup_insert_eq. cbn [default sumFrom foldl].
      by destruct (rowsOfMonth view m l).
    + by rewrite lookup_insert_ne.
Qed.

Lemma totalsStep_foldl_empty_key view measure (l : list nat)
    (acc : gmap string float) :
  foldl (totalsStep view measure) acc l !! "" = acc !! "".
Proof.
  revert acc. induction l as [|i l IH]; intros acc; simpl; [done|].
  rewrite IH. unfold totalsStep.
  destruct (String.eqb_spec (Dimension view i "month") "") as [He|Hne]; [done|].
  by rewrite lookup_insert_ne.
Qed.

(** [monthTotals] partitions the view by [month] and sums per month. *)
Lemma monthTotals_lookup view measure (m : string) :
  monthTotals view measure !! m =
  match rowsOfMonth view m (indices view) with
  | [] => None
  | js => if String.eqb m "" then None
          else Some (sumFrom view measure 0%float js)
  end.
Proof.
  unfold monthTotals.
  change (foldl (totalsStep view measure) ∅ (indices view) !! m =
          match rowsOfMonth view m (indices view) with
          | [] => None
          | js => if String.eqb m "" then None
                  else Some (sumFrom view measure 0%float js)
          end).
  destruct (String.eqb_spec m "") as [->|Hm].
  - rewrite totalsStep_foldl_empty_key, lookup_empty.
    by destruct (rowsOfMonth view "" (indices view)).
  - rewrite totalsStep_foldl_lookup by done. by rewrite lookup_empty.
Qed.

Definition orderLess (a b : entry) : bool := (Order a <? Order b)%Z.

Lemma orderLess_strict_weak : strict_weak orderLess.
Proof.
  unfold orderLess. repeat split.
  - intros a. apply Z.ltb_irrefl.
  - intros a b c H1 H2. apply Z.ltb_lt in H1, H2. apply Z.ltb_lt. lia.
  - intros a b c H1 H2. apply Z.ltb_ge in H1, H2. apply Z.ltb_ge. lia.
Qed.

Lemma sortedEntries_elem (T : gmap string float) (e : entry) :
  e ∈ sortedEntries T <->
  exists m t, T !! m = Some t /\ e = mkEntry m (ParseMonthOrder m) t.
Proof.
  unfold sortedEntries. rewrite sort_Slice_perm, list_elem_of_fmap.
  split.
  - intros ([m t] & -> & Hin). apply elem_of_range_map in Hin. by exists m, t.
  - intros (m & t & Hl & ->). exists (m, t). split; [done|].
    by apply elem_of_range_map.
Qed.

Lemma sortedEntries_length (T : gmap string float) :
  length (sortedEntries T) = size T.
Proof.
  unfold sortedEntries.
  by rewrite sort_Slice_perm, length_fmap, length_range_map.
Qed.

Lemma sortedEntries_sorted (T : gmap string float) :
  sorted_by orderLess (sortedEntries T).
Proof. apply sort_Slice_sorted, orderLess_strict_weak. Qed.

Lemma sorted_head_min (l : list entry) (e0 e : entry) :
  sorted_by orderLess l -> head l = Some e0 -> e ∈ l ->
  (Order e0 <= Order e)%Z.
Proof.
  intros Hs Hh Hin. destruct l as [|x l]; [done|].
  simpl in Hh. injection Hh as ->.
  apply elem_of_cons in Hin as [->|Hin]; [lia|].
  apply StronglySorted_inv in Hs as [_ Hall].
  rewrite Forall_forall in Hall. apply Hall in Hin.
  unfold orderLess in Hin. by apply Z.ltb_ge in Hin.
Qed.

Lemma sorted_last_max (l : list entry) (e1 e : entry) :
  sorted_by orderLess l -> last l = Some e1 -> e ∈ l ->
  (Order e <= Order e1)%Z.
Proof.
  intros Hs. revert e1 e.
  induction Hs as [|x l Hl IH Hx]; intros e1 e Hlast Hin; [done|].
  destruct l as [|y l'].
  - simpl in Hlast. injection Hlast as ->.
    apply list_elem_of_singleton in Hin as ->. lia.
  - change (last (x :: y :: l')) with (last (y :: l')) in Hlast.
    apply elem_of_cons in Hin as [->|Hin]; [|by apply IH].
    assert (He1 : e1 ∈ y :: l').
    { apply last_Some in Hlast as [l'' ->]. apply elem_of_app. right.
      apply list_elem_of_singleton. done. }
    rewrite Forall_forall in Hx. apply Hx in He1.
    unfold orderLess in He1. by apply Z.ltb_ge in He1.
Qed.

End GrowthFacts.

(** The claim's wording, as functions. *)
Definition changePercentOf (earliest latest : float) : float :=
  if PrimFloat.eqb earliest 0%float then 0%float
  else PrimFloat.mul (PrimFloat.div (PrimFloat.sub latest earliest) earliest)
                     100%float.

Definition directionOf (changePercent : float) : string :=
  if PrimFloat.ltb 0.5%float changePercent then "increased"
  else if PrimFloat.ltb changePercent (-0.5)%float then "decreased"
  else "unchanged".

(** C2, as the code has it.  On a non-empty view, [BuildGrowthText] sums the
    measure per non-empty [month] value.  With fewer than two distinct months
    it returns the total of the view, direction "insufficient data" and a
    change of 0.  Otherwise the growth object takes the totals of a month of
    least and a month of greatest chronological order, change = latest −
    earliest, change percent = change / earliest × 100 (0 when the earliest
    total is zero), and the direction follows the ±0.5 deadband. *)
Theorem BuildGrowthText_spec {rt : GoRuntime} (view : RecordView)
    (measure unit_ : string) :
  0 < Len view ->
  let T := monthTotals view measure in
  let r := BuildGrowthText view measure unit_ in
  (forall m, T !! m =
     match rowsOfMonth view m (indices view) with
     | [] => None
     | js => if String.eqb m "" then None
             else Some (sumFrom view measure 0%float js)
     end)
  /\ (size T < 2 ->
      RawValue r = SumMeasure view measure /\
      exists g, Growth r = Some g
        /\ Direction g = "insufficient data"
        /\ ChangePercent g = 0%float /\ ChangeAmount g = 0%float
        /\ EarliestValue g = SumMeasure view measure
        /\ LatestValue g = SumMeasure view measure)
  /\ (2 <= size T ->
      exists (mE mL : string) (tE tL : float) (g : GrowthData),
        T !! mE = Some tE /\ T !! mL = Some tL
        /\ (forall m, is_Some (T !! m) ->
              (ParseMonthOrder mE <= ParseMonthOrder m <= ParseMonthOrder mL)%Z)
        /\ Growth r = Some g
        /\ EarliestPeriod g = mE /\ LatestPeriod g = mL
        /\ EarliestValue g = tE /\ LatestValue g = tL
        /\ ChangeAmount g = PrimFloat.sub tL tE
        /\ ChangePercent g = changePercentOf tE tL
        /\ Direction g = directionOf (changePercentOf tE tL)
        /\ RawValue r = changePercentOf tE tL).
Proof.
  intros Hpos T r.
  split; [intros m; apply monthTotals_lookup|].
  subst r. unfold BuildGrowthText.
  destruct (Nat.eqb_spec (Len view) 0) as [Hz|_]; [lia|].
  fold T. split.
  - intros Hlt. apply Nat.ltb_lt in Hlt. rewrite Hlt. simpl.
    split; [done|]. eexists. repeat split.
  - intros Hge. apply Nat.ltb_ge in Hge. rewrite Hge.
    apply Nat.ltb_ge in Hge.
    pose proof (sortedEntries_length T) as Hlen.
    destruct (head (sortedEntries T)) as [e0|] eqn:Hh.
    2: { apply head_None in Hh. rewrite Hh in Hlen. simpl in Hlen. lia. }
    destruct (last (sortedEntries T)) as [e1|] eqn:Hl.
    2: { apply last_None in Hl. rewrite Hl in Hlen. simpl in Hlen. lia. }
    assert (H0 : e0 ∈ sortedEntries T).
    { destruct (sortedEntries T); [done|]. simpl in Hh. injection Hh as ->.
      apply elem_of_cons. by left. }
    assert (H1 : e1 ∈ sortedEntries T).
    { apply last_Some in Hl as [l' Hl]. rewrite Hl. apply elem_of_app. right.
      by apply list_elem_of_singleton. }
    pose proof H0 as H0'. pose proof H1 as H1'.
    apply sortedEntries_elem in H0' as (mE & tE & HmE & ->).
    apply sortedEntries_elem in H1' as (mL & tL & HmL & ->).
    simpl.
    exists mE, mL, tE, tL. eexists.
    split; [exact HmE|]. split; [exact HmL|]. split.
    { intros m [t Hm].
      assert (He : mkEntry m (ParseMonthOrder m) t ∈ sortedEntries T).
      { apply sortedEntries_elem. by exists m, t. }
      split.
      - apply (sorted_head_min _ _ _ (sortedEntries_sorted T) Hh He).
      - apply (sorted_last_max _ _ _ (sortedEntries_sorted T) Hl He). }
    split; [reflexivity|]. simpl.
    unfold changePercentOf, directionOf.
    destruct (PrimFloat.eqb tE 0%float); simpl; repeat split.
Qed.

Lemma BuildGrowthText_spec_witness :
  0 < Len Samples.ledger /\
  exists g, Growth (BuildGrowthText (rt := asciiRuntime) Samples.ledger
                                    "amount" "USD") = Some g
            /\ Direction g = "increased".
Proof.
  assert (H : 0 < Len Samples.ledger) by (vm_compute; lia).
  split; [exact H|].
  destruct (BuildGrowthText_spec (rt := asciiRuntime) Samples.ledger
              "amount" "USD" H) as (_ & _ & Hmany).
  destruct Hmany as (mE & mL & tE & tL & g & _ & _ & _ & Hg & _).
  { vm_compute. lia. }
  exists g. split; [exact Hg|].
  vm_compute in Hg. injection Hg as <-. reflexivity.
Defined.

(** C2 as stated fails on the empty view: there [BuildGrowthText] returns a
    "No data" text without any growth object, hence without the direction
    "insufficient data". *)
Lemma BuildGrowthText_empty_view :
  ~ (exists g, Growth (BuildGrowthText (rt := asciiRuntime) (NewSliceView [])
                                       "amount" "USD") = Some g
               /\ Direction g = "insufficient data").
Proof. intros (g & Hg & _). vm_compute in Hg. discriminate Hg. Qed.

(** ** Ratio *)

(** The claim's wording: numerator / denominator × 100, zero when the
    denominator is zero. *)
Definition ratioPercentOf (numSum denomSum : float) : float :=
  if PrimFloat.eqb denomSum 0%float then 0%float
  else PrimFloat.mul (PrimFloat.div numSum denomSum) 100%float.

(** What the code computes: the quotient only for a positive denominator. *)
Definition ratioPercentGuarded (numSum denomSum : float) : float :=
  if PrimFloat.ltb 0%float denomSum
  then PrimFloat.mul (PrimFloat.div numSum denomSum) 100%float
  else 0%float.

(** The ratio object of a result, if it has one. *)
Definition ratioOf (r : Result * error) : option RatioData :=
  match Data (fst r) with
  | Some td => Ratio td
  | None => None
  end.

(** [Execute] hands a ratio query with compare filters on a non-empty view
    to [executeRatio], before any filtering of its own. *)
Lemma Execute_ratio {rt : GoRuntime} (spec : QuerySpec) (compare : Filters)
    (view : RecordView) (opts : list Option_) :
  0 < Len view -> Aggregation spec = "ratio" ->
  CompareFilters spec = Some compare ->
  exists measure,
    Execute spec view opts
    = executeRatio spec compare view measure (applyOptions opts).
Proof.
  intros Hpos Hagg Hcmp. unfold Execute.
  destruct (Nat.eqb_spec (Len view) 0) as [Hz|_]; [lia|].
  rewrite Hagg, Hcmp. simpl String.eqb. cbv iota. eexists. reflexivity.
Qed.

(** A zero denominator is not positive, so the percentage is 0 there. *)
Lemma ratioPercentGuarded_zero (numSum : float) :
  ratioPercentGuarded numSum 0%float = 0%float
  /\ ratioPercentGuarded numSum (-0)%float = 0%float.
Proof. split; reflexivity. Qed.

(** C3, as the code has it.  [executeRatio] filters the view once by the
    primary filters (denominator) and once by the compare filters
    (numerator), sums the measure in each, and reports numerator /
    denominator × 100 when the denominator sum is positive, and 0 otherwise;
    it never fails.  The two filtered sets may overlap, and the percentage
    can exceed 100. *)
Theorem executeRatio_spec :
  (forall (rt : GoRuntime) (spec : QuerySpec) (compare : Filters)
          (view : RecordView) (measure : string) (cfg : config),
     let denomSum := SumMeasure (ApplyFilters view (QFilters spec)) measure in
     let numSum := SumMeasure (ApplyFilters view compare) measure in
     let r := executeRatio spec compare view measure cfg in
     snd r = None /\ Success (fst r) = true /\ RType (fst r) = "text"
     /\ exists td rd,
          Data (fst r) = Some td /\ Ratio td = Some rd
          /\ NumeratorTotal rd = numSum /\ DenominatorTotal rd = denomSum
          /\ Percentage rd = ratioPercentGuarded numSum denomSum
          /\ RawValue td = ratioPercentGuarded numSum denomSum)
  /\ (exists rd,
        ratioOf (executeRatio (rt := asciiRuntime)
                   (Samples.ratioSpec Samples.onlyJanuary Samples.onlyExpense)
                   Samples.onlyExpense Samples.ledger "amount"
                   Samples.noCurrency) = Some rd
        /\ PrimFloat.ltb 100%float (Percentage rd) = true).
Proof.
  split.
  - intros rt spec compare view measure cfg denomSum numSum r.
    subst r. unfold executeRatio. simpl.
    repeat split. eexists. eexists. repeat split.
  - eexists. split; [vm_compute; reflexivity|]. vm_compute. reflexivity.
Qed.

(** C3 as stated fails for a negative denominator sum: the refunds sum to
    -10 and the fees to 5, the claimed percentage is 5 / -10 × 100 = -50, the
    code reports 0. *)
Lemma executeRatio_negative_denominator :
  ~ (forall rd,
       ratioOf (executeRatio (rt := asciiRuntime)
                  (Samples.ratioSpec Samples.onlyRefund Samples.onlyFee)
                  Samples.onlyFee Samples.refunds "amount" Samples.noCurrency)
       = Some rd ->
       Percentage rd
       = ratioPercentOf (NumeratorTotal rd) (DenominatorTotal rd)).
Proof.
  intros H.
  specialize (H _ ltac:(vm_compute; reflexivity)).
  apply (f_equal (fun x => PrimFloat.ltb x 0%float)) in H.
  vm_compute in H. discriminate H.
Qed.

(** ** The executor *)



Section ExecuteFacts.
Context {rt : GoRuntime}.



Definition currencyStep (view : RecordView) (dim : string)
    (cs : gmap string bool) (i : nat) : gmap string bool :=
  let c := Dimension view i dim in
  if String.eqb c "" then cs else <[c := true]> cs.



Lemma elem_of_indices view i : i ∈ indices view <-> i < Len view.
Proof. unfold indices. rewrite elem_of_seq. lia. Qed.





(** Where the rate table has no entry for the empty code, reading through
    the currency view of uncoded records changes nothing. *)
Lemma newCurrencyView_blank parent measure dim base rates (i : nat) (key : string) :
  Dimension parent i dim = "" -> rates !! "" = None ->
  Measure (newCurrencyView parent measure dim base rates) i key
  = Measure parent i key.
Proof.
  intros Hd Hr. simpl. rewrite Hd, Hr.
  destruct (String.eqb key measure); [|reflexivity].
  by destruct (negb _).
Qed.

End ExecuteFacts.









End EngineFacts.

Module DiscoveryFacts.
Import Schema Discovery.

(** ** Identifier columns *)

Section IdentifierFacts.
Context {rt : GoRuntime}.
Variable detectType : list string -> columnType.
Variable detectCurrencyCodes : list string -> bool.
Variable detectTemporalPattern : list string -> bool * string.
Variable toSnakeCase : string -> string.
Variable toDisplayName : string -> string.

(** The trimmed cell of a row in column [idx]. *)
Definition cellAt (idx : nat) (row : list string) : string :=
  TrimSpace (default "" (row !! idx)).

(** The row has a cell in column [idx], and it is not a null marker. *)
Definition present (idx : nat) (row : list string) : bool :=
  match row !! idx with
  | Some cell => negb (isNull (TrimSpace cell))
  | None => false
  end.

Definition valuesStep (idx : nat) (st : list string * nat) (row : list string)
    : list string * nat :=
  match row !! idx with
  | None => (fst st, S (snd st))
  | Some cell =>
      let val := TrimSpace cell in
      if isNull val then (fst st, S (snd st)) else (fst st ++ [val], snd st)
  end.

Lemma valuesStep_foldl_present idx rows (acc : list string) (n : nat) :
  forallb (present idx) rows = true ->
  foldl (valuesStep idx) (acc, n) rows = (acc ++ (cellAt idx <$> rows), n).
Proof.
  revert acc. induction rows as [|row rows IH]; intros acc Hall.
  - by rewrite app_nil_r.
  - cbn [forallb] in Hall. apply andb_true_iff in Hall as [Hrow Hall].
    cbn [foldl]. rewrite fmap_cons.
    assert (Hstep : valuesStep idx (acc, n) row = (acc ++ [cellAt idx row], n)).
    { unfold valuesStep, present, cellAt in *.
      destruct (row !! idx) as [cell|]; [|discriminate]. simpl in *.
      apply negb_true_iff in Hrow. by rewrite Hrow. }
    rewrite Hstep, IH by done. by rewrite <- app_assoc.
Qed.

Lemma columnValues_present idx rows :
  forallb (present idx) rows = true ->
  columnValues idx rows = (cellAt idx <$> rows, 0).
Proof.
  intros H. unfold columnValues.
  change (foldl (valuesStep idx) ([], 0) rows = (cellAt idx <$> rows, 0)).
  by rewrite valuesStep_foldl_present.
Qed.

Lemma uniqueSet_foldl_dom (l : list string) (acc : gmap string bool) :
  dom (foldl (fun (set : gmap string bool) v => <[v := true]> set) acc l)
  = dom acc ∪ list_to_set l.
Proof.
  revert acc. induction l as [|v l IH]; intros acc; simpl.
  - by rewrite (right_id_L ∅ (∪)).
  - rewrite IH, dom_insert_L.
    by rewrite (comm_L (∪) {[v]} (dom acc)), <- (assoc_L (∪)).
Qed.

Lemma uniqueSetOf_size_NoDup (l : list string) :
  NoDup l -> size (uniqueSetOf l) = length l.
Proof.
  intros Hnd. unfold uniqueSetOf.
  rewrite <- size_dom, uniqueSet_foldl_dom, dom_empty_L, (left_id_L ∅ (∪)).
  by apply size_list_to_set.
Qed.

(** A numeric or string column without nulls whose cells are all distinct,
    over more than ten rows, is classified as a skipped identifier. *)
Lemma analyzeColumn_identifier (hdr : string) (idx : nat)
    (rows : list (list string)) :
  10 < length rows ->
  forallb (present idx) rows = true ->
  NoDup (cellAt idx <$> rows) ->
  detectType (cellAt idx <$> rows) = typeNumeric
  \/ detectType (cellAt idx <$> rows) = typeString ->
  let col := analyzeColumn detectType detectCurrencyCodes detectTemporalPattern
               toSnakeCase hdr idx rows (length rows) in
  role col = roleSkipped /\ recoverable col = false
  /\ header col = hdr /\ key col = toSnakeCase hdr.
Proof.
  intros Hlen Hpres Hnd Hty. unfold analyzeColumn.
  rewrite (columnValues_present idx rows Hpres).
  rewrite length_fmap.
  destruct (Nat.eqb_spec (length rows) 0) as [Hz|_]; [lia|].
  rewrite (uniqueSetOf_size_NoDup _ Hnd), length_fmap.
  unfold classifyRole. cbn [colType uniqueCount].
  rewrite Nat.eqb_refl.
  replace (10 <? length rows)%nat with true by (symmetry; by apply Nat.ltb_lt).
  destruct Hty as [-> | ->]; simpl; done.
Qed.

Definition recoverStep (m : gmap string bool) (c : string) : gmap string bool :=
  <[ToLower c := true]> m.

Lemma recoverStep_foldl_notin (l : list string) (acc : gmap string bool) k :
  k ∉ ToLower <$> l -> foldl recoverStep acc l !! k = acc !! k.
Proof.
  revert acc. induction l as [|c l IH]; intros acc Hk; simpl; [done|].
  rewrite fmap_cons, not_elem_of_cons in Hk. destruct Hk as [Hne Hk].
  rewrite IH by done. unfold recoverStep. by rewrite lookup_insert_ne.
Qed.

Definition placeStep (recoverSet : gmap string bool)
    (st : list DimensionMeta * list MeasureMeta * list SkippedColumn)
    (col : columnAnalysis)
    : list DimensionMeta * list MeasureMeta * list SkippedColumn :=
  let '(dimensions, measures, skipped) := st in
  let recovered :=
    default false (recoverSet !! ToLower (header col))
    || default false (recoverSet !! key col) in
  match role col with
  | roleDimension =>
      (dimensions ++ [toDimension toDisplayName col], measures, skipped)
  | roleMeasure => (dimensions, measures ++ [toMeasure toDisplayName col], skipped)
  | roleSkipped =>
      if recovered
      then (dimensions ++ [toDimension toDisplayName col], measures, skipped)
      else (dimensions, measures,
            skipped ++ [mkSkippedColumn (header col) (skipReason col)
                                        (recoverable col)])
  end.

Lemma placeStep_foldl_mono recoverSet columns st (s : SkippedColumn) :
  s ∈ snd st -> s ∈ snd (foldl (placeStep recoverSet) st columns).
Proof.
  revert st. induction columns as [|col columns IH]; intros st Hs; [done|].
  cbn [foldl]. apply IH. destruct st as [[d m] sk]. unfold placeStep.
  destruct (role col); try done.
  destruct (_ || _); [done|]. simpl in *. apply elem_of_app. by left.
Qed.

Lemma placeStep_foldl_skipped recoverSet columns st (col : columnAnalysis) :
  col ∈ columns -> role col = roleSkipped ->
  recoverSet !! ToLower (header col) = None ->
  recoverSet !! key col = None ->
  mkSkippedColumn (header col) (skipReason col) (recoverable col)
  ∈ snd (foldl (placeStep recoverSet) st columns).
Proof.
  intros Hin Hrole Hr1 Hr2. revert st.
  induction columns as [|c columns IH]; intros st.
  - by apply elem_of_nil in Hin.
  - cbn [foldl]. apply elem_of_cons in Hin as [<-|Hin]; [|by apply IH].
    apply placeStep_foldl_mono. destruct st as [[d m] sk].
    unfold placeStep. rewrite Hrole, Hr1, Hr2. simpl.
    apply elem_of_app. right. by apply list_elem_of_singleton.
Qed.

End IdentifierFacts.

(** C7, as the code has it.  During discovery, a column that is detected as
    numeric or string, whose sampled rows (more than ten) all hold a non-null
    value in it, all distinct, and which the caller does not ask to recover,
    is placed in the skipped columns with recoverable = false. *)
Theorem Discover_identifier_skipped {rt : GoRuntime}
    (detectType : list string -> columnType)
    (detectCurrencyCodes : list string -> bool)
    (detectTemporalPattern : list string -> bool * string)
    (toSnakeCase toDisplayName : string -> string)
    (headers : list string) (rows : list (list string))
    (opt : DiscoverOptions) (now : string) (idx : nat) (hdr : string) :
  headers !! idx = Some hdr ->
  10 < length rows ->
  forallb (present idx) rows = true ->
  NoDup (cellAt idx <$> rows) ->
  detectType (cellAt idx <$> rows) = typeNumeric
  \/ detectType (cellAt idx <$> rows) = typeString ->
  ToLower hdr ∉ ToLower <$> RecoverColumns opt ->
  toSnakeCase hdr ∉ ToLower <$> RecoverColumns opt ->
  exists (cfg : Config) (reason : string),
    Discover detectType detectCurrencyCodes detectTemporalPattern toSnakeCase
             toDisplayName headers rows opt now = (Some cfg, None)
    /\ mkSkippedColumn hdr reason false ∈ SkippedColumns cfg.
Proof.
  intros Hhdr Hlen Hpres Hnd Hty Hrec1 Hrec2. unfold Discover.
  destruct (Nat.eqb_spec (length headers) 0) as [Hz|_].
  { apply lookup_lt_Some in Hhdr. lia. }
  destruct (Nat.eqb_spec (length rows) 0) as [Hz|_]; [lia|].
  set (columns := imap _ headers).
  set (recoverSet := foldl _ ∅ (RecoverColumns opt)).
  destruct (analyzeColumn_identifier detectType detectCurrencyCodes
              detectTemporalPattern toSnakeCase hdr idx rows
              Hlen Hpres Hnd Hty) as (Hrole & Hrecov & Hheader & Hkey).
  set (col := analyzeColumn _ _ _ _ hdr idx rows (length rows)) in *.
  assert (Hin : col ∈ columns).
  { apply list_elem_of_lookup. exists idx. subst columns.
    rewrite list_lookup_imap, Hhdr. reflexivity. }
  pose proof (placeStep_foldl_skipped toDisplayName recoverSet columns
                ([], [], []) col Hin Hrole) as Hsk.
  rewrite Hheader, Hkey, Hrecov in Hsk.
  assert (Hr : forall k, k ∉ ToLower <$> RecoverColumns opt ->
                         recoverSet !! k = None).
  { intros k Hk. subst recoverSet.
    change (foldl recoverStep ∅ (RecoverColumns opt) !! k = None).
    by rewrite recoverStep_foldl_notin. }
  specialize (Hsk (Hr _ Hrec1) (Hr _ Hrec2)).
  change (foldl (placeStep toDisplayName recoverSet) ([], [], []) columns)
    with (placeColumns toDisplayName recoverSet columns) in Hsk.
  destruct (placeColumns toDisplayName recoverSet columns) as [[d m] sk].
  eexists. exists (skipReason col). split; [reflexivity|]. exact Hsk.
Qed.

(** Eleven tickets, each with its own number and a shared status. *)
Definition ticketRows : list (list string) :=
  (fun n => ["T-" +:+ pretty n; "open"]) <$> seq 1 11.

Lemma Discover_identifier_skipped_witness :
  exists (cfg : Config) (reason : string),
    Discover (rt := asciiRuntime) (fun _ => typeString) (fun _ => false)
             (fun _ => (false, "")) (ToLower (GoRuntime := asciiRuntime))
             (fun s => s) ["Ticket"; "Status"] ticketRows
             (mkDiscoverOptions 1000 [] "") "2026-01-01T00:00:00Z"
    = (Some cfg, None)
    /\ mkSkippedColumn "Ticket" reason false ∈ SkippedColumns cfg.
Proof.
  apply (Discover_identifier_skipped (rt := asciiRuntime) (fun _ => typeString)
           (fun _ => false) (fun _ => (false, ""))
           (ToLower (GoRuntime := asciiRuntime)) (fun s => s)
           ["Ticket"; "Status"] ticketRows (mkDiscoverOptions 1000 [] "")
           "2026-01-01T00:00:00Z" 0 "Ticket").
  - reflexivity.
  - vm_compute. lia.
  - vm_compute. reflexivity.
  - apply (bool_decide_unpack _). vm_compute. exact I.
  - right. reflexivity.
  - simpl. apply not_elem_of_nil.
  - simpl. apply not_elem_of_nil.
Defined.

(** What [analyzeColumn] hands to [classifyRole] for a column of eleven
    distinct dates. *)
Definition createdColumn : columnAnalysis :=
  mkColumn "Created" "created" 0 typeDate roleDimension "" false
           11 11 0 [] true "" false false "".

(** C7 as stated fails for a date column: eleven rows with eleven distinct
    dates give a temporal dimension, not a skipped column. *)
Lemma classifyRole_distinct_dates :
  ~ (role (classifyRole createdColumn 11) = roleSkipped
     /\ recoverable (classifyRole createdColumn 11) = false).
Proof. intros [H _]. vm_compute in H. discriminate H. Qed.

(** ** Hierarchies *)

Section HierarchyFacts.
Context {rt : GoRuntime}.

(** The (child, parent) pair a row contributes: both cells exist and are
    non-empty once trimmed. *)
Definition pairOf (cIdx pIdx : nat) (row : list string)
    : option (string * string) :=
  match row !! cIdx, row !! pIdx with
  | Some c, Some p =>
      if String.eqb (TrimSpace c) "" || String.eqb (TrimSpace p) "" then None
      else Some (TrimSpace c, TrimSpace p)
  | _, _ => None
  end.

Definition pairsOf (cIdx pIdx : nat) (rows : list (list string))
    : list (string * string) :=
  omap (pairOf cIdx pIdx) rows.

(** Every child value maps to exactly one parent value. *)
Definition functional (pairs : list (string * string)) : Prop :=
  forall c p1 p2, (c, p1) ∈ pairs -> (c, p2) ∈ pairs -> p1 = p2.

(** The distinct child values seen in the pairs. *)
Definition childValues (pairs : list (string * string)) : gset string :=
  list_to_set (pairs.*1).

Definition rowStep (cIdx pIdx : nat) (st : gmap string string * bool)
    (row : list string) : gmap string string * bool :=
  if negb (snd st) then st
  else
    match row !! cIdx, row !! pIdx with
    | Some c, Some p =>
        let child := TrimSpace c in
        let parent := TrimSpace p in
        if String.eqb child "" || String.eqb parent "" then st
        else
          match fst st !! child with
          | Some existing =>
              if String.eqb existing parent then st else (fst st, false)
          | None => (<[child := parent]> (fst st), true)
          end
    | _, _ => st
    end.

Definition scanStep (st : gmap string string * bool) (cp : string * string)
    : gmap string string * bool :=
  if negb (snd st) then st
  else
    match fst st !! fst cp with
    | Some existing =>
        if String.eqb existing (snd cp) then st else (fst st, false)
    | None => (<[fst cp := snd cp]> (fst st), true)
    end.

Lemma rowStep_pairOf cIdx pIdx st row :
  rowStep cIdx pIdx st row
  = match pairOf cIdx pIdx row with
    | Some cp => scanStep st cp
    | None => st
    end.
Proof.
  unfold rowStep, pairOf, scanStep.
  destruct (row !! cIdx) as [c|], (row !! pIdx) as [p|];
    try by destruct (negb (snd st)).
  destruct (String.eqb (TrimSpace c) "" || String.eqb (TrimSpace p) "");
    [by destruct (negb (snd st))|done].
Qed.

Lemma hierarchyScan_pairs rows cIdx pIdx :
  hierarchyScan rows cIdx pIdx
  = foldl scanStep (∅, true) (pairsOf cIdx pIdx rows).
Proof.
  unfold hierarchyScan.
  change (foldl (rowStep cIdx pIdx) (∅, true) rows
          = foldl scanStep (∅, true) (pairsOf cIdx pIdx rows)).
  generalize ((∅, true) : gmap string string * bool).
  induction rows as [|row rows IH]; intros st; [done|].
  cbn [foldl]. rewrite IH, rowStep_pairOf. unfold pairsOf.
  change (omap (pairOf cIdx pIdx) (row :: rows))
    with (match pairOf cIdx pIdx row with
          | Some cp => cp :: omap (pairOf cIdx pIdx) rows
          | None => omap (pairOf cIdx pIdx) rows
          end).
  by destruct (pairOf cIdx pIdx row).
Qed.

Lemma functional_app_l (l : list (string * string)) x :
  functional (l ++ [x]) -> functional l.
Proof.
  intros H c p1 p2 H1 H2.
  apply (H c); apply elem_of_app; by left.
Qed.

(** The scan keeps its flag exactly on functional pairs, and then its map
    is the graph of the pairs. *)
Lemma scan_spec (l : list (string * string)) :
  let r := foldl scanStep (∅, true) l in
  (snd r = true <-> functional l)
  /\ (snd r = true -> forall c p, fst r !! c = Some p <-> (c, p) ∈ l).
Proof.
  induction l as [|[c p] l IH] using rev_ind.
  - simpl. split.
    + split; [|done]. intros _ c p1 p2 H. by apply elem_of_nil in H.
    + intros _ c p. rewrite lookup_empty. split; [done|].
      intros H. by apply elem_of_nil in H.
  - rewrite foldl_app. cbn [foldl].
    destruct IH as [IHf IHm].
    destruct (foldl scanStep (∅, true) l) as [m ok]. simpl in IHf, IHm.
    unfold scanStep. cbn [fst snd].
    destruct ok; cbn [negb].
    2: { simpl. split; [|done]. split; [done|].
         intros Hf. apply functional_app_l in Hf. by apply IHf in Hf. }
    specialize (IHm eq_refl).
    assert (Hfl : functional l) by by apply IHf.
    destruct (m !! c) as [existing|] eqn:Hmc.
    + apply IHm in Hmc.
      destruct (String.eqb_spec existing p) as [->|Hne]; cbn [fst snd].
      * split.
        -- split; [|done]. intros _ c' p1 p2 H1 H2.
           apply elem_of_app in H1 as [H1|H1], H2 as [H2|H2];
             try apply list_elem_of_singleton in H1;
             try apply list_elem_of_singleton in H2;
             simplify_eq; try done; by eapply Hfl.
        -- intros _ c' p'. rewrite IHm, elem_of_app, list_elem_of_singleton.
           split; [by left|]. intros [H|H]; [done|]. by simplify_eq.
      * split; [|done]. split; [done|].
        intros Hf. exfalso. apply Hne. apply (Hf c).
        -- apply elem_of_app. by left.
        -- apply elem_of_app. right. by apply list_elem_of_singleton.
    + cbn [fst snd]. split.
      * split; [|done]. intros _ c' p1 p2 H1 H2.
        apply elem_of_app in H1 as [H1|H1], H2 as [H2|H2];
          try apply list_elem_of_singleton in H1;
          try apply list_elem_of_singleton in H2;
          simplify_eq; try done.
        -- by eapply Hfl.
        -- apply IHm in H1. congruence.
        -- apply IHm in H2. congruence.
      * intros _ c' p'. rewrite elem_of_app, list_elem_of_singleton.
        destruct (decide (c' = c)) as [->|Hne].
        -- rewrite lookup_insert_eq. split.
           ++ intros [= ->]. by right.
           ++ intros [H|H]; [|by simplify_eq].
              apply IHm in H. congruence.
        -- rewrite lookup_insert_ne by done. rewrite IHm.
           split; [by left|]. intros [H|H]; [done|]. by simplify_eq.
Qed.

Lemma hierarchyScan_functional rows cIdx pIdx :
  snd (hierarchyScan rows cIdx pIdx) = true
  <-> functional (pairsOf cIdx pIdx rows).
Proof. rewrite hierarchyScan_pairs. apply scan_spec. Qed.

Lemma hierarchyScan_size rows cIdx pIdx :
  snd (hierarchyScan rows cIdx pIdx) = true ->
  size (fst (hierarchyScan rows cIdx pIdx))
  = size (childValues (pairsOf cIdx pIdx rows)).
Proof.
  rewrite hierarchyScan_pairs. intros Hok.
  destruct (scan_spec (pairsOf cIdx pIdx rows)) as [_ Hm].
  specialize (Hm Hok). rewrite <- size_dom. f_equal.
  apply set_eq. intros c. unfold childValues.
  rewrite elem_of_dom, elem_of_list_to_set, list_elem_of_fmap.
  split.
  - intros [p Hp]. exists (c, p). split; [done|]. by apply Hm.
  - intros ([c' p] & -> & Hin). exists p. by apply Hm.
Qed.

End HierarchyFacts.

Section ParentFacts.
Context {rt : GoRuntime}.

(** Unique count recorded for a dimension key, 0 when there is none. *)
Definition uniquesOf (columns : list columnAnalysis) (k : string) : nat :=
  default 0 (dimUniques columns !! k).

(** Key and unique count of the [j]-th dimension. *)
Definition keyAt (dimensions : list DimensionMeta) (j : nat) : string :=
  default "" (Key <$> dimensions !! j).

Definition uniquesAt (dimensions : list DimensionMeta)
    (columns : list columnAnalysis) (j : nat) : nat :=
  uniquesOf columns (keyAt dimensions j).

(** [j] is a valid parent for the child dimension [i]: another dimension
    backed by a dimension column, with at least one and strictly fewer
    distinct values than the child, on which the child depends functionally
    over the rows, at least two distinct child values being seen. *)
Definition candidate (dimensions : list DimensionMeta)
    (rows : list (list string)) (columns : list columnAnalysis)
    (i childIdx : nat) (childKey : string) (j : nat) : Prop :=
  j <> i /\ j < length dimensions
  /\ exists pIdx,
       dimIndices columns !! keyAt dimensions j = Some pIdx
       /\ 0 < uniquesAt dimensions columns j
       /\ uniquesAt dimensions columns j < uniquesOf columns childKey
       /\ functional (pairsOf childIdx pIdx rows)
       /\ 1 < size (childValues (pairsOf childIdx pIdx rows)).

Definition candidateb (dimensions : list DimensionMeta)
    (rows : list (list string)) (columns : list columnAnalysis)
    (i childIdx : nat) (childKey : string) (j : nat) : bool :=
  negb (Nat.eqb i j) && (j <? length dimensions)%nat
  && match dimIndices columns !! keyAt dimensions j with
     | Some pIdx =>
         (0 <? uniquesAt dimensions columns j)%nat
         && (uniquesAt dimensions columns j <? uniquesOf columns childKey)%nat
         && snd (hierarchyScan rows childIdx pIdx)
         && (1 <? size (fst (hierarchyScan rows childIdx pIdx)))%nat
     | None => false
     end.

Lemma candidateb_spec dimensions rows columns i childIdx childKey j :
  candidateb dimensions rows columns i childIdx childKey j = true
  <-> candidate dimensions rows columns i childIdx childKey j.
Proof.
  unfold candidateb, candidate.
  rewrite !andb_true_iff, negb_true_iff, Nat.eqb_neq, Nat.ltb_lt.
  destruct (dimIndices columns !! keyAt dimensions j) as [pIdx|].
  - rewrite !andb_true_iff, !Nat.ltb_lt. split.
    + intros [[Hne Hlt] [[[Hu0 Hu] Hok] Hsz]].
      split; [congruence|]. split; [done|]. exists pIdx.
      rewrite hierarchyScan_size in Hsz by done.
      apply hierarchyScan_functional in Hok. done.
    + intros (Hne & Hlt & pIdx' & [= <-] & Hu0 & Hu & Hf & Hsz).
      apply hierarchyScan_functional in Hf.
      rewrite hierarchyScan_size by done. repeat split; (done || congruence).
  - split; [intros [_ [=]]|]. intros (_ & _ & pIdx & [=] & _).
Qed.

Lemma parentStep_candidateb dimensions rows columns i childIdx childKey best j :
  parentStep dimensions rows columns i childIdx childKey best j
  = if candidateb dimensions rows columns i childIdx childKey j
       && (snd best <? uniquesAt dimensions columns j)%nat
    then (keyAt dimensions j, uniquesAt dimensions columns j) else best.
Proof.
  unfold parentStep, candidateb, uniquesAt, uniquesOf, keyAt.
  destruct (Nat.eqb i j); [done|]. cbn [negb andb].
  destruct (dimensions !! j) as [dj|] eqn:Hj.
  2: { apply lookup_ge_None in Hj.
       replace (j <? length dimensions)%nat with false
         by (symmetry; apply Nat.ltb_ge; lia). done. }
  apply lookup_lt_Some in Hj.
  replace (j <? length dimensions)%nat with true
    by (symmetry; apply Nat.ltb_lt; lia).
  cbn [fmap option_fmap option_map default from_option andb].
  change (id (Key dj)) with (Key dj).
  destruct (dimIndices columns !! Key dj) as [pIdx|]; [|done].
  set (pu := default 0 (dimUniques columns !! Key dj)).
  set (cu := default 0 (dimUniques columns !! childKey)).
  destruct (hierarchyScan rows childIdx pIdx) as [m ok]. cbn [fst snd].
  destruct (Nat.leb_spec cu pu) as [Hle|Hlt].
  - replace (pu <? cu)%nat with false by (symmetry; apply Nat.ltb_ge; lia).
    by rewrite andb_false_r.
  - replace (pu <? cu)%nat with true by (symmetry; apply Nat.ltb_lt; lia).
    destruct (Nat.ltb_spec 0 pu) as [H0|H0]; cbn [andb].
    + done.
    + replace (snd best <? pu)%nat with false
        by (symmetry; apply Nat.ltb_ge; lia).
      by rewrite !andb_false_r.
Qed.

Lemma foldl_pointwise {A B} (f g : A -> B -> A) (a : A) (l : list B) :
  (forall a x, f a x = g a x) -> foldl f a l = foldl g a l.
Proof.
  intros H. revert a. induction l as [|x l IH]; intros a; [done|].
  cbn [foldl]. by rewrite H, IH.
Qed.

(** A left-to-right scan that keeps the first candidate of greatest
    weight. *)
Lemma argmax_scan (cand : nat -> bool) (u : nat -> nat) (k : nat -> string)
    (n : nat) :
  (forall j, cand j = true -> 0 < u j) ->
  let best :=
    foldl (fun (best : string * nat) j =>
             if cand j && (snd best <? u j)%nat then (k j, u j) else best)
          ("", 0) (seq 0 n) in
  ((forall j, j < n -> cand j = false) /\ best = ("", 0))
  \/ (exists j, j < n /\ cand j = true /\ best = (k j, u j)
        /\ (forall j', j' < n -> cand j' = true -> u j' <= u j)
        /\ (forall j', j' < j -> cand j' = true -> u j' < u j)).
Proof.
  intros Hpos. induction n as [|n IH]; cbn zeta.
  - left. split; [lia|done].
  - rewrite seq_S, foldl_app. cbn [foldl Nat.add].
    cbn zeta in IH.
    destruct IH as [[Hnone ->]|(j & Hj & Hc & -> & Hmax & Hfirst)];
      cbn [snd].
    + destruct (cand n) eqn:Hcn; cbn [andb].
      * pose proof (Hpos n Hcn) as Hn.
        replace (0 <? u n)%nat with true by (symmetry; apply Nat.ltb_lt; lia).
        right. exists n. repeat split; [lia|done|..].
        -- intros j' Hj' Hc'. destruct (decide (j' = n)) as [->|]; [lia|].
           rewrite Hnone in Hc' by lia. done.
        -- intros j' Hj' Hc'. rewrite Hnone in Hc' by lia. done.
      * left. split; [|done]. intros j' Hj'.
        destruct (decide (j' = n)) as [->|]; [done|]. apply Hnone. lia.
    + destruct (cand n) eqn:Hcn; cbn [andb].
      * destruct (Nat.ltb_spec (u j) (u n)) as [Hlt|Hge].
        -- right. exists n. repeat split; [lia|done|..].
           ++ intros j' Hj' Hc'. destruct (decide (j' = n)) as [->|]; [lia|].
              specialize (Hmax j' ltac:(lia) Hc'). lia.
           ++ intros j' Hj' Hc'. specialize (Hmax j' Hj' Hc'). lia.
        -- right. exists j. repeat split; [lia|done|..|done].
           intros j' Hj' Hc'. destruct (decide (j' = n)) as [->|]; [lia|].
           apply Hmax; [lia|done].
      * right. exists j. repeat split; [lia|done|..|done].
        intros j' Hj' Hc'. destruct (decide (j' = n)) as [->|]; [congruence|].
        apply Hmax; [lia|done].
Qed.

End ParentFacts.


(** *** Sample tables *)

Definition dimOf (key : string) (samples : list string) : DimensionMeta :=
  mkDimensionMeta key key "" samples true true "" false "" "chronological"
                  false "low" "" "".

Definition colOf (hdr : string) (idx uniques total : nat) : columnAnalysis :=
  mkColumn hdr hdr idx typeString roleDimension "" false uniques total 0 []
           false "" false false "low".

(** Two categories over five fields. *)
Definition financeRows : list (list string) :=
  [ ["Income"; "Salary"]; ["Expense"; "Rent"]; ["Expense"; "Groceries"];
    ["Expense"; "Transport"]; ["Income"; "Rental Income"];
    ["Expense"; "Rent"] ].

Definition financeDims : list DimensionMeta :=
  [ dimOf "category" ["Expense"; "Income"];
    dimOf "field" ["Groceries"; "Rent"; "Rental Income"; "Salary"; "Transport"] ].

Definition financeCols : list columnAnalysis :=
  [ colOf "category" 0 2 6; colOf "field" 1 5 6 ].






End DiscoveryFacts.

Module RefineFacts.
Import Schema Refine.

(** ** The store discipline of refinement *)

Definition sliceRef (s : slice) : list loc := option_list (base s).

(** The locations an object points to. *)
Definition refs (c : cell) : list loc :=
  match c with
  | CConfig c =>
      sliceRef (Dimensions c) ++ sliceRef (Measures c)
      ++ sliceRef (SkippedColumns c) ++ option_list (Currency c)
  | CDims l => l ≫= (fun d => sliceRef (SampleValues d))
  | CMeasures l => l ≫= (fun m => sliceRef (Aggregations m))
  | CCurrency c => option_list (Rates c)
  | CSkipped _ | CStrings _ | CRates _ => []
  end.



(** An object that points to new locations only, [D] being the old ones. *)
Definition okCell (D : gset loc) (c : cell) : Prop :=
  Forall (fun l => l ∉ D) (refs c).

(** The invariant of a call that started in [h0]: the old objects are all
    there, unchanged, and the new objects point to new objects only. *)
Definition Inv (h0 h : heap) : Prop :=
  h0 ⊆ h
  /\ forall l c, l ∉ dom h0 -> h !! l = Some c -> okCell (dom h0) c.

(** [m] keeps the invariant and its result satisfies [Q]. *)
Definition pres (h0 : heap) {A} (m : M A) (Q : A -> Prop) : Prop :=
  forall h, Inv h0 h -> Inv h0 (snd (m h)) /\ Q (fst (m h)).

(** [m] only reads the store. *)
Definition reader {A} (m : M A) : Prop := forall h, snd (m h) = h.

Section StoreFacts.
Variable h0 : heap.


Lemma Inv_insert (h : heap) (l : loc) (c : cell) :
  Inv h0 h -> l ∉ dom h0 -> okCell (dom h0) c -> Inv h0 (<[l := c]> h).
Proof.
  intros [Hsub Hcl] Hl Hc. split.
  - apply insert_subseteq_r; [|done]. by apply not_elem_of_dom.
  - intros l' c' Hl' Hc'. destruct (decide (l' = l)) as [->|Hne].
    + rewrite lookup_insert_eq in Hc'. by injection Hc' as <-.
    + rewrite lookup_insert_ne in Hc' by done. by eapply Hcl.
Qed.




Lemma pres_weaken {A} (m : M A) (Q1 Q2 : A -> Prop) :
  pres h0 m Q1 -> (forall a, Q1 a -> Q2 a) -> pres h0 m Q2.
Proof. intros Hm HQ h Hinv. destruct (Hm h Hinv). split; auto. Qed.


Lemma pres_modify (l : loc) (f : cell -> cell) :
  l ∉ dom h0 ->
  (forall c, okCell (dom h0) c -> okCell (dom h0) (f c)) ->
  pres h0 (modify l f) (fun _ => True).
Proof.
  intros Hl Hf h Hinv. unfold modify. cbn [fst snd]. split; [|done].
  destruct (h !! l) as [c|] eqn:Hc; [|done].
  apply Inv_insert; [done..|]. apply Hf. destruct Hinv as [_ Hcl].
  by eapply Hcl.
Qed.





End StoreFacts.

(** ** Objects that stay new *)

Section CellFacts.
Variable D : gset loc.



















(** Stores of plain data. *)
Lemma okCell_same_refs (c c' : cell) :
  refs c' = refs c -> okCell D c -> okCell D c'.
Proof. intros Hr Hc. unfold okCell. by rewrite Hr. Qed.

End CellFacts.

(** ** Readers *)

Lemma reader_ret {A} (a : A) : reader (ret a).
Proof. by intros h. Qed.

Lemma reader_bind {A B} (m : M A) (k : A -> M B) :
  reader m -> (forall a, reader (k a)) -> reader (bind m k).
Proof.
  intros Hm Hk h. unfold bind. specialize (Hm h).
  destruct (m h) as [a h1]. cbn [snd] in Hm. subst h1. apply Hk.
Qed.

Lemma reader_getConfig l : reader (getConfig l).
Proof. by intros h. Qed.
Lemma reader_getDims s : reader (getDims s).
Proof. by intros h. Qed.
Lemma reader_getMeasures s : reader (getMeasures s).
Proof. by intros h. Qed.
Lemma reader_getSkipped s : reader (getSkipped s).
Proof. by intros h. Qed.
Lemma reader_getStrings s : reader (getStrings s).
Proof. by intros h. Qed.
Lemma reader_getCurrency l : reader (getCurrency l).
Proof. by intros h. Qed.
Lemma reader_getRates r : reader (getRates r).
Proof. by intros h. Qed.

(** Building the payload reads the draft and writes nothing. *)
Lemma reader_buildRefinePayload (draft : loc) : reader (buildRefinePayload draft).
Proof.
  unfold buildRefinePayload.
  apply reader_bind; [apply reader_getConfig|]. intros d.
  apply reader_bind; [apply reader_getDims|]. intros dims.
  apply reader_bind; [apply reader_getMeasures|]. intros meas.
  apply reader_bind; [apply reader_getSkipped|]. intros skipped.
  apply reader_bind.
  { destruct (Currency d); [|apply reader_ret].
    apply reader_bind; [apply reader_getCurrency|]. intros c. apply reader_ret. }
  intros hasCurrency.
  apply reader_bind; [|intros cols; apply reader_ret].
  induction dims as [|dm dims IH]; cbn [foldr]; [apply reader_ret|].
  apply reader_bind; [apply reader_getStrings|]. intros samples.
  apply reader_bind; [exact IH|]. intros cols. apply reader_ret.
Qed.

(** ** The copy and the merge keep the invariant *)

(** A store that changes no pointer. *)
Ltac plain :=
  let c := fresh "c" in
  let Hc := fresh "Hc" in
  intros c Hc; refine (okCell_same_refs _ _ _ _ Hc); by destruct c.



Section CopyFacts.
Context {rt : GoRuntime}.
Variable h0 : heap.


Lemma pres_copyStrings (arr : loc) (vals : list string) :
  arr ∉ dom h0 -> pres h0 (copyStrings arr vals) (fun _ => True).
Proof.
  intros Ha. apply pres_modify; [done|].
  plain.
Qed.












End CopyFacts.



(** *** A draft in a store *)

Definition sampleStore : heap :=
  <[1%positive := CConfig (mkConfig "Draft" "1.0" ""
                             (mkSlice (Some 2%positive) 1)
                             (mkSlice (Some 4%positive) 1)
                             (Some 6%positive) "CSV" "" (mkSlice None 0) "" "")]>
  (<[2%positive := CDims [mkDimensionMeta "status" "status" ""
                            (mkSlice (Some 3%positive) 2) true true ""
                            false "" "chronological" false "low" "" ""]]>
   (<[3%positive := CStrings ["Done"; "Open"]]>
    (<[4%positive := CMeasures [mkMeasureMeta "points" "points" "" "" false
                                  false (mkSlice (Some 5%positive) 1) "sum" ""]]>
     (<[5%positive := CStrings ["sum"]]>
      (<[6%positive := CCurrency (mkCurrencyConfig true "currency" "USD"
                                    (Some 7%positive))]>
       {[ 7%positive := CRates {[ "EUR" := 1.25%float ]} ]}))))).

Definition sampleEnrichment : refineEnrichment :=
  mkRefineEnrichment "Sprint board" ""
    [mkColumnEnrichment "status" "Status" "Workflow state" "" "" "";
     mkColumnEnrichment "points" "Story Points" "" "points" "" "avg"]
    [] [].


(** The sample draft after a successful refinement: the copy carries the
    suggested names, the draft keeps its own. *)
Example Refine_merge_example :
  let out :=
    Refine (rt := asciiRuntime) (fun _ _ => ("{}", None)) (fun _ => "")
           (fun _ => (Some sampleEnrichment, None)) "2026-01-01T00:00:00Z"
           "" "" (Some 1%positive) (mkRefineConfig "key" "" "") sampleStore in
  fst out = (Some 8%positive, None)
  /\ Name <$> (fst <$> Some (getConfig 8%positive (snd out))) = Some "Sprint board"
  /\ fst (getConfig 1%positive (snd out)) = fst (getConfig 1%positive sampleStore)
  /\ DisplayName <$> fst (getDims (mkSlice (Some 9%positive) 1) (snd out))
     = ["Status"]
  /\ fst (getStrings (mkSlice (Some 10%positive) 2) (snd out)) = ["Done"; "Open"].
Proof. vm_compute. repeat split; reflexivity. Qed.

End RefineFacts.

(** * The orders handed to [sort.Slice] and [sort.Strings] *)

Module OrderFacts.

Lemma ascii_compare_lt (a b : ascii) :
  Ascii.compare a b = Lt <-> (N_of_ascii a < N_of_ascii b)%N.
Proof. unfold Ascii.compare. apply N.compare_lt_iff. Qed.

Lemma ascii_compare_eq (a b : ascii) : Ascii.compare a b = Eq <-> a = b.
Proof.
  split; [apply Ascii.compare_eq_iff|].
  intros ->. unfold Ascii.compare. apply N.compare_refl.
Qed.

Lemma string_compare_refl (s : string) : String.compare s s = Eq.
Proof.
  induction s as [|c s IH]; [done|]. simpl.
  by rewrite (proj2 (ascii_compare_eq c c)).
Qed.

Lemma string_compare_trans (a b c : string) :
  String.compare a b = Lt -> String.compare b c = Lt ->
  String.compare a c = Lt.
Proof.
  revert b c. induction a as [|x a IH]; intros [|y b] [|z c]; simpl;
    try discriminate; try reflexivity.
  destruct (Ascii.compare x y) eqn:Hxy; try discriminate;
    destruct (Ascii.compare y z) eqn:Hyz; try discriminate; intros H1 H2.
  - apply ascii_compare_eq in Hxy, Hyz. subst.
    rewrite (proj2 (ascii_compare_eq z z)) by done. by apply (IH b c).
  - apply ascii_compare_eq in Hxy. subst. by rewrite Hyz.
  - apply ascii_compare_eq in Hyz. subst. by rewrite Hxy.
  - apply ascii_compare_lt in Hxy. apply ascii_compare_lt in Hyz.
    rewrite (proj2 (ascii_compare_lt x z)); [done|].
    by apply (N.lt_trans _ (N_of_ascii y)).
Qed.

Lemma string_ltb_lt (a b : string) :
  String.ltb a b = true <-> String.compare a b = Lt.
Proof. unfold String.ltb. destruct (String.compare a b); split; done. Qed.

(** Bytewise [<] on strings is a strict weak order. *)
Lemma string_ltb_strict_weak : strict_weak String.ltb.
Proof.
  split_and!.
  - intros a. unfold String.ltb. by rewrite string_compare_refl.
  - intros a b c. rewrite !string_ltb_lt. apply string_compare_trans.
  - intros a b c Hab Hbc.
    destruct (String.ltb a c) eqn:Hac; [|done].
    apply string_ltb_lt in Hac.
    assert (Hab' : String.compare a b <> Lt)
      by (intros H; apply string_ltb_lt in H; congruence).
    assert (Hbc' : String.compare b c <> Lt)
      by (intros H; apply string_ltb_lt in H; congruence).
    destruct (String.compare a b) eqn:E1; [|done|].
    + apply String.compare_eq_iff in E1. subst. done.
    + destruct (String.compare b c) eqn:E2; [|done|].
      * apply String.compare_eq_iff in E2. subst. congruence.
      * exfalso.
        assert (Hcb : String.compare c b = Lt)
          by (rewrite String.compare_antisym, E2; done).
        assert (Hba : String.compare b a = Lt)
          by (rewrite String.compare_antisym, E1; done).
        pose proof (string_compare_trans _ _ _ Hcb Hba) as Hca.
        rewrite String.compare_antisym, Hac in Hca. done.
Qed.

Lemma Z_ltb_strict_weak : strict_weak Z.ltb.
Proof.
  split_and!.
  - intros a. apply Z.ltb_irrefl.
  - intros a b c H1 H2. apply Z.ltb_lt in H1, H2. apply Z.ltb_lt. lia.
  - intros a b c H1 H2. apply Z.ltb_ge in H1, H2. apply Z.ltb_ge. lia.
Qed.

(** Comparing by a key, and comparing downwards, keep a strict weak
    order. *)
Lemma strict_weak_on {A B} (less : B -> B -> bool) (key : A -> B) :
  strict_weak less -> strict_weak (fun a b => less (key a) (key b)).
Proof.
  intros (H1 & H2 & H3). split_and!.
  - intros a. apply H1.
  - intros a b c. apply H2.
  - intros a b c. apply H3.
Qed.

Lemma strict_weak_flip {A} (less : A -> A -> bool) :
  strict_weak less -> strict_weak (fun a b => less b a).
Proof.
  intros (H1 & H2 & H3). split_and!.
  - intros a. apply H1.
  - intros a b c Hab Hbc. by apply (H2 c b a).
  - intros a b c Hab Hbc. by apply (H3 c b a).
Qed.

Lemma StronglySorted_weaken {A} (R R' : A -> A -> Prop) (l : list A) :
  (forall a b, R a b -> R' a b) -> StronglySorted R l -> StronglySorted R' l.
Proof.
  intros HR. induction 1 as [|a l Hs IH Hall]; constructor; [done|].
  eapply List.Forall_impl; [|exact Hall]. intros b. apply HR.
Qed.

End OrderFacts.

(** * Further properties of the engine *)

Module EngineExtras.
Import Engine.

Section ViewExtras.
Context {rt : GoRuntime}.

(** Two views read the same: equal length and key lists, and equal cells at
    every index, in range or not. *)
Definition same_view (a b : RecordView) : Prop :=
  Len a = Len b /\
  DimensionKeys a = DimensionKeys b /\
  MeasureKeys a = MeasureKeys b /\
  forall (i : nat) (key : string),
    Dimension a i key = Dimension b i key /\
    Measure a i key = Measure b i key.

Lemma filter_seq_all (p : nat -> bool) (n : nat) :
  (forall j, j < n -> p j = true) -> List.filter p (seq 0 n) = seq 0 n.
Proof.
  intros Hp. apply forallb_filter_id, forallb_forall.
  intros j Hj. apply in_seq in Hj. apply Hp. lia.
Qed.

Lemma newSubView_all (view : RecordView) (idx : list nat) :
  same_view (newSubView (newSubView view idx) (seq 0 (length idx)))
            (newSubView view idx).
Proof.
  repeat split; simpl; try by rewrite length_seq.
  - destruct (decide (i < length idx)) as [Hi|Hi].
    + by rewrite lookup_seq_lt.
    + rewrite lookup_seq_ge by lia.
      by rewrite (proj2 (lookup_ge_None idx i)) by lia.
  - destruct (decide (i < length idx)) as [Hi|Hi].
    + by rewrite lookup_seq_lt.
    + rewrite lookup_seq_ge by lia.
      by rewrite (proj2 (lookup_ge_None idx i)) by lia.
Qed.

Lemma same_view_refl (a : RecordView) : same_view a a.
Proof. by repeat split. Qed.

Lemma passes_newSubView (view : RecordView) (idx : list nat)
    (sets : gmap string (gset string)) (j i : nat) :
  idx !! j = Some i ->
  passes (newSubView view idx) sets j = passes view sets i.
Proof. intros Hj. unfold passes. simpl. by rewrite Hj. Qed.

End ViewExtras.

(** X1. Filtering is idempotent: applying the same filter set to an already
    filtered view keeps every row, so the result reads exactly like the view
    filtered once (same length, same keys, same cells at every index). *)
Theorem ApplyFilters_idempotent {rt : GoRuntime} (view : RecordView)
    (F : Filters) :
  same_view (ApplyFilters (ApplyFilters view F) F) (ApplyFilters view F).
Proof.
  unfold ApplyFilters.
  destruct (IsEmpty F); [apply same_view_refl|].
  destruct (Nat.eqb (size (buildSets F)) 0); [apply same_view_refl|].
  set (idx := List.filter (passes view (buildSets F)) (indices view)).
  assert (Hall : List.filter (passes (newSubView view idx) (buildSets F))
                             (indices (newSubView view idx))
                 = seq 0 (length idx)).
  { unfold indices at 1. simpl. apply filter_seq_all. intros j Hj.
    destruct (lookup_lt_is_Some_2 idx j Hj) as [i Hi].
    rewrite (passes_newSubView view idx _ j i Hi).
    apply list_elem_of_lookup_2, list_elem_of_In in Hi.
    subst idx. by apply filter_In in Hi as [_ Hp]. }
  rewrite Hall. apply newSubView_all.
Qed.

(** X2. Currency normalisation never converts twice: wrapping an already
    normalised view in a second currency view with the same measure,
    currency dimension, base currency and rate table changes no cell. *)
Theorem newCurrencyView_idempotent {rt : GoRuntime} (parent : RecordView)
    (measure dimension baseCurrency : string) (rates : gmap string float) :
  same_view
    (newCurrencyView
       (newCurrencyView parent measure dimension baseCurrency rates)
       measure dimension baseCurrency rates)
    (newCurrencyView parent measure dimension baseCurrency rates).
Proof.
  repeat split; simpl.
  - destruct (String.eqb key dimension) eqn:Hk; [|reflexivity].
    destruct (String.eqb (Dimension parent i key) baseCurrency) eqn:Hb; simpl.
    + by rewrite Hb.
    + destruct (rates !! Dimension parent i key) eqn:Hr.
      * by rewrite String.eqb_refl.
      * by rewrite Hb, Hr.
  - destruct (String.eqb key measure) eqn:Hk; [|reflexivity].
    rewrite String.eqb_refl.
    destruct (String.eqb (Dimension parent i dimension) baseCurrency) eqn:Hb;
      simpl.
    + by rewrite Hb.
    + destruct (rates !! Dimension parent i dimension) as [rate|] eqn:Hr.
      * by rewrite String.eqb_refl.
      * by rewrite Hb, Hr.
Qed.

Section KeyExtras.
Context {rt : GoRuntime}.

Definition keyStep (acc : list string) (k : string) : list string :=
  if bool_decide (k ∈ acc) then acc else acc ++ [k].

Lemma keyStep_foldl (ks acc : list string) :
  NoDup acc ->
  NoDup (foldl keyStep acc ks) /\
  forall k, k ∈ foldl keyStep acc ks <-> k ∈ acc \/ k ∈ ks.
Proof.
  revert acc. induction ks as [|x ks IH]; intros acc Hnd; simpl.
  - split; [done|]. intros k. rewrite elem_of_nil. tauto.
  - assert (Hnd' : NoDup (keyStep acc x)).
    { unfold keyStep. case_bool_decide; [done|].
      apply NoDup_app. split_and!; [done| |apply NoDup_singleton].
      intros y Hy Hy'. apply list_elem_of_singleton in Hy'. by subst. }
    destruct (IH _ Hnd') as [H1 H2]. split; [done|].
    intros k. rewrite H2, elem_of_cons. unfold keyStep.
    case_bool_decide as Hx.
    + split; [intros [?|?]; auto|intros [?|[ -> |?]]; auto].
    + rewrite elem_of_app, list_elem_of_singleton. tauto.
Qed.

Lemma cacheKeys_spec {V} (maps : list (gmap string V)) :
  NoDup (cacheKeys maps) /\
  forall k, k ∈ cacheKeys maps <-> exists m, m ∈ maps /\ is_Some (m !! k).
Proof.
  unfold cacheKeys.
  change (fun (acc : list string) (k : string) =>
            if bool_decide (k ∈ acc) then acc else acc ++ [k]) with keyStep.
  assert (Hgen : forall acc, NoDup acc ->
    NoDup (foldl (fun (acc : list string) (m : gmap string V) =>
                    foldl keyStep acc (fst <$> range_map m)) acc maps) /\
    forall k,
      k ∈ foldl (fun (acc : list string) (m : gmap string V) =>
                   foldl keyStep acc (fst <$> range_map m)) acc maps
      <-> k ∈ acc \/ exists m, m ∈ maps /\ is_Some (m !! k)).
  { induction maps as [|m maps IH]; intros acc Hnd; simpl.
    - split; [done|]. intros k. split; [auto|].
      intros [?|(m & Hm & _)]; [done|]. by apply elem_of_nil in Hm.
    - destruct (keyStep_foldl (fst <$> range_map m) acc Hnd) as [H1 H2].
      destruct (IH _ H1) as [H3 H4]. split; [done|].
      intros k. rewrite H4, H2.
      assert (Hk : k ∈ (range_map m).*1 <-> is_Some (m !! k)).
      { rewrite list_elem_of_fmap. split.
        - intros ([k' v] & -> & Hin). simpl.
          apply EngineFacts.elem_of_range_map in Hin. by eexists.
        - intros [v Hv]. exists (k, v). split; [done|].
          by apply EngineFacts.elem_of_range_map. }
      rewrite Hk. split.
      + intros [[?|Hs]|(m' & Hm' & Hs)]; [by left| |].
        * right. exists m. split; [apply elem_of_cons; by left|done].
        * right. exists m'. split; [apply elem_of_cons; by right|done].
      + intros [?|(m' & Hm' & Hs)]; [by left; left|].
        apply elem_of_cons in Hm' as [ -> |Hm'].
        * left. by right.
        * right. by exists m'. }
  destruct (Hgen [] (NoDup_nil_2)) as [H1 H2]. split; [done|].
  intros k. rewrite H2, elem_of_nil. tauto.
Qed.

End KeyExtras.

(** X3. The key lists cached by [NewSliceView] hold each key once, and a key
    is listed exactly when some record carries it, for dimensions and for
    measures alike; no record gives empty lists. *)
Theorem NewSliceView_keys {rt : GoRuntime} (records : list Record_) :
  NoDup (DimensionKeys (NewSliceView records)) /\
  NoDup (MeasureKeys (NewSliceView records)) /\
  (forall k, k ∈ DimensionKeys (NewSliceView records)
             <-> exists r, r ∈ records /\ is_Some (Dimensions r !! k)) /\
  (forall k, k ∈ MeasureKeys (NewSliceView records)
             <-> exists r, r ∈ records /\ is_Some (Measures r !! k)).
Proof.
  simpl.
  destruct (cacheKeys_spec (Dimensions <$> records)) as [D1 D2].
  destruct (cacheKeys_spec (Measures <$> records)) as [M1 M2].
  split_and!; [done|done| |].
  - intros k. rewrite D2. split.
    + intros (m & Hm & Hs). apply list_elem_of_fmap in Hm as (r & -> & Hr).
      by exists r.
    + intros (r & Hr & Hs). exists (Dimensions r). split; [|done].
      apply list_elem_of_fmap. by exists r.
  - intros k. rewrite M2. split.
    + intros (m & Hm & Hs). apply list_elem_of_fmap in Hm as (r & -> & Hr).
      by exists r.
    + intros (r & Hr & Hs). exists (Measures r). split; [|done].
      apply list_elem_of_fmap. by exists r.
Qed.

(** ** Typed views and concatenation *)

Section AdapterExtras.
Context {rt : GoRuntime}.

(** The record a typed value stands for: every accessor applied. *)
Definition recordOf {T : Type} (dims : gmap string (T -> string))
    (meas : gmap string (T -> float)) (x : T) : Record_ :=
  mkRecord ((fun fn => fn x) <$> dims) ((fun fn => fn x) <$> meas).

Lemma filter_seq_app (p : nat -> bool) (n m : nat) :
  List.filter p (seq 0 (n + m))
  = List.filter p (seq 0 n)
    ++ ((fun j => n + j) <$> List.filter (fun j => p (n + j)) (seq 0 m)).
Proof.
  rewrite seq_app, List.filter_app. f_equal. cbn [Nat.add].
  replace (seq n m) with (Nat.add n <$> seq 0 m)
    by (rewrite fmap_add_seq; f_equal; lia).
  induction (seq 0 m) as [|j l IH]; [done|].
  cbn [fmap list_fmap List.filter]. destruct (p (n + j)); cbn; by rewrite IH.
Qed.

Lemma passes_concat (a b : RecordView) (sets : gmap string (gset string))
    (i : nat) :
  passes (newConcatView a b) sets i
  = if Nat.ltb i (Len a) then passes a sets i else passes b sets (i - Len a).
Proof. unfold passes. simpl. by destruct (Nat.ltb i (Len a)). Qed.

Lemma filter_passes_concat (a b : RecordView)
    (sets : gmap string (gset string)) :
  List.filter (passes (newConcatView a b) sets) (indices (newConcatView a b))
  = List.filter (passes a sets) (indices a)
    ++ ((fun j => Len a + j) <$> List.filter (passes b sets) (indices b)).
Proof.
  unfold indices. cbn [Len newConcatView]. rewrite filter_seq_app. f_equal.
  - apply List.filter_ext_in. intros i Hi. apply in_seq in Hi.
    rewrite passes_concat.
    by rewrite (proj2 (Nat.ltb_lt i (Len a))) by lia.
  - f_equal. apply List.filter_ext. intros j. rewrite passes_concat.
    rewrite (proj2 (Nat.ltb_ge (Len a + j) (Len a))) by lia.
    f_equal. lia.
Qed.

Lemma filter_indices_lt (p : nat -> bool) (view : RecordView) (j i : nat) :
  List.filter p (indices view) !! j = Some i -> i < Len view.
Proof.
  intros Hj. apply list_elem_of_lookup_2, list_elem_of_In, filter_In in Hj.
  destruct Hj as [Hj _]. by apply list_elem_of_In, EngineFacts.elem_of_indices in Hj.
Qed.

Lemma subView_concat (a b : RecordView) (ia ib : list nat) :
  Forall (fun i => i < Len a) ia ->
  same_view (newSubView (newConcatView a b)
               (ia ++ ((fun j => Len a + j) <$> ib)))
            (newConcatView (newSubView a ia) (newSubView b ib)).
Proof.
  intros Hia. unfold same_view. cbn [Len DimensionKeys MeasureKeys newSubView
                                    newConcatView].
  split; [by rewrite length_app, length_fmap|].
  split; [done|]. split; [done|].
  intros i key. cbn [Dimension Measure newSubView newConcatView].
  change (Len (newSubView a ia)) with (length ia).
  destruct (Nat.ltb_spec i (length ia)) as [Hlt|Hge].
  - rewrite lookup_app_l by done.
    destruct (lookup_lt_is_Some_2 ia i Hlt) as [k Hk]. rewrite Hk.
    pose proof (Forall_lookup_1 _ _ _ _ Hia Hk) as Hka. cbn beta in Hka.
    by rewrite (proj2 (Nat.ltb_lt k (Len a))) by done.
  - rewrite lookup_app_r by done. rewrite list_lookup_fmap.
    destruct (ib !! (i - length ia)) as [k|]; cbn [fmap option_fmap option_map];
      [|done].
    rewrite (proj2 (Nat.ltb_ge (Len a + k) (Len a))) by lia.
    by replace (Len a + k - Len a) with k by lia.
Qed.

End AdapterExtras.

(** X28. A view bound to typed values reads like a slice view over the
    records those values stand for: the same length and, at every index and
    key, the same dimension value and the same measure, the empty string and
    zero included where the index is out of range or no accessor is
    registered. *)
Theorem Bind_reads_like_records {rt : GoRuntime} {T : Type}
    (dimOrder mesOrder : list string) (dims : gmap string (T -> string))
    (meas : gmap string (T -> float)) (data : list T) :
  let typed := Bind dimOrder mesOrder dims meas data in
  let plain := NewSliceView (recordOf dims meas <$> data) in
  Len typed = Len plain /\
  forall (i : nat) (key : string),
    Dimension typed i key = Dimension plain i key
    /\ Measure typed i key = Measure plain i key.
Proof.
  cbn zeta. cbn [Len Dimension Measure Bind NewSliceView].
  split; [by rewrite length_fmap|].
  intros i key. rewrite !list_lookup_fmap.
  destruct (data !! i) as [x|]; cbn [fmap option_fmap option_map]; [|done].
  unfold recordOf. cbn [Dimensions Measures]. rewrite !lookup_fmap.
  by destruct (dims !! key), (meas !! key).
Qed.

(** X29. Filtering distributes over concatenation: the concatenation of two
    views, filtered, reads exactly like the concatenation of the two views
    each filtered by the same filters. *)
Theorem ApplyFilters_concat {rt : GoRuntime} (a b : RecordView) (F : Filters) :
  same_view (ApplyFilters (newConcatView a b) F)
            (newConcatView (ApplyFilters a F) (ApplyFilters b F)).
Proof.
  unfold ApplyFilters.
  destruct (IsEmpty F); [apply same_view_refl|].
  destruct (Nat.eqb (size (buildSets F)) 0); [apply same_view_refl|].
  rewrite filter_passes_concat. apply subView_concat.
  apply Forall_forall. intros i Hi.
  apply list_elem_of_lookup_1 in Hi as [j Hj].
  by apply (filter_indices_lt _ _ j i Hj).
Qed.

(** ** Grouping *)

Lemma filter_In_nil_aux {A} (p : A -> bool) (l : list A) :
  (forall x, In x l -> p x = true -> False) -> List.filter p l = [].
Proof.
  induction l as [|x l IH]; intros H; simpl; [done|].
  destruct (p x) eqn:Hp.
  - exfalso. apply (H x); [by left|done].
  - apply IH. intros y Hy. apply H. by right.
Qed.

Section GroupExtras.
Context {rt : GoRuntime}.
Variable view : RecordView.
Variable dimension : string.

(** The rows among [l] whose group key is [k], in row order. *)
Definition rowsWith (k : string) (l : list nat) : list nat :=
  List.filter (fun i => String.eqb (getDimensionValue view i dimension) k) l.

Lemma rowsWith_snoc (k : string) (l : list nat) (i : nat) :
  rowsWith k (l ++ [i])
  = rowsWith k l
    ++ (if String.eqb (getDimensionValue view i dimension) k then [i] else []).
Proof. unfold rowsWith. by rewrite List.filter_app. Qed.

(** What the loop of [groupBySingle] has built after the rows [l]. *)
Definition grouped_upto (l : list nat)
    (st : gmap string (list nat) * list string) : Prop :=
  NoDup (snd st) /\
  (forall k, k ∈ snd st
             <-> exists i, i ∈ l /\ getDimensionValue view i dimension = k) /\
  (forall k, fst st !! k
             = if bool_decide (k ∈ snd st) then Some (rowsWith k l) else None).

Lemma groupStep_upto (l : list nat) :
  grouped_upto l (foldl (groupStep view dimension) (∅, []) l).
Proof.
  induction l as [|i l IH] using rev_ind.
  - simpl. split_and!; [apply NoDup_nil_2| |].
    + intros k. rewrite elem_of_nil. split; [done|].
      intros (i & Hi & _). by apply elem_of_nil in Hi.
    + intros k. cbn [fst snd]. rewrite lookup_empty.
      rewrite bool_decide_eq_false_2; [done|]. apply not_elem_of_nil.
  - rewrite foldl_app. simpl.
    destruct (foldl (groupStep view dimension) (∅, []) l) as [grouped order].
    destruct IH as (Hnd & Hmem & Hget). simpl in Hnd, Hmem, Hget.
    unfold groupStep.
    set (key := getDimensionValue view i dimension).
    pose proof (Hget key) as Hkey.
    assert (Hmem' : forall k, (k ∈ order \/ k = key)
              <-> exists i0, i0 ∈ l ++ [i]
                             /\ getDimensionValue view i0 dimension = k).
    { intros k. rewrite Hmem. split.
      - intros [(i0 & Hi0 & Hk)| -> ].
        + exists i0. split; [apply elem_of_app; by left|done].
        + exists i. split; [|done].
          apply elem_of_app. right. by apply list_elem_of_singleton.
      - intros (i0 & Hi0 & Hk). apply elem_of_app in Hi0 as [Hi0|Hi0].
        + left. by exists i0.
        + apply list_elem_of_singleton in Hi0. subst i0. by right. }
    case_bool_decide as Hin; rewrite Hkey; unfold grouped_upto; cbn [fst snd default from_option id].
    + (* the key has been seen *)
      split_and!; [done| |].
      * intros k. rewrite <- Hmem'. split; [by left|].
        intros [?| -> ]; done.
      * intros k. rewrite rowsWith_snoc. fold key.
        destruct (decide (k = key)) as [ -> |Hne].
        -- rewrite lookup_insert_eq, String.eqb_refl.
           by rewrite bool_decide_eq_true_2.
        -- rewrite lookup_insert_ne by done. rewrite Hget.
           assert (String.eqb key k = false) as ->
             by (apply String.eqb_neq; congruence).
           by rewrite app_nil_r.
    + (* a new key *)
      split_and!.
      * apply NoDup_app. split_and!; [done| |apply NoDup_singleton].
        intros y Hy Hy'. apply list_elem_of_singleton in Hy'. by subst.
      * intros k. rewrite <- Hmem'.
        by rewrite elem_of_app, list_elem_of_singleton.
      * intros k. rewrite rowsWith_snoc. fold key.
        destruct (decide (k = key)) as [ -> |Hne].
        -- rewrite lookup_insert_eq, String.eqb_refl.
           rewrite bool_decide_eq_true_2.
           2:{ apply elem_of_app. right. by apply list_elem_of_singleton. }
           f_equal. f_equal. unfold rowsWith.
           symmetry. apply filter_In_nil_aux.
           intros i0 Hi0 Hk. apply String.eqb_eq in Hk.
           apply Hin, Hmem. exists i0. split; [by apply list_elem_of_In|done].
        -- rewrite lookup_insert_ne by done. rewrite Hget.
           assert (String.eqb key k = false) as ->
             by (apply String.eqb_neq; congruence).
           rewrite app_nil_r.
           case_bool_decide as H1; case_bool_decide as H2; try done.
           ++ exfalso. apply H2, elem_of_app. by left.
           ++ exfalso. apply elem_of_app in H2 as [?|H2]; [done|].
              by apply list_elem_of_singleton in H2.
Qed.

Lemma rowsWith_nonempty (k : string) (l : list nat) (i : nat) :
  i ∈ l -> getDimensionValue view i dimension = k -> rowsWith k l <> [].
Proof.
  intros Hi Hk Hnil.
  assert (Hin : In i (rowsWith k l)).
  { apply filter_In. split; [by apply list_elem_of_In|].
    by apply String.eqb_eq. }
  rewrite Hnil in Hin. inversion Hin.
Qed.

End GroupExtras.

Lemma fmap_id_ext {A} (f : A -> A) (l : list A) :
  (forall x, f x = x) -> f <$> l = l.
Proof.
  intros H. induction l as [|x l IH]; [done|].
  by rewrite fmap_cons, H, IH.
Qed.

Section GroupResults.
Context {rt : GoRuntime}.

Lemma getDimensionValue_newSubView (view : RecordView) (idx : list nat)
    (j i : nat) (dimension : string) :
  idx !! j = Some i ->
  getDimensionValue (newSubView view idx) j dimension
  = getDimensionValue view i dimension.
Proof. intros Hj. unfold getDimensionValue. simpl. by rewrite Hj. Qed.

Lemma groupBySingle_keys (view : RecordView) (dimension : string) :
  let keys := Key <$> groupBySingle view dimension in
  NoDup keys /\
  (forall k, k ∈ keys
             <-> exists i, i < Len view
                           /\ getDimensionValue view i dimension = k) /\
  groupBySingle view dimension
  = (fun k => mkGroup k k 0%float 0 []
                (newSubView view (rowsWith view dimension k (indices view))))
    <$> keys.
Proof.
  pose proof (groupStep_upto view dimension (indices view)) as H.
  unfold groupBySingle.
  destruct (foldl (groupStep view dimension) (∅, []) (indices view))
    as [grouped order].
  destruct H as (Hnd & Hmem & Hget). cbn [fst snd] in Hnd, Hmem, Hget.
  cbn zeta.
  assert (Hk : Key <$> ((fun key : string =>
                 mkGroup key key 0%float 0 []
                   (newSubView view (default [] (grouped !! key)))) <$> order)
               = order).
  { rewrite <- list_fmap_compose. apply fmap_id_ext. by intros k. }
  rewrite Hk. split_and!; [done| |].
  - intros k. rewrite Hmem. split.
    + intros (i & Hi & Hv). exists i. split; [|done].
      by apply EngineFacts.elem_of_indices.
    + intros (i & Hi & Hv). exists i. split; [|done].
      by apply EngineFacts.elem_of_indices.
  - apply Forall_fmap_ext_1, Forall_forall. intros k Hin.
    rewrite Hget. by rewrite bool_decide_eq_true_2.
Qed.

Lemma sum_list_cons (x : nat) (l : list nat) :
  sum_list (x :: l) = x + sum_list l.
Proof. reflexivity. Qed.

Lemma rowsWith_cons_length (view : RecordView) (dimension k : string)
    (i : nat) (l : list nat) :
  length (rowsWith view dimension k (i :: l))
  = (if String.eqb (getDimensionValue view i dimension) k then 1 else 0)
    + length (rowsWith view dimension k l).
Proof.
  unfold rowsWith. simpl.
  by destruct (String.eqb (getDimensionValue view i dimension) k).
Qed.

Lemma sum_list_indicator (keys : list string) (x : string) :
  NoDup keys -> x ∈ keys ->
  sum_list ((fun k => if String.eqb x k then 1 else 0) <$> keys) = 1.
Proof.
  induction keys as [|k keys IH]; intros Hnd Hin.
  - by apply elem_of_nil in Hin.
  - apply NoDup_cons in Hnd as [Hk Hnd]. rewrite fmap_cons, sum_list_cons.
    apply elem_of_cons in Hin as [ -> |Hin].
    + rewrite String.eqb_refl.
      assert (Hz : sum_list ((fun k' => if String.eqb k k' then 1 else 0)
                             <$> keys) = 0).
      { clear IH Hnd. induction keys as [|k' keys IH]; [done|].
        apply not_elem_of_cons in Hk as [Hne Hk].
        rewrite fmap_cons, sum_list_cons, (IH Hk).
        by rewrite (proj2 (String.eqb_neq k k')) by done. }
      by rewrite Hz.
    + rewrite (IH Hnd Hin).
      assert (x <> k) by (intros ->; done).
      by rewrite (proj2 (String.eqb_neq x k)) by done.
Qed.

Lemma sum_list_rowsWith (view : RecordView) (dimension : string)
    (keys : list string) (l : list nat) :
  NoDup keys ->
  (forall i, i ∈ l -> getDimensionValue view i dimension ∈ keys) ->
  sum_list ((fun k => length (rowsWith view dimension k l)) <$> keys)
  = length l.
Proof.
  intros Hnd. induction l as [|i l IH]; intros Hcov.
  - clear Hnd Hcov. induction keys as [|k keys IHk]; [done|].
    rewrite fmap_cons, sum_list_cons, IHk. reflexivity.
  - assert (Hsplit : forall ks,
      sum_list ((fun k => length (rowsWith view dimension k (i :: l))) <$> ks)
      = sum_list ((fun k => if String.eqb
                                 (getDimensionValue view i dimension) k
                            then 1 else 0) <$> ks)
        + sum_list ((fun k => length (rowsWith view dimension k l)) <$> ks)).
    { induction ks as [|k ks IHk]; [done|].
      rewrite !fmap_cons, !sum_list_cons, IHk, rowsWith_cons_length. lia. }
    rewrite Hsplit, IH.
    + rewrite sum_list_indicator; [done|done|].
      apply Hcov. by left.
    + intros i0 Hi0. apply Hcov. by right.
Qed.

Lemma sum_list_Permutation_nat (l1 l2 : list nat) :
  Permutation l1 l2 -> sum_list l1 = sum_list l2.
Proof. induction 1; simpl; lia. Qed.

Lemma sum_list_take_le (l : list nat) (n : nat) :
  sum_list (take n l) <= sum_list l.
Proof.
  revert n. induction l as [|x l IH]; intros [|n]; simpl; try lia.
  specialize (IH n). lia.
Qed.

End GroupResults.

(** X4. Grouping by one dimension partitions the view.  The groups have
    distinct keys; a key has a group exactly when some row has this value of
    the dimension; and the group of a key is a fresh group (no value, no
    count, no sub-groups yet) whose view holds exactly the rows with that
    value, in the order of the view. *)
Theorem groupBySingle_partition {rt : GoRuntime} (view : RecordView)
    (dimension : string) :
  let keys := Key <$> groupBySingle view dimension in
  NoDup keys /\
  (forall k, k ∈ keys
             <-> exists i, i < Len view
                           /\ getDimensionValue view i dimension = k) /\
  groupBySingle view dimension
  = (fun k => mkGroup k k 0%float 0 []
                (newSubView view (rowsWith view dimension k (indices view))))
    <$> keys.
Proof. apply groupBySingle_keys. Qed.

Section AggregateResults.
Context {rt : GoRuntime}.

(** One group of [GroupAndAggregate] after its aggregation step. *)
Definition aggregated (measure aggregation : string) (g : Group) : Group :=
  let g := aggregateGroup g measure aggregation in
  setSubGroups g ((fun sg => aggregateGroup sg measure aggregation)
                  <$> SubGroups g).

Lemma aggregateGroup_Key (g : Group) (measure aggregation : string) :
  Key (aggregateGroup g measure aggregation) = Key g.
Proof.
  unfold aggregateGroup. simpl.
  destruct (Nat.eqb (Len (View g)) 0); [reflexivity|].
  repeat (destruct (String.eqb aggregation _); [reflexivity|]).
  reflexivity.
Qed.

Lemma aggregated_fields (measure aggregation : string) (g : Group) :
  Key (aggregated measure aggregation g) = Key g /\
  Count (aggregated measure aggregation g) = Len (View g) /\
  View (aggregated measure aggregation g) = View g.
Proof.
  unfold aggregated, setSubGroups. simpl.
  by rewrite aggregateGroup_Key, EngineFacts.aggregateGroup_Count,
             EngineFacts.aggregateGroup_View.
Qed.

(** What holds of each group that [GroupAndAggregate] returns for the
    single group-by dimension [d]. *)
Definition group_ok (d : string) (g : Group) : Prop :=
  0 < Count g /\ Count g = Len (View g) /\
  forall j, j < Count g -> getDimensionValue (View g) j d = Key g.

Lemma fmap3_ext {A B C D} (f : C -> D) (g : B -> C) (h : A -> B)
    (r : A -> D) (l : list A) :
  (forall x, f (g (h x)) = r x) -> f <$> (g <$> (h <$> l)) = r <$> l.
Proof.
  intros H. induction l as [|x l IH]; [done|].
  by rewrite !fmap_cons, H, IH.
Qed.

Lemma aggregated_single_ok (view : RecordView) (d measure aggregation : string) :
  let gs := aggregated measure aggregation <$> groupBySingle view d in
  NoDup (Key <$> gs) /\ Forall (group_ok d) gs /\
  sum_list (Count <$> gs) = Len view.
Proof.
  destruct (groupBySingle_keys view d) as (Hnd & Hmem & Heq).
  cbn zeta in *.
  set (keys := Key <$> groupBySingle view d) in *.
  rewrite Heq.
  split_and!.
  - rewrite (fmap3_ext _ _ _ id).
    + by rewrite list_fmap_id.
    + intros k. by rewrite (proj1 (aggregated_fields _ _ _)).
  - apply Forall_fmap, Forall_fmap, Forall_forall. intros k Hk. unfold compose.
    destruct (aggregated_fields measure aggregation
                (mkGroup k k 0%float 0 []
                   (newSubView view (rowsWith view d k (indices view)))))
      as (HKey & HCount & HView).
    unfold group_ok. rewrite HKey, HCount, HView. simpl.
    apply Hmem in Hk as (i & Hi & Hv).
    split_and!; [|done|].
    + assert (rowsWith view d k (indices view) <> []) as Hne.
      { apply (rowsWith_nonempty view d k _ i); [|done].
        by apply EngineFacts.elem_of_indices. }
      destruct (rowsWith view d k (indices view)); [done|simpl; lia].
    + intros j Hj.
      destruct (lookup_lt_is_Some_2 _ _ Hj) as [i' Hi'].
      rewrite (getDimensionValue_newSubView _ _ j i' d Hi').
      apply list_elem_of_lookup_2, list_elem_of_In, filter_In in Hi'.
      destruct Hi' as [_ Hi']. by apply String.eqb_eq in Hi'.
  - rewrite (fmap3_ext _ _ _
               (fun k => length (rowsWith view d k (indices view)))).
    + rewrite sum_list_rowsWith; [unfold indices; by rewrite length_seq|done|].
      intros i Hi. apply Hmem. exists i. split; [|done].
      by apply EngineFacts.elem_of_indices.
    + intros k. by rewrite (proj1 (proj2 (aggregated_fields _ _ _))).
Qed.

Lemma SortGroups_perm (groups : list Group) (sortBy : string) :
  Permutation (SortGroups groups sortBy) groups.
Proof.
  unfold SortGroups.
  repeat (destruct (inb sortBy _); [apply sort_Slice_perm|]).
  reflexivity.
Qed.

End AggregateResults.

(** X5. Grouping and aggregating by one dimension loses no row and counts
    none twice.  Whatever the measure, aggregation and sort mode: the
    returned groups have distinct keys; each is non-empty, its count is the
    length of its view, and every row of its view has the group's key as its
    value of the dimension; the counts add up to at most the length of the
    view, and to exactly that length when no limit is set; with a positive
    limit at most that many groups are returned. *)
Theorem GroupAndAggregate_single {rt : GoRuntime} (view : RecordView)
    (d measure aggregation sortBy : string) (limit : Z) :
  let gs := GroupAndAggregate view [d] measure aggregation sortBy limit in
  NoDup (Key <$> gs) /\
  Forall (group_ok d) gs /\
  sum_list (Count <$> gs) <= Len view /\
  ((limit <= 0)%Z -> sum_list (Count <$> gs) = Len view) /\
  ((0 < limit)%Z -> (Z.of_nat (length gs) <= limit)%Z).
Proof.
  cbn zeta. unfold GroupAndAggregate.
  destruct (Nat.eqb (Len view) 0) eqn:Hz.
  { apply Nat.eqb_eq in Hz. simpl. rewrite Hz.
    split_and!; [apply NoDup_nil_2|done|lia|done|lia]. }
  fold (aggregated measure aggregation).
  destruct (aggregated_single_ok view d measure aggregation)
    as (Hnd & Hok & Hsum). cbn zeta in Hnd, Hok, Hsum.
  set (sorted := SortGroups (aggregated measure aggregation
                             <$> groupBySingle view d) sortBy).
  assert (Hperm : Permutation sorted
            (aggregated measure aggregation <$> groupBySingle view d))
    by apply SortGroups_perm.
  assert (Hnd' : NoDup (Key <$> sorted)) by (by rewrite Hperm).
  assert (Hok' : Forall (group_ok d) sorted) by (by rewrite Hperm).
  assert (Hsum' : sum_list (Count <$> sorted) = Len view).
  { rewrite <- Hsum. apply sum_list_Permutation_nat.
    by apply fmap_Permutation. }
  destruct ((0 <? limit)%Z && (limit <? Z.of_nat (length sorted))%Z) eqn:Hl.
  - apply andb_true_iff in Hl as [Hl1 Hl2].
    apply Z.ltb_lt in Hl1, Hl2.
    split_and!.
    + rewrite fmap_take.
      apply (sublist_NoDup _ (Key <$> sorted)); [done|apply sublist_take].
    + by apply Forall_take.
    + rewrite fmap_take, <- Hsum'. apply sum_list_take_le.
    + lia.
    + intros _. rewrite length_take. lia.
  - split_and!; [done|done|lia|done|].
    intros Hpos. apply andb_false_iff in Hl as [Hl|Hl].
    + apply Z.ltb_ge in Hl. lia.
    + apply Z.ltb_ge in Hl. lia.
Qed.

Section UniqueExtras.
Context {rt : GoRuntime}.

Lemma inb_elem_of (x : string) (l : list string) :
  inb x l = true <-> x ∈ l.
Proof.
  unfold inb. rewrite existsb_exists. split.
  - intros (y & Hy & He). apply String.eqb_eq in He. subst.
    by apply list_elem_of_In.
  - intros H. exists x. split; [by apply list_elem_of_In|apply String.eqb_refl].
Qed.

Definition uniqueStep (view : RecordView) (dimension : string)
    (result : list string) (i : nat) : list string :=
  let val := getDimensionValue view i dimension in
  if negb (String.eqb val "") && negb (inb val result)
  then result ++ [val] else result.

Lemma uniqueStep_foldl (view : RecordView) (dimension : string)
    (l : list nat) (acc : list string) :
  NoDup acc ->
  NoDup (foldl (uniqueStep view dimension) acc l) /\
  forall x, x ∈ foldl (uniqueStep view dimension) acc l
            <-> x ∈ acc \/ (x <> "" /\ exists i, i ∈ l /\
                              getDimensionValue view i dimension = x).
Proof.
  revert acc. induction l as [|i l IH]; intros acc Hnd; simpl.
  - split; [done|]. intros x. split; [by left|].
    intros [?|(_ & i & Hi & _)]; [done|]. by apply elem_of_nil in Hi.
  - set (val := getDimensionValue view i dimension).
    assert (Hstep : NoDup (uniqueStep view dimension acc i) /\
              forall x, x ∈ uniqueStep view dimension acc i
                        <-> x ∈ acc \/ (x <> "" /\ val = x)).
    { unfold uniqueStep. fold val.
      destruct (String.eqb val "") eqn:He; simpl.
      - apply String.eqb_eq in He. split; [done|].
        intros x. split; [by left|]. intros [?|[Hx Hv]]; [done|]. congruence.
      - apply String.eqb_neq in He.
        destruct (inb val acc) eqn:Hi; simpl.
        + apply inb_elem_of in Hi. split; [done|].
          intros x. split; [by left|]. intros [?|[Hx <-]]; done.
        + assert (val ∉ acc) as Hn.
          { intros Hin. apply inb_elem_of in Hin. congruence. }
          split.
          * apply NoDup_app. split_and!; [done| |apply NoDup_singleton].
            intros y Hy Hy'. apply list_elem_of_singleton in Hy'. by subst.
          * intros x. rewrite elem_of_app, list_elem_of_singleton.
            split; [intros [?| -> ]; [by left|by right]|].
            intros [?|[_ <-]]; [by left|by right]. }
    destruct Hstep as [Hnd' Hmem'].
    destruct (IH _ Hnd') as [H1 H2]. split; [done|].
    intros x. rewrite H2, Hmem'. split.
    + intros [[?|[Hx Hv]]|(Hx & i0 & Hi0 & Hv)]; [by left| |].
      * right. split; [done|]. exists i. split; [by left|done].
      * right. split; [done|]. exists i0. split; [by right|done].
    + intros [?|(Hx & i0 & Hi0 & Hv)]; [by left; left|].
      apply elem_of_cons in Hi0 as [ -> |Hi0].
      * left. right. done.
      * right. split; [done|]. by exists i0.
Qed.

End UniqueExtras.

(** X6. [UniqueValues] lists each value once and lists exactly the non-empty
    values that the dimension takes on some row of the view. *)
Theorem UniqueValues_spec {rt : GoRuntime} (view : RecordView)
    (dimension : string) :
  NoDup (UniqueValues view dimension) /\
  forall x, x ∈ UniqueValues view dimension
            <-> x <> "" /\ exists i, i < Len view /\
                             getDimensionValue view i dimension = x.
Proof.
  unfold UniqueValues.
  change (fun (result : list string) (i : nat) =>
            let val := getDimensionValue view i dimension in
            if negb (String.eqb val "") && negb (inb val result)
            then result ++ [val] else result)
    with (uniqueStep view dimension).
  destruct (uniqueStep_foldl view dimension (indices view) [] (NoDup_nil_2))
    as [H1 H2].
  split; [done|]. intros x. rewrite H2. split.
  - intros [Hx|(Hx & i & Hi & Hv)]; [by apply elem_of_nil in Hx|].
    split; [done|]. exists i. split; [|done].
    by apply EngineFacts.elem_of_indices.
  - intros (Hx & i & Hi & Hv). right. split; [done|]. exists i.
    split; [|done]. by apply EngineFacts.elem_of_indices.
Qed.

(** ** Grouping by two dimensions *)

Section NestedGroups.
Context {rt : GoRuntime}.

(** A group cut out of [view]: its view is a selection of rows of [view]. *)
Definition cut_from (view : RecordView) (g : Group) : Prop :=
  exists idx, View g = newSubView view idx /\ Forall (fun i => i < Len view) idx.

(** The groups of one dimension, after any step that leaves key and view
    alone and sets the count to the length of the view. *)
Lemma grouped_single_ok (view : RecordView) (d : string) (f : Group -> Group) :
  (forall g, Key (f g) = Key g /\ Count (f g) = Len (View g)
             /\ View (f g) = View g) ->
  let gs := f <$> groupBySingle view d in
  NoDup (Key <$> gs) /\ Forall (group_ok d) gs /\
  sum_list (Count <$> gs) = Len view /\ Forall (cut_from view) gs.
Proof.
  intros Hf.
  destruct (groupBySingle_keys view d) as (Hnd & Hmem & Heq).
  cbn zeta in *.
  set (keys := Key <$> groupBySingle view d) in *.
  rewrite Heq.
  split_and!.
  - rewrite (fmap3_ext _ _ _ id).
    + by rewrite list_fmap_id.
    + intros k. by rewrite (proj1 (Hf _)).
  - apply Forall_fmap, Forall_fmap, Forall_forall. intros k Hk. unfold compose.
    destruct (Hf (mkGroup k k 0%float 0 []
                    (newSubView view (rowsWith view d k (indices view)))))
      as (HKey & HCount & HView).
    unfold group_ok. rewrite HKey, HCount, HView. simpl.
    apply Hmem in Hk as (i & Hi & Hv).
    split_and!; [|done|].
    + assert (rowsWith view d k (indices view) <> []) as Hne.
      { apply (rowsWith_nonempty view d k _ i); [|done].
        by apply EngineFacts.elem_of_indices. }
      destruct (rowsWith view d k (indices view)); [done|simpl; lia].
    + intros j Hj.
      destruct (lookup_lt_is_Some_2 _ _ Hj) as [i' Hi'].
      rewrite (getDimensionValue_newSubView _ _ j i' d Hi').
      apply list_elem_of_lookup_2, list_elem_of_In, filter_In in Hi'.
      destruct Hi' as [_ Hi']. by apply String.eqb_eq in Hi'.
  - rewrite (fmap3_ext _ _ _
               (fun k => length (rowsWith view d k (indices view)))).
    + rewrite sum_list_rowsWith; [unfold indices; by rewrite length_seq|done|].
      intros i Hi. apply Hmem. exists i. split; [|done].
      by apply EngineFacts.elem_of_indices.
    + intros k. by rewrite (proj1 (proj2 (Hf _))).
  - apply Forall_fmap, Forall_fmap, Forall_forall. intros k _. unfold compose.
    exists (rowsWith view d k (indices view)). split.
    + by rewrite (proj2 (proj2 (Hf _))).
    + apply Forall_forall. intros i Hi.
      apply list_elem_of_In, filter_In in Hi as [Hi _].
      by apply list_elem_of_In, EngineFacts.elem_of_indices in Hi.
Qed.

(** What holds of a group of the first dimension [d0] and its sub-groups of
    the second dimension [d1]. *)
Definition nested_ok (d0 d1 : string) (g : Group) : Prop :=
  group_ok d0 g
  /\ NoDup (Key <$> SubGroups g)
  /\ Forall (group_ok d1) (SubGroups g)
  /\ sum_list (Count <$> SubGroups g) = Count g
  /\ Forall (fun sg => forall j, j < Count sg
                                 -> getDimensionValue (View sg) j d0 = Key g)
            (SubGroups g).

Lemma aggregateGroup_fields (measure aggregation : string) (g : Group) :
  Key (aggregateGroup g measure aggregation) = Key g
  /\ Count (aggregateGroup g measure aggregation) = Len (View g)
  /\ View (aggregateGroup g measure aggregation) = View g.
Proof.
  by rewrite aggregateGroup_Key, EngineFacts.aggregateGroup_Count,
             EngineFacts.aggregateGroup_View.
Qed.

Lemma aggregateGroup_SubGroups (measure aggregation : string) (g : Group) :
  SubGroups (aggregateGroup g measure aggregation) = SubGroups g.
Proof.
  unfold aggregateGroup. simpl.
  destruct (Nat.eqb (Len (View g)) 0); [reflexivity|].
  repeat (destruct (String.eqb aggregation _); [reflexivity|]).
  reflexivity.
Qed.

Lemma aggregated_nested_ok (view : RecordView) (d0 d1 : string)
    (rest : list string) (measure aggregation : string) :
  let gs := aggregated measure aggregation
            <$> groupByMulti view (d0 :: d1 :: rest) in
  NoDup (Key <$> gs) /\ Forall (nested_ok d0 d1) gs /\
  sum_list (Count <$> gs) = Len view.
Proof.
  cbn zeta. cbn [groupByMulti].
  rewrite <- (list_fmap_compose
                (fun g => setSubGroups g (groupBySingle (View g) d1))
                (aggregated measure aggregation) (groupBySingle view d0)).
  set (f := aggregated measure aggregation
            ∘ (fun g => setSubGroups g (groupBySingle (View g) d1))).
  assert (Hf : forall g, Key (f g) = Key g /\ Count (f g) = Len (View g)
                         /\ View (f g) = View g).
  { intros g. subst f. unfold compose.
    destruct (aggregated_fields measure aggregation
                (setSubGroups g (groupBySingle (View g) d1)))
      as (H1 & H2 & H3).
    by rewrite H1, H2, H3. }
  destruct (grouped_single_ok view d0 f Hf) as (Hnd & Hok & Hsum & _).
  cbn zeta in Hnd, Hok, Hsum.
  split; [exact Hnd|]. split; [|exact Hsum].
  apply Forall_forall. intros g' Hg'.
  pose proof (proj1 (Forall_forall _ _) Hok g' Hg') as Hg0.
  apply list_elem_of_fmap in Hg' as (g & -> & _).
  destruct (Hf g) as (HK & HC & HV).
  assert (Hsub : SubGroups (f g)
                 = (fun sg => aggregateGroup sg measure aggregation)
                   <$> groupBySingle (View g) d1).
  { subst f. unfold compose, aggregated. cbn [SubGroups setSubGroups].
    by rewrite aggregateGroup_SubGroups. }
  destruct (grouped_single_ok (View g) d1
              (fun sg => aggregateGroup sg measure aggregation)
              (aggregateGroup_fields measure aggregation))
    as (Snd & Sok & Ssum & Scut).
  cbn zeta in Snd, Sok, Ssum, Scut.
  unfold nested_ok. rewrite Hsub, HC, HK.
  split_and!; try done.
  apply Forall_forall. intros sg Hsg j Hj.
  pose proof (proj1 (Forall_forall _ _) Sok sg Hsg) as (_ & Hcnt & _).
  pose proof (proj1 (Forall_forall _ _) Scut sg Hsg) as (idx & Hview & Hidx).
  rewrite Hview. rewrite Hcnt, Hview in Hj. cbn [Len newSubView] in Hj.
  destruct (lookup_lt_is_Some_2 _ _ Hj) as [i Hi].
  rewrite (getDimensionValue_newSubView _ _ j i d0 Hi).
  pose proof (Forall_lookup_1 _ _ _ _ Hidx Hi) as Hlt. cbn beta in Hlt.
  destruct Hg0 as (_ & Hc0 & Hrows). rewrite HV in Hrows. rewrite HK in Hrows.
  apply Hrows. by rewrite HC.
Qed.

End NestedGroups.

(** X27. Grouping by two or more dimensions groups by the first and, inside
    each group, by the second; further dimensions are not used.  Whatever
    the measure, aggregation and sort mode: the groups have distinct keys
    and are non-empty, every row of a group has the group's key as its first
    dimension; the sub-groups of a group have distinct keys, are non-empty,
    hold rows of that group with the sub-group's key as second dimension,
    and their counts add up to the count of the group.  Without a limit the
    counts of the groups add up to the length of the view. *)
Theorem GroupAndAggregate_nested {rt : GoRuntime} (view : RecordView)
    (d0 d1 : string) (rest : list string)
    (measure aggregation sortBy : string) (limit : Z) :
  let gs := GroupAndAggregate view (d0 :: d1 :: rest) measure aggregation
              sortBy limit in
  NoDup (Key <$> gs) /\
  Forall (nested_ok d0 d1) gs /\
  sum_list (Count <$> gs) <= Len view /\
  ((limit <= 0)%Z -> sum_list (Count <$> gs) = Len view).
Proof.
  cbn zeta. unfold GroupAndAggregate.
  destruct (Nat.eqb (Len view) 0) eqn:Hz.
  { apply Nat.eqb_eq in Hz. simpl. rewrite Hz.
    split_and!; [apply NoDup_nil_2|done|lia|done]. }
  fold (aggregated measure aggregation).
  destruct (aggregated_nested_ok view d0 d1 rest measure aggregation)
    as (Hnd & Hok & Hsum). cbn zeta in Hnd, Hok, Hsum.
  set (sorted := SortGroups (aggregated measure aggregation
                             <$> groupByMulti view (d0 :: d1 :: rest)) sortBy).
  assert (Hperm : Permutation sorted
            (aggregated measure aggregation
             <$> groupByMulti view (d0 :: d1 :: rest)))
    by apply SortGroups_perm.
  assert (Hnd' : NoDup (Key <$> sorted)) by (by rewrite Hperm).
  assert (Hok' : Forall (nested_ok d0 d1) sorted) by (by rewrite Hperm).
  assert (Hsum' : sum_list (Count <$> sorted) = Len view).
  { rewrite <- Hsum. apply sum_list_Permutation_nat.
    by apply fmap_Permutation. }
  destruct ((0 <? limit)%Z && (limit <? Z.of_nat (length sorted))%Z) eqn:Hl.
  - apply andb_true_iff in Hl as [Hl1 Hl2].
    apply Z.ltb_lt in Hl1, Hl2.
    split_and!.
    + rewrite fmap_take.
      apply (sublist_NoDup _ (Key <$> sorted)); [done|apply sublist_take].
    + by apply Forall_take.
    + rewrite fmap_take, <- Hsum'. apply sum_list_take_le.
    + lia.
  - split_and!; [done|done|lia|done].
Qed.

(** ** Extremes of a measure *)

Section FloatOrder.

Lemma SFltb_irrefl (a : spec_float) : SFltb a a = false.
Proof.
  unfold SFltb, SFcompare. destruct a as [s|s| |s m e]; try by destruct s.
  - done.
  - change (Pos.compare_cont Eq m m) with (Pos.compare m m).
    by rewrite Z.compare_refl, Pos.compare_refl; destruct s.
Qed.

Lemma SFltb_trans (a b c : spec_float) :
  SFltb a b = true -> SFltb b c = true -> SFltb a c = true.
Proof.
  unfold SFltb, SFcompare.
  destruct a as [sa|sa| |sa ma ea], b as [sb|sb| |sb mb eb],
           c as [sc|sc| |sc mc ec];
    try destruct sa; try destruct sb; try destruct sc;
    try discriminate; try reflexivity;
    change (Pos.compare_cont Eq) with Pos.compare;
    destruct (Z.compare_spec ea eb), (Z.compare_spec eb ec),
             (Z.compare_spec ea ec);
    try discriminate; try reflexivity; try lia; subst;
    destruct (Pos.compare_spec ma mb), (Pos.compare_spec mb mc),
             (Pos.compare_spec ma mc);
    simpl; try discriminate; try reflexivity; try lia.
Qed.

(** Go's [<] on float64 is irreflexive and transitive (NaN compares false
    with everything). *)
Lemma ltb_irrefl (x : float) : PrimFloat.ltb x x = false.
Proof. rewrite FloatAxioms.ltb_spec. apply SFltb_irrefl. Qed.

Lemma ltb_trans (x y z : float) :
  PrimFloat.ltb x y = true -> PrimFloat.ltb y z = true ->
  PrimFloat.ltb x z = true.
Proof. rewrite !FloatAxioms.ltb_spec. apply SFltb_trans. Qed.

End FloatOrder.

Section Extremes.

(** The scanning loop of [MaxMeasure] and [MinMeasure]: [better m v] says
    that [v] replaces the running value [m]. *)
Definition scanBest (better : float -> float -> bool) (f : nat -> float)
    (st : float * bool) (i : nat) : float * bool :=
  if negb (snd st) || better (fst st) (f i) then (f i, true) else st.

Lemma scanBest_foldl (better : float -> float -> bool) (f : nat -> float)
    (init : float) (l : list nat) :
  (forall x, better x x = false) ->
  (forall a b c, better a b = true -> better b c = true -> better a c = true) ->
  let st := foldl (scanBest better f) (init, false) l in
  (l <> [] -> snd st = true /\ exists i, i ∈ l /\ fst st = f i) /\
  (forall j, j ∈ l -> better (fst st) (f j) = false).
Proof.
  intros Hirr Htr. cbn zeta.
  induction l as [|i l IH] using rev_ind.
  - split; [done|]. intros j Hj. by apply elem_of_nil in Hj.
  - rewrite foldl_app. simpl.
    assert (Hlast : forall j, j ∈ l ++ [i] -> j ∈ l \/ j = i).
    { intros j Hj. apply elem_of_app in Hj as [?|Hj]; [by left|].
      apply list_elem_of_singleton in Hj. by right. }
    destruct (decide (l = [])) as [ -> |Hne].
    + simpl. unfold scanBest. cbn [fst snd negb orb]. split.
      * intros _. split; [done|]. exists i. split; [|done].
        by apply list_elem_of_singleton.
      * intros j Hj. apply list_elem_of_singleton in Hj. subst j.
        apply Hirr.
    + destruct IH as [Hatt Hbound].
      destruct (Hatt Hne) as [Hf (i1 & Hi1 & Hm)].
      destruct (foldl (scanBest better f) (init, false) l) as [m found].
      cbn [fst snd] in Hf, Hm, Hbound. subst found.
      unfold scanBest. cbn [fst snd negb orb].
      destruct (better m (f i)) eqn:Hb; cbn [fst snd].
      * split.
        -- intros _. split; [done|]. exists i. split; [|done].
           apply elem_of_app. right. by apply list_elem_of_singleton.
        -- intros j Hj. apply Hlast in Hj as [Hj| -> ]; [|apply Hirr].
           destruct (better (f i) (f j)) eqn:Hij; [|done].
           rewrite <- (Hbound j Hj). symmetry. by apply (Htr m (f i) (f j)).
      * split.
        -- intros _. split; [done|]. exists i1. split; [|done].
           apply elem_of_app. by left.
        -- intros j Hj. apply Hlast in Hj as [Hj| -> ]; [by apply Hbound|done].
Qed.

End Extremes.

(** X7. On a non-empty view [MaxMeasure] returns the value of some row, and
    no row has a greater value ([>] of float64, by which NaN is greater than
    nothing); [MinMeasure] likewise returns the value of some row, and no row
    has a smaller one.  On an empty view both return 0. *)
Theorem MaxMin_attained {rt : GoRuntime} (view : RecordView) (measure : string) :
  (Len view = 0 ->
   MaxMeasure view measure = 0%float /\ MinMeasure view measure = 0%float) /\
  (0 < Len view ->
   (exists i, i < Len view /\ MaxMeasure view measure = Measure view i measure)
   /\ (exists i, i < Len view
                 /\ MinMeasure view measure = Measure view i measure)) /\
  (forall j, j < Len view ->
     PrimFloat.ltb (MaxMeasure view measure) (Measure view j measure) = false
     /\ PrimFloat.ltb (Measure view j measure) (MinMeasure view measure)
        = false).
Proof.
  unfold MaxMeasure, MinMeasure.
  destruct (Nat.eqb (Len view) 0) eqn:Hz.
  { apply Nat.eqb_eq in Hz. split_and!; [done|lia|lia]. }
  apply Nat.eqb_neq in Hz.
  pose proof (scanBest_foldl (fun m v => PrimFloat.ltb m v)
                (fun i => Measure view i measure) neg_infinity
                (seq 0 (Len view)) ltb_irrefl ltb_trans) as Hmax.
  pose proof (scanBest_foldl (fun m v => PrimFloat.ltb v m)
                (fun i => Measure view i measure) infinity
                (seq 0 (Len view)) ltb_irrefl
                (fun a b c H1 H2 => ltb_trans c b a H2 H1)) as Hmin.
  cbn zeta in Hmax, Hmin. unfold scanBest in Hmax, Hmin.
  cbv beta in Hmax, Hmin.
  destruct (foldl _ (neg_infinity, false) (seq 0 (Len view))) as [mx fx].
  destruct (foldl _ (infinity, false) (seq 0 (Len view))) as [mn fn].
  cbn [fst snd] in Hmax, Hmin.
  destruct Hmax as [Hmax1 Hmax2], Hmin as [Hmin1 Hmin2].
  assert (Hne : seq 0 (Len view) <> []).
  { destruct (Len view); [lia|done]. }
  destruct (Hmax1 Hne) as [-> (i & Hi & ->)].
  destruct (Hmin1 Hne) as [-> (i' & Hi' & ->)].
  apply elem_of_seq in Hi, Hi'.
  split_and!; [lia| |].
  - intros _. split; [exists i|exists i']; split; (lia || done).
  - intros j Hj. split.
    + apply Hmax2. apply elem_of_seq. lia.
    + apply Hmin2. apply elem_of_seq. lia.
Qed.

(** ** Sorting *)

Section SortExtras.
Context {rt : GoRuntime}.

Lemma inb_two (x a b : string) :
  inb x [a; b] = true -> x = a \/ x = b.
Proof.
  unfold inb. simpl. rewrite !orb_true_iff, !String.eqb_eq.
  intros [?|[?|?]]; [by left|by right|done].
Qed.

Lemma sort_by_key_sorted (key : Group -> Z) (groups : list Group) :
  StronglySorted (fun a b => (key a <= key b)%Z)
    (sort_Slice (fun a b => (key a <? key b)%Z) groups).
Proof.
  eapply OrderFacts.StronglySorted_weaken;
    [|apply (sort_Slice_sorted Group _ groups);
      apply (OrderFacts.strict_weak_on Z.ltb key),
            OrderFacts.Z_ltb_strict_weak].
  intros a b H. simpl in H. apply Z.ltb_ge in H. lia.
Qed.

Lemma sort_by_key_sorted_desc (key : Group -> Z) (groups : list Group) :
  StronglySorted (fun a b => (key b <= key a)%Z)
    (sort_Slice (fun a b => (key b <? key a)%Z) groups).
Proof.
  eapply OrderFacts.StronglySorted_weaken;
    [|apply (sort_Slice_sorted Group _ groups);
      apply (OrderFacts.strict_weak_flip (fun a b => (key a <? key b)%Z)),
            (OrderFacts.strict_weak_on Z.ltb key),
            OrderFacts.Z_ltb_strict_weak].
  intros a b H. simpl in H. apply Z.ltb_ge in H. lia.
Qed.

Lemma sort_by_label_sorted (groups : list Group) :
  StronglySorted
    (fun a b => String.ltb (ToLower (Key b)) (ToLower (Key a)) = false)
    (sort_Slice (fun a b => String.ltb (ToLower (Key a)) (ToLower (Key b)))
                groups).
Proof.
  apply (sort_Slice_sorted Group _ groups).
  apply (OrderFacts.strict_weak_on String.ltb (fun g => ToLower (Key g))),
        OrderFacts.string_ltb_strict_weak.
Qed.

Lemma sort_by_label_sorted_desc (groups : list Group) :
  StronglySorted
    (fun a b => String.ltb (ToLower (Key a)) (ToLower (Key b)) = false)
    (sort_Slice (fun a b => String.ltb (ToLower (Key b)) (ToLower (Key a)))
                groups).
Proof.
  apply (sort_Slice_sorted Group _ groups).
  apply (OrderFacts.strict_weak_flip
           (fun a b => String.ltb (ToLower (Key a)) (ToLower (Key b)))),
        (OrderFacts.strict_weak_on String.ltb (fun g => ToLower (Key g))),
        OrderFacts.string_ltb_strict_weak.
Qed.

End SortExtras.

(** X8. [SortGroups] reorders and never drops or repeats a group.  In the
    chronological modes the groups come out by non-decreasing sortable date
    of their keys, in the reverse chronological modes by non-increasing
    date; in the label modes no group is followed by one whose lower-cased
    key is bytewise smaller (ascending) or greater (descending). *)
Theorem SortGroups_sorted {rt : GoRuntime} (groups : list Group)
    (sortBy : string) :
  Permutation (SortGroups groups sortBy) groups /\
  (inb sortBy ["chronological"; "date_asc"] = true ->
   StronglySorted
     (fun a b => (parseSortableDate (Key a) <= parseSortableDate (Key b))%Z)
     (SortGroups groups sortBy)) /\
  (inb sortBy ["reverse_chronological"; "date_desc"] = true ->
   StronglySorted
     (fun a b => (parseSortableDate (Key b) <= parseSortableDate (Key a))%Z)
     (SortGroups groups sortBy)) /\
  (inb sortBy ["label_asc"; "alpha_asc"] = true ->
   StronglySorted
     (fun a b => String.ltb (ToLower (Key b)) (ToLower (Key a)) = false)
     (SortGroups groups sortBy)) /\
  (sortBy = "label_desc" ->
   StronglySorted
     (fun a b => String.ltb (ToLower (Key a)) (ToLower (Key b)) = false)
     (SortGroups groups sortBy)).
Proof.
  split_and!.
  - apply SortGroups_perm.
  - intros H. apply inb_two in H as [ -> | -> ];
      apply (sort_by_key_sorted (fun g => parseSortableDate (Key g))).
  - intros H. apply inb_two in H as [ -> | -> ];
      apply (sort_by_key_sorted_desc (fun g => parseSortableDate (Key g))).
  - intros H. apply inb_two in H as [ -> | -> ]; apply sort_by_label_sorted.
  - intros ->. apply sort_by_label_sorted_desc.
Qed.

(** ** Periods *)

Section PeriodExtras.
Context {rt : GoRuntime}.

Lemma currencyStep_foldl_keys (view : RecordView) (dim : string)
    (l : list nat) (acc : gmap string bool) (m : string) :
  is_Some (foldl (EngineFacts.currencyStep view dim) acc l !! m)
  <-> is_Some (acc !! m)
      \/ (m <> "" /\ exists i, i ∈ l /\ Dimension view i dim = m).
Proof.
  revert acc. induction l as [|i l IH]; intros acc; simpl.
  - split; [by left|]. intros [?|(_ & i & Hi & _)]; [done|].
    by apply elem_of_nil in Hi.
  - rewrite IH. unfold EngineFacts.currencyStep at 1.
    destruct (String.eqb (Dimension view i dim) "") eqn:He.
    + apply String.eqb_eq in He. split.
      * intros [?|(Hm & j & Hj & Hv)]; [by left|].
        right. split; [done|]. exists j. split; [by right|done].
      * intros [?|(Hm & j & Hj & Hv)]; [by left|].
        apply elem_of_cons in Hj as [ -> |Hj]; [congruence|].
        right. split; [done|]. by exists j.
    + apply String.eqb_neq in He. split.
      * intros [Hs|(Hm & j & Hj & Hv)].
        -- destruct (decide (m = Dimension view i dim)) as [ -> |Hne].
           ++ right. split; [done|]. exists i. split; [by left|done].
           ++ left. by rewrite lookup_insert_ne in Hs.
        -- right. split; [done|]. exists j. split; [by right|done].
      * intros [Hs|(Hm & j & Hj & Hv)].
        -- left. destruct (decide (m = Dimension view i dim)) as [ -> |Hne].
           ++ rewrite lookup_insert_eq. by eexists.
           ++ by rewrite lookup_insert_ne.
        -- apply elem_of_cons in Hj as [ -> |Hj].
           ++ left. subst m. rewrite lookup_insert_eq. by eexists.
           ++ right. split; [done|]. by exists j.
Qed.

Lemma monthSet_keys (view : RecordView) (m : string) :
  m ∈ (range_map (monthSet view)).*1
  <-> m <> "" /\ exists i, i < Len view /\ Dimension view i "month" = m.
Proof.
  assert (Hk : m ∈ (range_map (monthSet view)).*1
               <-> is_Some (monthSet view !! m)).
  { rewrite list_elem_of_fmap. split.
    - intros ([k v] & -> & Hin). simpl.
      apply EngineFacts.elem_of_range_map in Hin. by eexists.
    - intros [v Hv]. exists (m, v). split; [done|].
      by apply EngineFacts.elem_of_range_map. }
  rewrite Hk. unfold monthSet.
  change (foldl _ ∅ (indices view))
    with (foldl (EngineFacts.currencyStep view "month") ∅ (indices view)).
  rewrite currencyStep_foldl_keys, lookup_empty. split.
  - intros [[? ?]|(Hm & i & Hi & Hv)]; [done|].
    split; [done|]. exists i. split; [|done].
    by apply EngineFacts.elem_of_indices.
  - intros (Hm & i & Hi & Hv). right. split; [done|]. exists i.
    split; [|done]. by apply EngineFacts.elem_of_indices.
Qed.

Lemma NoDup_all_equal (l : list string) (m : string) :
  NoDup l -> (forall x, x ∈ l -> x = m) -> m ∈ l -> l = [m].
Proof.
  intros Hnd Hall Hin. destruct l as [|x l]; [by apply elem_of_nil in Hin|].
  assert (x = m) as -> by (apply Hall; by left).
  destruct l as [|y l]; [done|].
  assert (y = m) as -> by (apply Hall; right; by left).
  apply NoDup_cons in Hnd as [Hn _]. exfalso. apply Hn. by left.
Qed.

(** The last loop of [DerivePeriod]. *)
Definition periodStep (st : periodScan) (mb : string * bool) : periodScan :=
  let m := fst mb in
  let order := ParseMonthOrder m in
  let st1 :=
    if sc_first st || (order <? sc_earliestOrder st)%Z
    then mkScan m (sc_latest st) order (sc_latestOrder st) (sc_first st)
    else st in
  let st2 :=
    if sc_first st1 || (sc_latestOrder st1 <? order)%Z
    then mkScan (sc_earliest st1) m (sc_earliestOrder st1) order (sc_first st1)
    else st1 in
  mkScan (sc_earliest st2) (sc_latest st2)
         (sc_earliestOrder st2) (sc_latestOrder st2) false.

Definition period_ok (l : list (string * bool)) (st : periodScan) : Prop :=
  sc_first st = false /\
  sc_earliest st ∈ l.*1 /\ sc_latest st ∈ l.*1 /\
  sc_earliestOrder st = ParseMonthOrder (sc_earliest st) /\
  sc_latestOrder st = ParseMonthOrder (sc_latest st) /\
  forall m, m ∈ l.*1 ->
    (ParseMonthOrder (sc_earliest st) <= ParseMonthOrder m
     <= ParseMonthOrder (sc_latest st))%Z.

Lemma periodStep_foldl (l : list (string * bool)) :
  l <> [] -> period_ok l (foldl periodStep (mkScan "" "" 0 0 true) l).
Proof.
  induction l as [|[m b] l IH] using rev_ind; [done|]. intros _.
  rewrite foldl_app. cbn [foldl].
  assert (Hlast : forall x, x ∈ (l ++ [(m, b)]).*1 -> x ∈ l.*1 \/ x = m).
  { intros x. rewrite fmap_app, elem_of_app. simpl.
    rewrite list_elem_of_singleton. tauto. }
  assert (Hm : m ∈ (l ++ [(m, b)]).*1).
  { rewrite fmap_app, elem_of_app. right. simpl.
    by apply list_elem_of_singleton. }
  assert (Hmono : forall x, x ∈ l.*1 -> x ∈ (l ++ [(m, b)]).*1).
  { intros x Hx. rewrite fmap_app, elem_of_app. by left. }
  destruct (decide (l = [])) as [ -> |Hne].
  - simpl. unfold periodStep, period_ok. simpl.
    split_and!; try done; try (by apply list_elem_of_singleton).
    intros x Hx. apply list_elem_of_singleton in Hx. subst. lia.
  - destruct (IH Hne) as (Hf & He & Hl & Heo & Hlo & Hb).
    destruct (foldl periodStep (mkScan "" "" 0 0 true) l)
      as [e la eo lo f].
    cbn [sc_first sc_earliest sc_latest sc_earliestOrder sc_latestOrder]
      in Hf, He, Hl, Heo, Hlo, Hb.
    subst f eo lo. unfold periodStep, period_ok.
    cbn [fst sc_first sc_earliest sc_latest sc_earliestOrder sc_latestOrder
         orb].
    destruct (ParseMonthOrder m <? ParseMonthOrder e)%Z eqn:H1;
      cbn [sc_first sc_earliest sc_latest sc_earliestOrder sc_latestOrder orb];
      destruct (ParseMonthOrder la <? ParseMonthOrder m)%Z eqn:H2;
      cbn [sc_first sc_earliest sc_latest sc_earliestOrder sc_latestOrder].
    + apply Z.ltb_lt in H1, H2.
      split_and!; try done.
      intros x Hx. apply Hlast in Hx as [Hx| -> ]; [|lia].
      specialize (Hb x Hx). lia.
    + apply Z.ltb_lt in H1. apply Z.ltb_ge in H2.
      split_and!; try done; [by apply Hmono|].
      intros x Hx. apply Hlast in Hx as [Hx| -> ]; [|lia].
      specialize (Hb x Hx). lia.
    + apply Z.ltb_ge in H1. apply Z.ltb_lt in H2.
      split_and!; try done; [by apply Hmono|].
      intros x Hx. apply Hlast in Hx as [Hx| -> ]; [|lia].
      specialize (Hb x Hx). lia.
    + apply Z.ltb_ge in H1, H2.
      split_and!; try done; [by apply Hmono|by apply Hmono|].
      intros x Hx. apply Hlast in Hx as [Hx| -> ]; [|lia].
      specialize (Hb x Hx). lia.
Qed.

End PeriodExtras.

(** X9. [DerivePeriod] by cases.  An empty view gives "No data"; a view
    whose rows all have an empty month gives "All time"; a view whose
    non-empty months are all the same month gives that month; and a view
    with two different months gives "e – l" where [e] and [l] are months of
    the view, no month of the view parses to an earlier order than [e] and
    none to a later order than [l], whatever the order in which Go visits
    the month set. *)
Theorem DerivePeriod_spec {rt : GoRuntime} (view : RecordView) :
  (Len view = 0 -> DerivePeriod view = "No data") /\
  (0 < Len view ->
   (forall i, i < Len view -> Dimension view i "month" = "") ->
   DerivePeriod view = "All time") /\
  (forall m, m <> "" ->
     (exists i, i < Len view /\ Dimension view i "month" = m) ->
     (forall i, i < Len view ->
        Dimension view i "month" = "" \/ Dimension view i "month" = m) ->
     DerivePeriod view = m) /\
  (forall i j, i < Len view -> j < Len view ->
     Dimension view i "month" <> "" -> Dimension view j "month" <> "" ->
     Dimension view i "month" <> Dimension view j "month" ->
     exists e l,
       DerivePeriod view = e +:+ " – " +:+ l /\
       (exists a, a < Len view /\ Dimension view a "month" = e) /\
       (exists b, b < Len view /\ Dimension view b "month" = l) /\
       forall k, k < Len view -> Dimension view k "month" <> "" ->
         (ParseMonthOrder e <= ParseMonthOrder (Dimension view k "month")
          <= ParseMonthOrder l)%Z).
Proof.
  pose proof (EngineFacts.NoDup_range_map_keys (monthSet view)) as Hnd.
  pose proof (EngineFacts.length_range_map (monthSet view)) as Hlen.
  unfold DerivePeriod.
  split_and!.
  - intros ->. reflexivity.
  - intros Hpos Hall.
    destruct (Nat.eqb_spec (Len view) 0) as [?|_]; [lia|].
    assert (Hnil : range_map (monthSet view) = []).
    { destruct (range_map (monthSet view)) as [|[m b] l] eqn:Hr; [done|].
      assert (Hm : m ∈ (range_map (monthSet view)).*1)
        by (rewrite Hr; by left).
      apply monthSet_keys in Hm as (Hm & i & Hi & Hv).
      rewrite Hall in Hv by done. congruence. }
    rewrite Hnil in Hlen. simpl in Hlen. by rewrite <- Hlen.
  - intros m Hm (i & Hi & Hv) Hall.
    destruct (Nat.eqb_spec (Len view) 0) as [?|_]; [lia|].
    assert (Hone : (range_map (monthSet view)).*1 = [m]).
    { apply NoDup_all_equal; [done| |].
      - intros x Hx. apply monthSet_keys in Hx as (Hx & a & Ha & Hxa).
        destruct (Hall a Ha); congruence.
      - apply monthSet_keys. split; [done|]. by exists i. }
    destruct (range_map (monthSet view)) as [|[m' b] [|? ?]];
      [done| |done].
    simpl in Hone, Hlen. inversion Hone; subst m'.
    rewrite <- Hlen. reflexivity.
  - intros i j Hi Hj Hmi Hmj Hne.
    destruct (Nat.eqb_spec (Len view) 0) as [?|_]; [lia|].
    assert (Hini : Dimension view i "month" ∈ (range_map (monthSet view)).*1).
    { apply monthSet_keys. split; [done|]. by exists i. }
    assert (Hinj : Dimension view j "month" ∈ (range_map (monthSet view)).*1).
    { apply monthSet_keys. split; [done|]. by exists j. }
    assert (Hsize : 2 <= size (monthSet view)).
    { rewrite <- Hlen.
      destruct (range_map (monthSet view)) as [|[m1 b1] [|[m2 b2] l]];
        simpl in *; [by apply elem_of_nil in Hini| |lia].
      apply list_elem_of_singleton in Hini, Hinj. congruence. }
    destruct (Nat.eqb_spec (size (monthSet view)) 0) as [?|_]; [lia|].
    destruct (Nat.eqb_spec (size (monthSet view)) 1) as [?|_]; [lia|].
    change (foldl _ (mkScan "" "" 0 0 true) (range_map (monthSet view)))
      with (foldl periodStep (mkScan "" "" 0 0 true)
                  (range_map (monthSet view))).
    assert (Hnn : range_map (monthSet view) <> []).
    { intros Hr. rewrite Hr in Hini. by apply elem_of_nil in Hini. }
    destruct (periodStep_foldl _ Hnn) as (_ & He & Hl & _ & _ & Hb).
    exists (sc_earliest (foldl periodStep (mkScan "" "" 0 0 true)
                               (range_map (monthSet view)))),
           (sc_latest (foldl periodStep (mkScan "" "" 0 0 true)
                             (range_map (monthSet view)))).
    split_and!.
    + by destruct (range_map (monthSet view)).
    + by apply monthSet_keys in He as [_ ?].
    + by apply monthSet_keys in Hl as [_ ?].
    + intros k Hk Hmk. apply Hb, monthSet_keys. split; [done|]. by exists k.
Qed.

(** ** Month keys *)

(** The number written by four decimal digits. *)
Definition yearOf (a b c d : ascii) : Z :=
  (((digitVal a * 10 + digitVal b) * 10 + digitVal c) * 10 + digitVal d)%Z.

(** X10. A month key written as a three-letter English month name, a
    hyphen and four digits ("Jan-2026") parses to year * 100 + month, so
    that the order of the results is the calendar order of such keys. *)
Theorem ParseMonthOrder_valid (i : nat) (name : string) (a b c d : ascii) :
  shortMonthNames !! i = Some name ->
  isDigit a = true -> isDigit b = true ->
  isDigit c = true -> isDigit d = true ->
  ParseMonthOrder
    (name +:+ String "-" (String a (String b (String c (String d "")))))
  = (yearOf a b c d * 100 + Z.of_nat (S i))%Z.
Proof.
  intros Hn Ha Hb Hc Hd.
  unfold ParseMonthOrder, parseMonYear, yearOf.
  do 12 (destruct i as [|i];
         [ injection Hn as <-;
           cbv beta iota zeta delta -[isDigit digitVal Z.mul Z.add Z.of_nat];
           rewrite Ha, Hb, Hc, Hd; reflexivity
         | ]).
  destruct i; discriminate.
Qed.

(** "Mar-2026" parses to 202603. *)
Lemma ParseMonthOrder_valid_witness :
  ParseMonthOrder "Mar-2026" = 202603%Z.
Proof.
  exact (ParseMonthOrder_valid 2 "Mar" "2" "0" "2" "6"
           eq_refl eq_refl eq_refl eq_refl eq_refl).
Defined.

(** ** Builders *)

Section BuilderExtras.
Context {rt : GoRuntime}.

Lemma buildListTable_shape (spec : QuerySpec) (view : RecordView)
    (measure unit_ : string) :
  let t := buildListTable spec view measure unit_ in
  length (Rows t) = Len view /\
  Forall (fun row => length row = length (Columns t)) (Rows t).
Proof.
  cbn zeta. unfold buildListTable.
  destruct (Nat.eqb_spec (Len view) 0) as [Hz|Hz]; simpl.
  - by rewrite Hz.
  - split.
    + rewrite length_fmap. unfold indices. by rewrite length_seq.
    + apply Forall_fmap, Forall_forall. intros i _. simpl.
      by rewrite !length_app, !length_fmap.
Qed.

Lemma buildAggregatedTable_shape (spec : QuerySpec) (groups : list Group)
    (measure unit_ : string) :
  let t := buildAggregatedTable spec groups measure unit_ in
  length (Rows t) = length groups /\
  Forall (fun row => length row = length (Columns t)) (Rows t).
Proof.
  cbn zeta. unfold buildAggregatedTable.
  destruct (Nat.eqb_spec (length groups) 0) as [Hz|Hz]; simpl.
  - by rewrite Hz.
  - split; [by rewrite length_fmap|].
    apply Forall_fmap, Forall_forall. by intros g _.
Qed.

Lemma imap_SName_ext {A} (f : nat -> A -> ChartSeries) (name : A -> string)
    (l : list A) :
  (forall i x, SName (f i x) = name x) ->
  SName <$> imap f l = name <$> l.
Proof.
  revert f. induction l as [|x l IH]; intros f Hf; [done|].
  simpl. rewrite Hf. f_equal. apply IH. intros i y. apply Hf.
Qed.

Lemma imap_Forall {A B} (f : nat -> A -> B) (P : B -> Prop) (l : list A) :
  (forall i x, P (f i x)) -> Forall P (imap f l).
Proof.
  revert f. induction l as [|x l IH]; intros f Hf; simpl.
  - constructor.
  - constructor; [apply Hf|]. apply IH. intros i y. apply Hf.
Qed.

Lemma assignColors_lookup (count i : nat) :
  i < count -> assignColors count !! i = Some (colorAt i).
Proof.
  intros Hi. unfold assignColors.
  by rewrite list_lookup_fmap, lookup_seq_lt.
Qed.

End BuilderExtras.

(** X11. Tables are rectangular.  [BuildTable] returns one row per record
    of the view for a list query and one row per group otherwise, and every
    row has exactly as many cells as the table has columns. *)
Theorem BuildTable_rectangular {rt : GoRuntime} (spec : QuerySpec)
    (groups : list Group) (view : RecordView) (measure unit_ : string) :
  let t := BuildTable spec groups view measure unit_ in
  length (Rows t)
  = (if String.eqb (Aggregation spec) "list" then Len view
     else length groups) /\
  Forall (fun row => length row = length (Columns t)) (Rows t).
Proof.
  cbn zeta. unfold BuildTable.
  destruct (String.eqb (Aggregation spec) "list").
  - apply buildListTable_shape.
  - apply buildAggregatedTable_shape.
Qed.

(** X12. Shape of a chart.  No groups give no chart.  Otherwise a chart is
    built in which every series has one point per group, labelled with the
    groups' labels in the order of the groups; the series have distinct
    names; and there is one colour per series, the i-th being the i-th
    colour of the ten-colour palette taken cyclically. *)
Theorem BuildChart_shape {rt : GoRuntime} (spec : QuerySpec)
    (groups : list Group) :
  (groups = [] -> BuildChart spec groups = None) /\
  (groups <> [] ->
   exists chart, BuildChart spec groups = Some chart /\
     Forall (fun s => PLabel <$> SData s = Label <$> groups) (Series chart) /\
     NoDup (SName <$> Series chart) /\
     length (Colors chart) = length (Series chart) /\
     forall i, i < length (Series chart) ->
       Colors chart !! i
       = Some (default "" (defaultColors !! (i mod length defaultColors)))).
Proof.
  split; [by intros ->|]. intros Hne.
  unfold BuildChart.
  destruct (Nat.eqb_spec (length groups) 0) as [Hz|_].
  { by destruct groups. }
  eexists. split; [reflexivity|]. cbn [Series Colors].
  split_and!.
  - destruct ((2 <=? length (GroupBy spec))%nat && hasSubGroups groups).
    + unfold buildMultiSeries. apply imap_Forall. intros i key. simpl.
      rewrite <- list_fmap_compose. by apply Forall_fmap_ext_1, Forall_forall.
    + unfold buildSingleSeries. constructor; [|constructor]. simpl.
      rewrite <- list_fmap_compose. by apply Forall_fmap_ext_1, Forall_forall.
  - destruct ((2 <=? length (GroupBy spec))%nat && hasSubGroups groups).
    + unfold buildMultiSeries.
      rewrite (imap_SName_ext _ id) by done.
      rewrite list_fmap_id. apply EngineFacts.NoDup_range_map_keys.
    + unfold buildSingleSeries. simpl. apply NoDup_singleton.
  - unfold assignColors. by rewrite length_fmap, length_seq.
  - intros i Hi. by apply assignColors_lookup.
Qed.

(** ** Normalisation of a query *)

Section NormalizeExtras.
Context {rt : GoRuntime}.

(** The three rules of [NormalizeQuerySpec] as one decision: the new intent
    (and visualisation), if any. *)
Definition normalIntent (spec : QuerySpec) : option string :=
  let noGroupBy := Nat.eqb (length (GroupBy spec)) 0 in
  if (String.eqb (Aggregation spec) "max" || String.eqb (Aggregation spec) "min")
     && noGroupBy
  then Some "text"
  else if String.eqb (Aggregation spec) "list"
          && negb (String.eqb (Intent spec) "table")
  then Some "table"
  else if String.eqb (Intent spec) "chart" && noGroupBy
  then Some "text"
  else None.

Lemma eqb_two_values (x a b : string) :
  a <> b -> String.eqb x a = true -> String.eqb x b = false.
Proof.
  intros Hab Ha. apply String.eqb_eq in Ha. subst x.
  by apply String.eqb_neq.
Qed.

Lemma NormalizeQuerySpec_cases (spec : QuerySpec) :
  NormalizeQuerySpec spec
  = match normalIntent spec with
    | Some intent => setIntent spec intent intent
    | None => spec
    end.
Proof.
  unfold NormalizeQuerySpec, normalIntent.
  destruct spec as [intent f cf agg m gb sb lim vis title reply conf].
  cbn [Aggregation Intent GroupBy setIntent QFilters CompareFilters QMeasure
       SortBy Limit Visualize Title Reply Confidence].
  assert (Htc : String.eqb "table" "chart" = false) by reflexivity.
  destruct (String.eqb agg "list") eqn:Hl;
    destruct (String.eqb intent "table") eqn:Ht;
    destruct (String.eqb intent "chart") eqn:Hc;
    try (rewrite (eqb_two_values intent "table" "chart") in Hc
           by (done || discriminate); discriminate);
    destruct (Nat.eqb (length gb) 0) eqn:Hg;
    destruct (String.eqb agg "max" || String.eqb agg "min") eqn:Hmm;
    repeat (cbn [andb negb Aggregation Intent GroupBy setIntent QFilters
                 CompareFilters QMeasure SortBy Limit Visualize Title Reply
                 Confidence];
            rewrite ?Hl, ?Ht, ?Hc, ?Hg, ?Hmm, ?Htc);
    reflexivity.
Qed.

Lemma NormalizeQuerySpec_fixed (spec : QuerySpec) :
  NormalizeQuerySpec (NormalizeQuerySpec spec) = NormalizeQuerySpec spec.
Proof.
  rewrite (NormalizeQuerySpec_cases spec).
  destruct (normalIntent spec) as [intent|] eqn:Hn;
    rewrite NormalizeQuerySpec_cases; [|by rewrite Hn].
  revert Hn. unfold normalIntent.
  destruct spec as [intent0 f cf agg m gb sb lim vis title reply conf].
  cbn [Aggregation Intent GroupBy setIntent QFilters CompareFilters QMeasure
       SortBy Limit Visualize Title Reply Confidence].
  assert (Htt : String.eqb "table" "table" = true) by reflexivity.
  assert (Htc : String.eqb "table" "chart" = false) by reflexivity.
  assert (Hxt : String.eqb "text" "table" = false) by reflexivity.
  assert (Hxc : String.eqb "text" "chart" = false) by reflexivity.
  destruct ((String.eqb agg "max" || String.eqb agg "min")
            && Nat.eqb (length gb) 0) eqn:Hmm; cbn [andb].
  { intros [= <-]. reflexivity. }
  destruct (String.eqb agg "list") eqn:Hl; cbn [andb].
  - destruct (String.eqb intent0 "table") eqn:Ht; cbn [negb].
    + rewrite (eqb_two_values intent0 "table" "chart") by done.
      discriminate.
    + intros [= <-]. rewrite Htt, Htc. reflexivity.
  - destruct (String.eqb intent0 "chart" && Nat.eqb (length gb) 0);
      [|discriminate].
    intros [= <-]. rewrite Hxc. reflexivity.
Qed.

Lemma NormalizeQuerySpec_nonempty (spec : QuerySpec) :
  Intent spec <> "" -> Visualize spec <> "" ->
  Intent (NormalizeQuerySpec spec) <> ""
  /\ Visualize (NormalizeQuerySpec spec) <> ""
  /\ Aggregation (NormalizeQuerySpec spec) = Aggregation spec.
Proof.
  intros Hi Hv. rewrite NormalizeQuerySpec_cases.
  destruct (normalIntent spec) as [intent|] eqn:Hn; [|done].
  assert (intent = "text" \/ intent = "table") as Hval.
  { revert Hn. unfold normalIntent.
    repeat (destruct (_ && _); [intros [= <-]; auto|]). discriminate. }
  destruct spec. cbn [Intent Visualize Aggregation setIntent].
  destruct Hval as [ -> | -> ]; done.
Qed.

End NormalizeExtras.

(** X13. Normalising a query twice is normalising it once. *)
Theorem NormalizeQuerySpec_idempotent {rt : GoRuntime} (spec : QuerySpec) :
  NormalizeQuerySpec (NormalizeQuerySpec spec) = NormalizeQuerySpec spec.
Proof. apply NormalizeQuerySpec_fixed. Qed.

(** X14. What a normalised query satisfies.  Only the intent and the
    visualisation can differ from the input, and either both are left alone
    or both are set to the same value.  In the result a chart intent comes
    with at least one group-by dimension, a list aggregation comes with the
    table intent, and a max or min aggregation without group-by dimension
    comes with the text intent. *)
Theorem NormalizeQuerySpec_post {rt : GoRuntime} (spec : QuerySpec) :
  let out := NormalizeQuerySpec spec in
  (out = spec \/ exists intent, out = setIntent spec intent intent) /\
  (Intent out = "chart" -> GroupBy out <> []) /\
  (Aggregation out = "list" -> Intent out = "table") /\
  (Aggregation out = "max" \/ Aggregation out = "min" ->
   GroupBy out = [] -> Intent out = "text").
Proof.
  cbn zeta. rewrite NormalizeQuerySpec_cases. unfold normalIntent.
  destruct spec as [intent f cf agg m gb sb lim vis title reply conf].
  cbn [Aggregation Intent GroupBy setIntent QFilters CompareFilters QMeasure
       SortBy Limit Visualize Title Reply Confidence].
  assert (Hgb : Nat.eqb (length gb) 0 = true <-> gb = []).
  { rewrite Nat.eqb_eq. by destruct gb. }
  assert (Hmm : String.eqb agg "max" || String.eqb agg "min" = true
                <-> agg = "max" \/ agg = "min").
  { by rewrite orb_true_iff, !String.eqb_eq. }
  destruct ((String.eqb agg "max" || String.eqb agg "min")
            && Nat.eqb (length gb) 0) eqn:H1; cbn [andb].
  { apply andb_true_iff in H1 as [Ha Hg]. apply Hmm in Ha. apply Hgb in Hg.
    cbn [Aggregation Intent GroupBy setIntent].
    split_and!; [right; by eexists|discriminate| |done].
    intros ->. destruct Ha; discriminate. }
  assert (Hno : agg = "max" \/ agg = "min" -> gb = [] -> False).
  { intros Ha Hg. apply Hmm in Ha. apply Hgb in Hg.
    rewrite Ha, Hg in H1. discriminate. }
  destruct (String.eqb agg "list" && negb (String.eqb intent "table")) eqn:H2.
  { cbn [Aggregation Intent GroupBy setIntent].
    split_and!; [right; by eexists|discriminate|done|].
    intros Ha Hg. destruct (Hno Ha Hg). }
  assert (Hlist : agg = "list" -> intent = "table").
  { intros ->. simpl in H2. apply negb_false_iff in H2.
    by apply String.eqb_eq. }
  destruct (String.eqb intent "chart" && Nat.eqb (length gb) 0) eqn:H3.
  { apply andb_true_iff in H3 as [Hc Hg]. apply String.eqb_eq in Hc.
    cbn [Aggregation Intent GroupBy setIntent].
    split_and!; [right; by eexists|discriminate| |done].
    intros Ha. specialize (Hlist Ha). congruence. }
  cbn [Aggregation Intent GroupBy].
  split_and!; [by left| |done|].
  - intros -> ->. done.
  - intros Ha Hg. destruct (Hno Ha Hg).
Qed.

End EngineExtras.

(** * Further properties of the translator's parser *)

Module TranslatorExtras.
Import Engine Translator.

(** X15. Whatever JSON the model returned, a query that [parseResponse]
    accepts is ready for the engine: its intent, aggregation and
    visualisation are not empty, it is already normalised (normalising it
    again changes nothing), and the interpretation is the decoded one. *)
Theorem parseResponse_ready {rt : GoRuntime}
    (json_Unmarshal : string -> TranslateResult * error)
    (firstRunes : nat -> string -> string)
    (response : string) (res : TranslateResult) :
  parseResponse json_Unmarshal firstRunes response = (Some res, None) ->
  Intent (TQuerySpec res) <> "" /\
  Aggregation (TQuerySpec res) <> "" /\
  Visualize (TQuerySpec res) <> "" /\
  NormalizeQuerySpec (TQuerySpec res) = TQuerySpec res /\
  TInterpretation res
  = TInterpretation (fst (json_Unmarshal (stripFences response))).
Proof.
  unfold parseResponse.
  destruct (json_Unmarshal (stripFences response)) as [result [err|]];
    [discriminate|].
  cbn zeta. intros [= <-]. cbn [TQuerySpec TInterpretation fst].
  set (s0 := TQuerySpec result).
  set (s1 := if String.eqb (Intent s0) ""
             then setIntent s0 "text" (Visualize s0) else s0).
  set (s2 := if String.eqb (Aggregation s1) ""
             then setAggregation s1 "sum" else s1).
  set (s3 := if String.eqb (Visualize s2) ""
             then setIntent s2 (Intent s2) (Intent s2) else s2).
  set (s4 := if PrimFloat.eqb (Confidence s3) 0%float
                && PrimFloat.ltb 0%float (IConfidence (TInterpretation result))
             then setConfidence s3 (IConfidence (TInterpretation result))
             else s3).
  assert (H1 : Intent s1 <> "").
  { subst s1. destruct (String.eqb (Intent s0) "") eqn:E; [done|].
    by apply String.eqb_neq. }
  assert (H2 : Intent s2 <> "" /\ Aggregation s2 <> "").
  { subst s2. destruct (String.eqb (Aggregation s1) "") eqn:E.
    - by destruct s1.
    - split; [done|]. by apply String.eqb_neq. }
  assert (H3 : Intent s3 <> "" /\ Aggregation s3 <> "" /\ Visualize s3 <> "").
  { subst s3. destruct H2 as [Hi Ha].
    destruct (String.eqb (Visualize s2) "") eqn:E.
    - by destruct s2.
    - split_and!; [done|done|]. by apply String.eqb_neq. }
  assert (H4 : Intent s4 <> "" /\ Aggregation s4 <> "" /\ Visualize s4 <> "").
  { subst s4. destruct (_ && _); [|done]. by destruct s3. }
  destruct H4 as (Hi & Ha & Hv).
  destruct (EngineExtras.NormalizeQuerySpec_nonempty s4 Hi Hv)
    as (Hi' & Hv' & Ha').
  split_and!; [done|by rewrite Ha'|done| |done].
  apply EngineExtras.NormalizeQuerySpec_fixed.
Qed.

(** A decoder that yields a bare chart query without group-by. *)
Definition bareChart : string -> TranslateResult * error :=
  fun _ =>
    (mkTranslateResult
       (mkQuerySpec "chart" (mkFilters ∅) None "" "" [] "" 0 "" "" ""
                    0%float)
       (mkInterpretation "chart" "A chart" [] [] 0.75%float),
     None).

(** The bare chart query comes out as a text query with the sum
    aggregation, and normalising it again changes nothing. *)
Lemma parseResponse_ready_witness :
  exists res,
    parseResponse (rt := asciiRuntime) bareChart
                  (fun n s => substring 0 n s) "```json {} ```"
    = (Some res, None)
    /\ Intent (TQuerySpec res) = "text"
    /\ Intent (TQuerySpec res) <> ""
    /\ NormalizeQuerySpec (TQuerySpec res) = TQuerySpec res.
Proof.
  pose (res := mkTranslateResult
                 (mkQuerySpec "text" (mkFilters ∅) None "sum" "" [] "" 0
                              "text" "" "" 0.75%float)
                 (mkInterpretation "chart" "A chart" [] [] 0.75%float)).
  assert (H : parseResponse (rt := asciiRuntime) bareChart
                (fun n s => substring 0 n s) "```json {} ```"
              = (Some res, None)) by (vm_compute; reflexivity).
  exists res. split; [exact H|]. split; [reflexivity|].
  destruct (parseResponse_ready (rt := asciiRuntime) bareChart
              (fun n s => substring 0 n s) "```json {} ```" res H)
    as (Hi & _ & _ & Hn & _).
  split; [exact Hi|exact Hn].
Defined.

End TranslatorExtras.

(** * Further properties of schema discovery *)

Module DiscoveryExtras.
Import Schema Discovery.

(** ** Roles *)

Section RoleExtras.

Lemma idb_spec (u n : nat) :
  Nat.eqb u n && (10 <? n)%nat = true <-> u = n /\ 10 < n.
Proof. by rewrite andb_true_iff, Nat.eqb_eq, Nat.ltb_lt. Qed.

Lemma hcb_spec (u n : nat) :
  (n / 2 <? u)%nat && (50 <? u)%nat = true <-> n / 2 < u /\ 50 < u.
Proof. by rewrite andb_true_iff, !Nat.ltb_lt. Qed.

Lemma classifyRole_frame (col : columnAnalysis) (totalRows : nat) :
  let out := classifyRole col totalRows in
  header out = header col /\ key out = key col /\ index out = index col /\
  colType out = colType col /\ uniqueCount out = uniqueCount col /\
  totalCount out = totalCount col /\ nullCount out = nullCount col /\
  sampleVals out = sampleVals col.
Proof.
  cbn zeta. unfold classifyRole.
  destruct (colType col) eqn:Hty;
    repeat match goal with
           | |- context [if ?b then _ else _] => destruct b
           end;
    cbn [header key index colType uniqueCount totalCount nullCount sampleVals
         setSkipped setRole setIsTemporal]; by rewrite ?Hty.
Qed.

Lemma classifyRole_skipped (col : columnAnalysis) (totalRows : nat) :
  let out := classifyRole col totalRows in
  (role out = roleSkipped <->
     ((colType col = typeNumeric \/ colType col = typeString)
      /\ uniqueCount col = totalRows /\ 10 < totalRows)
     \/ (colType col = typeString
         /\ totalRows / 2 < uniqueCount col /\ 50 < uniqueCount col)) /\
  (role out = roleSkipped ->
     (recoverable out = true
      <-> ~ (uniqueCount col = totalRows /\ 10 < totalRows))).
Proof.
  cbn zeta. unfold classifyRole.
  destruct (colType col) eqn:Hty.
  - destruct (Nat.eqb (uniqueCount col) totalRows && (10 <? totalRows)%nat)
      eqn:A.
    + apply idb_spec in A. cbn [role recoverable setSkipped]. split.
      * split; [intros _; left; by auto|done].
      * intros _. split; [done|]. intros Hn. by destruct Hn.
    + assert (HA : ~ (uniqueCount col = totalRows /\ 10 < totalRows)).
      { intros H. apply idb_spec in H. congruence. }
      destruct ((totalRows / 2 <? uniqueCount col)%nat
                && (50 <? uniqueCount col)%nat) eqn:B.
      * apply hcb_spec in B. cbn [role recoverable setSkipped]. split.
        -- split; [intros _; right; by auto|done].
        -- intros _. by split.
      * assert (HB : ~ (totalRows / 2 < uniqueCount col
                        /\ 50 < uniqueCount col)).
        { intros H. apply hcb_spec in H. congruence. }
        cbn [role setRole]. split; [|done].
        split; [done|]. intros [(_ & ? & ?)|(_ & ? & ?)]; tauto.
  - destruct (Nat.eqb (uniqueCount col) totalRows && (10 <? totalRows)%nat)
      eqn:A.
    + apply idb_spec in A. cbn [role recoverable setSkipped]. split.
      * split; [intros _; left; by auto|done].
      * intros _. split; [done|]. intros Hn. by destruct Hn.
    + assert (HA : ~ (uniqueCount col = totalRows /\ 10 < totalRows)).
      { intros H. apply idb_spec in H. congruence. }
      assert (Hno : role (if hasDecimals col then setRole col roleMeasure
                          else if (uniqueCount col <? 20)%nat
                                  && PrimFloat.ltb
                                       (PrimFloat.div
                                          (Engine.float64_of_nat (uniqueCount col))
                                          (Engine.float64_of_nat totalRows))
                                       threshold03
                               then setRole col roleDimension
                               else setRole col roleMeasure) <> roleSkipped).
      { destruct (hasDecimals col); [intros H; discriminate H|].
        match goal with
        | |- context [if ?b then setRole _ roleDimension else _] => destruct b
        end; intros H; discriminate H. }
      split; [|intros Hr; exfalso; apply Hno; exact Hr].
      split; [intros Hr; exfalso; apply Hno; exact Hr|].
      intros [(_ & ? & ?)|(? & _)]; [tauto|discriminate].
  - cbn [role setRole setIsTemporal]. split; [|done].
    split; [done|]. intros [([?|?] & _)|(? & _)]; discriminate.
  - cbn [role setRole]. split; [|done].
    split; [done|]. intros [([?|?] & _)|(? & _)]; discriminate.
Qed.

Lemma classifyRole_dimension (col : columnAnalysis) (totalRows : nat) :
  let out := classifyRole col totalRows in
  (colType col = typeDate \/ colType col = typeBool ->
     role out = roleDimension) /\
  (colType col = typeNumeric -> hasDecimals col = true ->
     role out <> roleDimension).
Proof.
  cbn zeta. unfold classifyRole. split.
  - by intros [ -> | -> ].
  - intros -> ->.
    match goal with
    | |- context [if ?b then setSkipped _ _ _ else _] => destruct b
    end; intros H; discriminate H.
Qed.

End RoleExtras.

(** X16. Which columns [classifyRole] skips, and what it never touches.  A
    column is skipped exactly when it is numeric or string with as many
    distinct values as there are rows, over more than ten rows (an
    identifier), or a string column with more than fifty distinct values that
    are more than half the row count (high cardinality); among the skipped
    ones only the high-cardinality ones that are not identifiers are
    recoverable.  Date and boolean columns always become dimensions, a
    numeric column with decimals never does.  The header, key, index, type,
    counts and samples of the column are left as they are. *)
Theorem classifyRole_roles (col : columnAnalysis) (totalRows : nat) :
  let out := classifyRole col totalRows in
  (role out = roleSkipped <->
     ((colType col = typeNumeric \/ colType col = typeString)
      /\ uniqueCount col = totalRows /\ 10 < totalRows)
     \/ (colType col = typeString
         /\ totalRows / 2 < uniqueCount col /\ 50 < uniqueCount col)) /\
  (role out = roleSkipped ->
     (recoverable out = true
      <-> ~ (uniqueCount col = totalRows /\ 10 < totalRows))) /\
  (colType col = typeDate \/ colType col = typeBool ->
     role out = roleDimension) /\
  (colType col = typeNumeric -> hasDecimals col = true ->
     role out <> roleDimension) /\
  header out = header col /\ key out = key col /\ index out = index col /\
  colType out = colType col /\ uniqueCount out = uniqueCount col /\
  totalCount out = totalCount col /\ nullCount out = nullCount col /\
  sampleVals out = sampleVals col.
Proof.
  cbn zeta.
  destruct (classifyRole_skipped col totalRows) as [H1 H2].
  destruct (classifyRole_dimension col totalRows) as [H3 H4].
  pose proof (classifyRole_frame col totalRows) as H5.
  cbn zeta in H1, H2, H3, H4, H5.
  split; [exact H1|]. split; [exact H2|]. split; [exact H3|].
  split; [exact H4|]. exact H5.
Qed.

(** ** Samples *)

Section SampleExtras.
Context {rt : GoRuntime}.

Lemma string_ltb_total (x y : string) :
  x <> y -> String.ltb y x = false -> String.ltb x y = true.
Proof.
  intros Hne Hyx. unfold String.ltb in *.
  rewrite String.compare_antisym in Hyx.
  destruct (String.compare x y) eqn:E; [|done|discriminate].
  apply String.compare_eq_iff in E. congruence.
Qed.

Lemma sorted_strings (uniqueSet : gmap string bool) :
  let sorted := sort_Slice String.ltb (fst <$> range_map uniqueSet) in
  NoDup sorted /\
  (forall x, x ∈ sorted <-> is_Some (uniqueSet !! x)) /\
  length sorted = size uniqueSet /\
  StronglySorted (fun a b => String.ltb a b = true) sorted.
Proof.
  cbn zeta.
  pose proof (sort_Slice_perm string String.ltb (fst <$> range_map uniqueSet))
    as Hperm.
  pose proof (sort_Slice_sorted string String.ltb (fst <$> range_map uniqueSet)
                OrderFacts.string_ltb_strict_weak) as Hsorted.
  assert (Hnd : NoDup (sort_Slice String.ltb (fst <$> range_map uniqueSet))).
  { rewrite Hperm. apply EngineFacts.NoDup_range_map_keys. }
  split_and!.
  - done.
  - intros x. rewrite Hperm, list_elem_of_fmap. split.
    + intros ([k v] & -> & Hin). simpl.
      apply EngineFacts.elem_of_range_map in Hin. by eexists.
    + intros [v Hv]. exists (x, v). split; [done|].
      by apply EngineFacts.elem_of_range_map.
  - by rewrite Hperm, length_fmap, EngineFacts.length_range_map.
  - unfold sorted_by in Hsorted. revert Hnd Hsorted.
    generalize (sort_Slice String.ltb (fst <$> range_map uniqueSet)).
    intros l Hnd Hs. induction Hs as [|a l Hs IH Hall]; constructor.
    + apply IH. by apply NoDup_cons in Hnd as [_ ?].
    + apply NoDup_cons in Hnd as [Ha _].
      rewrite List.Forall_forall in Hall. apply List.Forall_forall.
      intros b Hb. apply string_ltb_total; [|by apply Hall].
      intros ->. apply Ha. by apply list_elem_of_In.
Qed.

Lemma StronglySorted_take_drop {A} (R : A -> A -> Prop) (l : list A) (n : nat) :
  StronglySorted R l ->
  forall x y, x ∈ take n l -> y ∈ drop n l -> R x y.
Proof.
  intros Hs. revert n. induction Hs as [|a l Hs IH Hall]; intros n x y Hx Hy.
  - rewrite take_nil in Hx. by apply elem_of_nil in Hx.
  - destruct n as [|n]; [by apply elem_of_nil in Hx|].
    simpl in Hx, Hy. apply elem_of_cons in Hx as [ -> |Hx].
    + rewrite List.Forall_forall in Hall. apply Hall.
      apply list_elem_of_In. by apply (subseteq_drop n l).
    + by apply (IH n).
Qed.

End SampleExtras.

(** X17. [collectSamples] returns the [maxSamples] bytewise smallest values
    of the set (all of them if there are fewer): the result has
    min(maxSamples, size) values, all from the set and all different, in
    strictly ascending bytewise order, and every value of the set that was
    left out is greater than every value returned. *)
Theorem collectSamples_spec {rt : GoRuntime} (uniqueSet : gmap string bool)
    (maxSamples : nat) :
  let samples := collectSamples uniqueSet maxSamples in
  length samples = Nat.min maxSamples (size uniqueSet) /\
  NoDup samples /\
  (forall x, x ∈ samples -> is_Some (uniqueSet !! x)) /\
  StronglySorted (fun a b => String.ltb a b = true) samples /\
  (forall x y, x ∈ samples -> is_Some (uniqueSet !! y) -> y ∉ samples ->
               String.ltb x y = true).
Proof.
  cbn zeta. unfold collectSamples.
  destruct (sorted_strings uniqueSet) as (Hnd & Hmem & Hlen & Hs).
  cbn zeta in Hnd, Hmem, Hlen, Hs.
  set (sorted := sort_Slice String.ltb (fst <$> range_map uniqueSet)) in *.
  split_and!.
  - by rewrite length_take, Hlen.
  - apply (sublist_NoDup _ sorted); [done|apply sublist_take].
  - intros x Hx. apply Hmem. by apply (subseteq_take maxSamples sorted).
  - revert Hs. generalize sorted. intros l Hs. revert maxSamples.
    induction Hs as [|a l Hs IH Hall]; intros [|n]; simpl; try constructor.
    + apply IH.
    + rewrite List.Forall_forall in Hall. apply List.Forall_forall.
      intros b Hb. apply Hall. apply list_elem_of_In.
      apply list_elem_of_In in Hb. by apply (subseteq_take n l).
  - intros x y Hx Hy Hny.
    apply (StronglySorted_take_drop _ sorted maxSamples Hs x y Hx).
    apply Hmem in Hy. rewrite <- (take_drop maxSamples sorted) in Hy.
    apply elem_of_app in Hy as [Hy|Hy]; [done|exact Hy].
Qed.

(** ** Column analysis *)

Section ColumnExtras.
Context {rt : GoRuntime}.
Variable detectType : list string -> columnType.
Variable detectCurrencyCodes : list string -> bool.
Variable detectTemporalPattern : list string -> bool * string.
Variable toSnakeCase : string -> string.
Variable toDisplayName : string -> string.

Lemma valuesStep_foldl_length (idx : nat) (rows : list (list string))
    (st : list string * nat) :
  let out := foldl (DiscoveryFacts.valuesStep idx) st rows in
  length (fst out) + snd out = length (fst st) + snd st + length rows.
Proof.
  cbn zeta. revert st. induction rows as [|row rows IH]; intros st; simpl.
  - lia.
  - rewrite IH. unfold DiscoveryFacts.valuesStep.
    destruct (row !! idx) as [cell|]; simpl; [|lia].
    destruct (isNull (TrimSpace cell)); simpl; [lia|].
    rewrite length_app. simpl. lia.
Qed.

Lemma columnValues_length (idx : nat) (rows : list (list string)) :
  length (fst (columnValues idx rows)) + snd (columnValues idx rows)
  = length rows.
Proof.
  unfold columnValues.
  change (foldl _ ([], 0) rows)
    with (foldl (DiscoveryFacts.valuesStep idx) ([], 0) rows).
  by rewrite valuesStep_foldl_length.
Qed.

Lemma size_list_to_set_le (l : list string) :
  size (list_to_set l : gset string) <= length l.
Proof.
  induction l as [|x l IH].
  - rewrite list_to_set_nil, size_empty. simpl. lia.
  - rewrite list_to_set_cons, size_union_alt, size_singleton. simpl length.
    assert (size ((list_to_set l : gset string) ∖ {[x]})
            <= size (list_to_set l : gset string)).
    { apply subseteq_size. intros y Hy. by apply elem_of_difference in Hy as [? _]. }
    lia.
Qed.

Lemma uniqueSetOf_size (values : list string) :
  size (uniqueSetOf values) <= length values /\
  (size (uniqueSetOf values) = 0 <-> values = []).
Proof.
  assert (Hdom : dom (uniqueSetOf values) = list_to_set values).
  { unfold uniqueSetOf.
    by rewrite DiscoveryFacts.uniqueSet_foldl_dom, dom_empty_L,
               (left_id_L ∅ (∪)). }
  rewrite <- size_dom, Hdom. split; [apply size_list_to_set_le|].
  split.
  - intros Hz. apply size_empty_iff in Hz.
    destruct values as [|x l]; [done|]. exfalso.
    assert (x ∈ (list_to_set (x :: l) : gset string)) as Hx
      by (rewrite list_to_set_cons; apply elem_of_union; left;
          by apply elem_of_singleton).
    rewrite Hz in Hx. by apply elem_of_empty in Hx.
  - intros ->. by rewrite list_to_set_nil, size_empty.
Qed.

Lemma collectSamples_length (uniqueSet : gmap string bool) (n : nat) :
  length (collectSamples uniqueSet n) = Nat.min n (size uniqueSet).
Proof.
  unfold collectSamples.
  destruct (sorted_strings uniqueSet) as (_ & _ & Hlen & _).
  cbn zeta in Hlen. by rewrite length_take, Hlen.
Qed.

Lemma analyzeColumn_fields (hdr : string) (idx : nat)
    (rows : list (list string)) :
  let col := analyzeColumn detectType detectCurrencyCodes
               detectTemporalPattern toSnakeCase hdr idx rows (length rows) in
  header col = hdr /\ key col = toSnakeCase hdr /\ index col = idx /\
  totalCount col = length rows /\
  uniqueCount col + nullCount col <= length rows /\
  length (sampleVals col) = Nat.min 10 (uniqueCount col) /\
  (uniqueCount col = 0 <-> nullCount col = length rows) /\
  (uniqueCount col = 0 ->
     role col = roleSkipped /\ skipReason col = "All values are empty/null"
     /\ recoverable col = false).
Proof.
  cbn zeta. unfold analyzeColumn.
  pose proof (columnValues_length idx rows) as Hlen.
  destruct (columnValues idx rows) as [values nulls]. cbn [fst snd] in Hlen.
  destruct (uniqueSetOf_size values) as [Hle Hz].
  destruct (Nat.eqb_spec (length values) 0) as [Hv|Hv].
  - assert (values = []) as -> by (by destruct values).
    cbn [header key index totalCount uniqueCount nullCount sampleVals role
         skipReason recoverable setSkipped].
    assert (size (uniqueSetOf []) = 0) as -> by (by apply Hz).
    simpl in Hlen. split_and!; try done; lia.
  - set (col0 := mkColumn hdr (toSnakeCase hdr) idx (detectType values)
                   roleDimension "" false (size (uniqueSetOf values))
                   (length rows) nulls (collectSamples (uniqueSetOf values) 10)
                   _ _ _ _ "").
    destruct (DiscoveryExtras.classifyRole_frame col0 (length rows))
      as (H1 & H2 & H3 & H4 & H5 & H6 & H7 & H8).
    cbn [header key index totalCount uniqueCount nullCount sampleVals role
         skipReason recoverable setCardinalityHint].
    rewrite H1, H2, H3, H5, H6, H7, H8. subst col0.
    cbn [header key index totalCount uniqueCount nullCount sampleVals].
    assert (Hpos : size (uniqueSetOf values) <> 0).
    { intros H0. apply Hz in H0. subst values. by apply Hv. }
    split_and!; try done.
    + lia.
    + apply collectSamples_length.
    + split; [done|]. intros ->. destruct values; [done|simpl in Hlen; lia].
Qed.

End ColumnExtras.

(** X18. The statistics that [analyzeColumn] records are consistent.  It
    keeps the header, derives the key from it, and records the column index
    and the number of rows; the distinct values and the nulls together never
    exceed the rows; it keeps min(10, distinct values) samples; and a column
    has no distinct value exactly when every row is null for it (cell
    missing, empty or a null marker), in which case it is skipped as
    "All values are empty/null" and is not recoverable.  This holds for any
    type, currency and temporal recognisers. *)
Theorem analyzeColumn_counts {rt : GoRuntime}
    (detectType : list string -> columnType)
    (detectCurrencyCodes : list string -> bool)
    (detectTemporalPattern : list string -> bool * string)
    (toSnakeCase : string -> string)
    (hdr : string) (idx : nat) (rows : list (list string)) :
  let col := analyzeColumn detectType detectCurrencyCodes
               detectTemporalPattern toSnakeCase hdr idx rows (length rows) in
  header col = hdr /\ key col = toSnakeCase hdr /\ index col = idx /\
  totalCount col = length rows /\
  uniqueCount col + nullCount col <= length rows /\
  length (sampleVals col) = Nat.min 10 (uniqueCount col) /\
  (uniqueCount col = 0 <-> nullCount col = length rows) /\
  (uniqueCount col = 0 ->
     role col = roleSkipped /\ skipReason col = "All values are empty/null"
     /\ recoverable col = false).
Proof.
  exact (analyzeColumn_fields detectType detectCurrencyCodes
           detectTemporalPattern toSnakeCase hdr idx rows).
Qed.

(** ** Every column is placed once *)

Section PartitionExtras.
Context {rt : GoRuntime}.
Variable detectType : list string -> columnType.
Variable detectCurrencyCodes : list string -> bool.
Variable detectTemporalPattern : list string -> bool * string.
Variable toSnakeCase : string -> string.
Variable toDisplayName : string -> string.

(** The keys of the columns placed so far: dimensions, measures, and the
    keys that the skipped headers stand for. *)
Definition placedKeys
    (st : list DimensionMeta * list MeasureMeta * list SkippedColumn)
    : list string :=
  (Key <$> fst (fst st)) ++ (MKey <$> snd (fst st))
  ++ (toSnakeCase <$> (Column <$> snd st)).

Lemma placeStep_keys (recoverSet : gmap string bool)
    (st : list DimensionMeta * list MeasureMeta * list SkippedColumn)
    (col : columnAnalysis) :
  key col = toSnakeCase (header col) ->
  Permutation
    (placedKeys (DiscoveryFacts.placeStep toDisplayName recoverSet st col))
    (key col :: placedKeys st).
Proof.
  intros Hk. destruct st as [[d m] s].
  unfold DiscoveryFacts.placeStep, placedKeys.
  destruct (role col); [| |destruct (_ || _)]; cbn [fst snd].
  - rewrite fmap_app. simpl. rewrite <- app_assoc. simpl.
    by rewrite <- Permutation_middle.
  - rewrite fmap_app. simpl. rewrite <- !app_assoc. simpl.
    by rewrite <- !Permutation_middle.
  - rewrite fmap_app. simpl. rewrite <- app_assoc. simpl.
    by rewrite <- Permutation_middle.
  - rewrite !fmap_app. simpl. rewrite <- Hk.
    rewrite !app_assoc. by rewrite <- Permutation_cons_append.
Qed.

Lemma placeStep_foldl_keys (recoverSet : gmap string bool)
    (columns : list columnAnalysis)
    (st : list DimensionMeta * list MeasureMeta * list SkippedColumn) :
  Forall (fun col => key col = toSnakeCase (header col)) columns ->
  Permutation
    (placedKeys (foldl (DiscoveryFacts.placeStep toDisplayName recoverSet)
                       st columns))
    ((key <$> columns) ++ placedKeys st).
Proof.
  revert st. induction columns as [|col columns IH]; intros st Hall.
  - done.
  - apply Forall_cons in Hall as [Hk Hall]. cbn [foldl].
    rewrite IH by done. rewrite placeStep_keys by done.
    rewrite fmap_cons. simpl. by rewrite <- Permutation_middle.
Qed.

Lemma imap_analyze_keys (rows : list (list string)) (n : nat)
    (headers : list string) (k : nat) :
  let columns :=
    imap (fun i hdr =>
            analyzeColumn detectType detectCurrencyCodes detectTemporalPattern
                          toSnakeCase hdr (k + i) rows (length rows))
         headers in
  key <$> columns = toSnakeCase <$> headers /\
  Forall (fun col => key col = toSnakeCase (header col)) columns.
Proof.
  cbn zeta. revert k. induction headers as [|hdr headers IH]; intros k.
  - split; [done|constructor].
  - cbn [imap]. rewrite !fmap_cons.
    destruct (analyzeColumn_fields detectType detectCurrencyCodes
                detectTemporalPattern toSnakeCase hdr (k + 0) rows)
      as (Hh & Hk & _).
    cbn zeta in Hh, Hk.
    assert (Hext : imap ((fun i hdr0 =>
                      analyzeColumn detectType detectCurrencyCodes
                        detectTemporalPattern toSnakeCase hdr0 (k + i) rows
                        (length rows)) ∘ S) headers
                   = imap (fun i hdr0 =>
                      analyzeColumn detectType detectCurrencyCodes
                        detectTemporalPattern toSnakeCase hdr0 (S k + i) rows
                        (length rows)) headers).
    { apply imap_ext. intros i x _. simpl. f_equal. lia. }
    rewrite Hext. destruct (IH (S k)) as [IH1 IH2].
    split.
    + by rewrite Hk, IH1.
    + constructor; [by rewrite Hk, Hh|done].
Qed.

Lemma detectHierarchies_keys (dimensions : list DimensionMeta)
    (rows : list (list string)) (headers : list string)
    (columns : list columnAnalysis) :
  Key <$> detectHierarchies dimensions rows headers columns
  = Key <$> dimensions.
Proof.
  unfold detectHierarchies.
  assert (Hgen : forall (f : nat -> DimensionMeta -> DimensionMeta)
                        (l : list DimensionMeta),
            (forall i d, Key (f i d) = Key d) -> Key <$> imap f l = Key <$> l).
  { intros f l. revert f. induction l as [|d l IH]; intros f Hf; [done|].
    cbn [imap]. rewrite !fmap_cons, Hf. f_equal. apply IH.
    intros i d'. apply Hf. }
  apply Hgen. intros i d.
  destruct (dimIndices columns !! Key d); [|done].
  by destruct (String.eqb _ "").
Qed.

End PartitionExtras.

(** X19. Discovery accounts for every column exactly once.  With at least
    one header and one row [Discover] succeeds, and the keys of its
    dimensions, the keys of its measures and the keys of its skipped headers
    together are the keys of the CSV headers plus the synthetic
    [record_count], each as often as it occurs; so [record_count] is always
    a measure key, and [GetDefaultMeasure] always names a measure of the
    schema. *)
Theorem Discover_partition {rt : GoRuntime}
    (detectType : list string -> columnType)
    (detectCurrencyCodes : list string -> bool)
    (detectTemporalPattern : list string -> bool * string)
    (toSnakeCase toDisplayName : string -> string)
    (headers : list string) (rows : list (list string))
    (opt : DiscoverOptions) (now : string) :
  headers <> [] -> rows <> [] ->
  exists cfg,
    Discover detectType detectCurrencyCodes detectTemporalPattern toSnakeCase
             toDisplayName headers rows opt now = (Some cfg, None) /\
    Permutation
      (SchemaConfig.DimensionKeys cfg ++ SchemaConfig.MeasureKeys cfg
       ++ (toSnakeCase <$> (Column <$> SkippedColumns cfg)))
      ((toSnakeCase <$> headers) ++ ["record_count"]) /\
    "record_count" ∈ SchemaConfig.MeasureKeys cfg /\
    SchemaConfig.GetDefaultMeasure cfg ∈ SchemaConfig.MeasureKeys cfg.
Proof.
  intros Hh Hr. unfold Discover.
  destruct (Nat.eqb_spec (length headers) 0) as [Hz|_];
    [by destruct headers|].
  destruct (Nat.eqb_spec (length rows) 0) as [Hz|_]; [by destruct rows|].
  set (columns := imap (fun i hdr =>
                          analyzeColumn detectType detectCurrencyCodes
                            detectTemporalPattern toSnakeCase hdr i rows
                            (length rows)) headers).
  set (recoverSet := foldl _ ∅ (RecoverColumns opt)).
  destruct (imap_analyze_keys detectType detectCurrencyCodes
              detectTemporalPattern toSnakeCase rows (length rows) headers 0)
    as [Hkeys Hall]. cbn zeta in Hkeys, Hall.
  change (imap _ headers) with columns in Hkeys, Hall.
  pose proof (placeStep_foldl_keys toSnakeCase toDisplayName recoverSet
                columns ([], [], []) Hall) as Hperm.
  change (foldl (DiscoveryFacts.placeStep toDisplayName recoverSet)
                ([], [], []) columns)
    with (placeColumns toDisplayName recoverSet columns) in Hperm.
  destruct (placeColumns toDisplayName recoverSet columns) as [[d m] s].
  unfold placedKeys in Hperm. cbn [fst snd] in Hperm.
  rewrite Hkeys in Hperm. simpl in Hperm. rewrite app_nil_r in Hperm.
  eexists. split; [reflexivity|].
  unfold SchemaConfig.DimensionKeys, SchemaConfig.MeasureKeys,
         SchemaConfig.GetDefaultMeasure.
  cbn [Dimensions Measures SkippedColumns].
  rewrite detectHierarchies_keys, fmap_app.
  change (MKey <$> [mkMeasureMeta "record_count" "Record Count"
                      "Number of records (auto-generated)" "" false true
                      ["count"] "count" ""])
    with ["record_count"].
  split_and!.
  - rewrite <- Hperm, <- (app_assoc (MKey <$> m)).
    rewrite (Permutation_app_comm ["record_count"]).
    by rewrite !app_assoc.
  - apply elem_of_app. right. by apply list_elem_of_singleton.
  - destruct m as [|m0 m]; simpl.
    + by apply list_elem_of_singleton.
    + by left.
Qed.

(** The ticket table: the ticket number is skipped, the status is a
    dimension, and [record_count] is the only measure. *)
Lemma Discover_partition_witness :
  exists cfg,
    Discover (rt := asciiRuntime) (fun _ => typeString) (fun _ => false)
             (fun _ => (false, "")) (ToLower (GoRuntime := asciiRuntime))
             (fun s => s) ["Ticket"; "Status"] DiscoveryFacts.ticketRows
             (mkDiscoverOptions 1000 [] "") "2026-01-01T00:00:00Z"
    = (Some cfg, None) /\
    Permutation
      (SchemaConfig.DimensionKeys cfg ++ SchemaConfig.MeasureKeys cfg
       ++ (ToLower (GoRuntime := asciiRuntime) <$> (Column <$> SkippedColumns cfg)))
      ["ticket"; "status"; "record_count"] /\
    "record_count" ∈ SchemaConfig.MeasureKeys cfg /\
    SchemaConfig.GetDefaultMeasure cfg ∈ SchemaConfig.MeasureKeys cfg.
Proof.
  apply (Discover_partition (rt := asciiRuntime) (fun _ => typeString)
           (fun _ => false) (fun _ => (false, ""))
           (ToLower (GoRuntime := asciiRuntime)) (fun s => s)
           ["Ticket"; "Status"] DiscoveryFacts.ticketRows
           (mkDiscoverOptions 1000 [] "") "2026-01-01T00:00:00Z").
  - discriminate.
  - discriminate.
Defined.

(** ** Hierarchies have no cycles *)

Section HierarchyExtras.
Context {rt : GoRuntime}.

(** [parent] is recorded as the parent of a dimension with key [child]. *)
Definition parentLink (out : list DimensionMeta) (child parent : string)
    : Prop :=
  parent <> "" /\ exists d, d ∈ out /\ Key d = child /\ Parent d = parent.

Lemma detectHierarchies_link (dimensions : list DimensionMeta)
    (rows : list (list string)) (headers : list string)
    (columns : list columnAnalysis) (c p : string) :
  (forall d, d ∈ dimensions -> Parent d = "") ->
  parentLink (detectHierarchies dimensions rows headers columns) c p ->
  (exists dj, dj ∈ dimensions /\ Key dj = p) /\
  DiscoveryFacts.uniquesOf columns p < DiscoveryFacts.uniquesOf columns c.
Proof.
  intros Hnone (Hp & d' & Hin & Hkey & Hpar).
  apply list_elem_of_lookup in Hin as [i Hi].
  unfold detectHierarchies in Hi. rewrite list_lookup_imap in Hi.
  destruct (dimensions !! i) as [d|] eqn:Hd; [|discriminate].
  cbn [fmap option_fmap option_map] in Hi. injection Hi as Hi.
  assert (Hd0 : Parent d = "").
  { apply Hnone. by eapply list_elem_of_lookup_2. }
  destruct (dimIndices columns !! Key d) as [childIdx|] eqn:Hidx.
  2:{ subst d'. congruence. }
  unfold bestParent in Hi.
  set (cand := DiscoveryFacts.candidateb dimensions rows columns i childIdx
                                         (Key d)) in *.
  assert (Hfold :
    foldl (parentStep dimensions rows columns i childIdx (Key d)) ("", 0)
          (seq 0 (length dimensions))
    = foldl (fun (best : string * nat) j =>
               if cand j && (snd best
                             <? DiscoveryFacts.uniquesAt dimensions columns j)%nat
               then (DiscoveryFacts.keyAt dimensions j,
                     DiscoveryFacts.uniquesAt dimensions columns j)
               else best)
            ("", 0) (seq 0 (length dimensions))).
  { apply DiscoveryFacts.foldl_pointwise. intros best j.
    apply DiscoveryFacts.parentStep_candidateb. }
  rewrite Hfold in Hi. clear Hfold.
  assert (Hpos : forall j, cand j = true
                           -> 0 < DiscoveryFacts.uniquesAt dimensions columns j).
  { intros j Hc. apply DiscoveryFacts.candidateb_spec in Hc.
    destruct Hc as (_ & _ & pIdx & _ & H0 & _). exact H0. }
  destruct (DiscoveryFacts.argmax_scan cand
              (DiscoveryFacts.uniquesAt dimensions columns)
              (DiscoveryFacts.keyAt dimensions) (length dimensions) Hpos)
    as [[_ Hb]|(j & Hj & Hc & Hb & _)]; cbn zeta in Hb; rewrite Hb in Hi;
    cbn [fst] in Hi.
  - simpl in Hi. subst d'. congruence.
  - destruct (String.eqb (DiscoveryFacts.keyAt dimensions j) "") eqn:He.
    { subst d'. congruence. }
    subst d'. cbn [Parent Key setParent] in Hkey, Hpar. subst c p.
    apply DiscoveryFacts.candidateb_spec in Hc.
    destruct Hc as (_ & _ & pIdx & _ & _ & Hlt & _).
    unfold DiscoveryFacts.uniquesAt in Hlt. split; [|exact Hlt].
    destruct (lookup_lt_is_Some_2 dimensions j Hj) as [dj Hdj].
    exists dj. split; [by eapply list_elem_of_lookup_2|].
    unfold DiscoveryFacts.keyAt. by rewrite Hdj.
Qed.

Lemma parentLink_tc_decreasing (dimensions : list DimensionMeta)
    (rows : list (list string)) (headers : list string)
    (columns : list columnAnalysis) (a b : string) :
  (forall d, d ∈ dimensions -> Parent d = "") ->
  tc (parentLink (detectHierarchies dimensions rows headers columns)) a b ->
  DiscoveryFacts.uniquesOf columns b < DiscoveryFacts.uniquesOf columns a.
Proof.
  intros Hnone Htc. induction Htc as [a b H|a b c H _ IH].
  - by apply (detectHierarchies_link dimensions rows headers columns a b Hnone)
      in H as [_ ?].
  - apply (detectHierarchies_link dimensions rows headers columns a b Hnone)
      in H as [_ ?]. lia.
Qed.

End HierarchyExtras.

(** X20. The hierarchy that detection builds has no cycle.  Starting from
    dimensions without parents, every parent that [detectHierarchies]
    records is the key of a dimension, and has strictly fewer distinct
    values than its child; hence no dimension is its own ancestor. *)
Theorem detectHierarchies_acyclic {rt : GoRuntime}
    (dimensions : list DimensionMeta) (rows : list (list string))
    (headers : list string) (columns : list columnAnalysis) :
  (forall d, d ∈ dimensions -> Parent d = "") ->
  let out := detectHierarchies dimensions rows headers columns in
  (forall c p, parentLink out c p ->
     (exists dj, dj ∈ dimensions /\ Key dj = p) /\
     DiscoveryFacts.uniquesOf columns p < DiscoveryFacts.uniquesOf columns c)
  /\ (forall k, ~ tc (parentLink out) k k).
Proof.
  intros Hnone. cbn zeta. split.
  - intros c p. by apply detectHierarchies_link.
  - intros k Htc.
    pose proof (parentLink_tc_decreasing dimensions rows headers columns
                  k k Hnone Htc). lia.
Qed.

(** In the finance table [field] is not its own ancestor. *)
Lemma detectHierarchies_acyclic_witness :
  ~ tc (parentLink
          (detectHierarchies (rt := asciiRuntime) DiscoveryFacts.financeDims
             DiscoveryFacts.financeRows ["category"; "field"]
             DiscoveryFacts.financeCols))
       "field" "field".
Proof.
  refine (proj2 (detectHierarchies_acyclic (rt := asciiRuntime)
                   DiscoveryFacts.financeDims DiscoveryFacts.financeRows
                   ["category"; "field"] DiscoveryFacts.financeCols _)
                "field").
  intros d Hd. unfold DiscoveryFacts.financeDims in Hd.
  apply elem_of_cons in Hd as [ -> |Hd]; [reflexivity|].
  apply list_elem_of_singleton in Hd. subst d. reflexivity.
Defined.

End DiscoveryExtras.

(** * Further properties of the CSV helper *)

Module HelpersExtras.
Import Schema Helpers.

Section CsvExtras.
Context {rt : GoRuntime}.
Variable parseFloat : string -> option float.













End CsvExtras.


End HelpersExtras.

(** * Further properties of refinement *)

Module RefineExtras.
Import Schema Refine.

Section PayloadExtras.
Context {rt : GoRuntime}.

Lemma run_bind {A B} (m : M A) (k : A -> M B) (h : heap) :
  bind m k h = k (fst (m h)) (snd (m h)).
Proof. unfold bind. by destruct (m h). Qed.

(** Reading a limited slice gives the first elements of the full read. *)
Lemma getStrings_limitSamples (s : slice) (max : nat) (h : heap) :
  fst (getStrings (limitSamples s max) h) = take max (fst (getStrings s h)).
Proof.
  unfold limitSamples, getStrings. cbn [fst].
  destruct (Nat.leb_spec (len s) max) as [Hle|Hgt].
  - destruct (base s) as [b|]; [|by rewrite take_nil].
    destruct (h !! b) as [[]|]; try by rewrite take_nil.
    rewrite take_take. by replace (max `min` len s) with (len s) by lia.
  - cbn [base len]. destruct (base s) as [b|]; [|by rewrite take_nil].
    destruct (h !! b) as [[]|]; try by rewrite take_nil.
    rewrite take_take. by replace (max `min` len s) with max by lia.
Qed.

(** The column of a dimension, given what its samples read. *)
Definition dimColumn (h : heap) (dm : DimensionMeta) : refineColumn :=
  mkRefineColumn (DisplayName dm) (Key dm) "dimension"
    (if IsTemporal dm then "temporal" else "string")
    (take 5 (fst (getStrings (SampleValues dm) h)))
    (estimateUnique (CardinalityHint dm))
    (IsTemporal dm) (IsCurrencyCode dm) (Parent dm).

Lemma dimCols_run (dims : list DimensionMeta) (h : heap) :
  foldr (fun dm (rest : M (list refineColumn)) =>
           let* samples := getStrings (limitSamples (SampleValues dm) 5) in
           let* cols := rest in
           ret (mkRefineColumn (DisplayName dm) (Key dm) "dimension"
                  (if IsTemporal dm then "temporal" else "string")
                  samples (estimateUnique (CardinalityHint dm))
                  (IsTemporal dm) (IsCurrencyCode dm) (Parent dm) :: cols))
        (ret []) dims h
  = (dimColumn h <$> dims, h).
Proof.
  induction dims as [|dm dims IH]; cbn [foldr]; [done|].
  rewrite run_bind.
  assert (Hs : snd (getStrings (limitSamples (SampleValues dm) 5) h) = h)
    by done.
  rewrite Hs, run_bind, IH. cbn [fst snd ret fmap list_fmap].
  unfold dimColumn at 1. by rewrite getStrings_limitSamples.
Qed.

Lemma buildRefinePayload_run (draft : loc) (h : heap) :
  let d := fst (getConfig draft h) in
  let dims := fst (getDims (Dimensions d) h) in
  let meas := fst (getMeasures (Measures d) h) in
  snd (buildRefinePayload draft h) = h /\
  PColumns (fst (buildRefinePayload draft h))
  = (dimColumn h <$> dims)
    ++ omap (fun m => if IsSynthetic m then None
                      else Some (mkRefineColumn (MDisplayName m) (MKey m)
                                   "measure" "numeric" [] 0 false false ""))
            meas.
Proof.
  intros d dims meas. split; [apply RefineFacts.reader_buildRefinePayload|].
  unfold buildRefinePayload.
  rewrite run_bind. change (snd (getConfig draft h)) with h. fold d.
  rewrite run_bind. change (snd (getDims (Dimensions d) h)) with h. fold dims.
  rewrite run_bind. change (snd (getMeasures (Measures d) h)) with h.
  fold meas.
  rewrite run_bind. change (snd (getSkipped (SkippedColumns d) h)) with h.
  rewrite run_bind.
  assert (Hc : snd ((match Currency d with
                     | Some cp => let* c := getCurrency cp in ret (Enabled c)
                     | None => ret false
                     end) h) = h).
  { by destruct (Currency d). }
  rewrite Hc. rewrite run_bind, dimCols_run. by cbn [fst snd ret PColumns].
Qed.

Lemma omap_measure_keys (meas : list MeasureMeta) :
  rcKey <$> omap (fun m => if IsSynthetic m then None
                           else Some (mkRefineColumn (MDisplayName m) (MKey m)
                                        "measure" "numeric" [] 0 false false
                                        ""))
                 meas
  = MKey <$> List.filter (fun m => negb (IsSynthetic m)) meas.
Proof.
  induction meas as [|m meas IH]; [done|].
  cbn [omap list_omap List.filter]. destruct (IsSynthetic m); cbn; [done|].
  by f_equal.
Qed.

Lemma omap_measure_plain (meas : list MeasureMeta) :
  Forall (fun c => rcRole c = "measure" /\ rcSamples c = [])
    (omap (fun m => if IsSynthetic m then None
                    else Some (mkRefineColumn (MDisplayName m) (MKey m)
                                 "measure" "numeric" [] 0 false false ""))
          meas).
Proof.
  induction meas as [|m meas IH]; [constructor|].
  cbn [omap list_omap]. destruct (IsSynthetic m); cbn; [done|].
  by constructor.
Qed.

End PayloadExtras.

(** X22. The payload sent for refinement is built without writing to the
    store.  It lists the draft's dimensions in order and then the measures
    that are not synthetic, under their own keys; a dimension's column
    carries the first five of its sample values, a measure's column none. *)
Theorem buildRefinePayload_columns {rt : GoRuntime} (draft : loc) (h : heap) :
  let d := fst (getConfig draft h) in
  let dims := fst (getDims (Dimensions d) h) in
  let meas := fst (getMeasures (Measures d) h) in
  let cols := PColumns (fst (buildRefinePayload draft h)) in
  snd (buildRefinePayload draft h) = h /\
  rcKey <$> cols
  = (Key <$> dims) ++ (MKey <$> List.filter (fun m => negb (IsSynthetic m)) meas)
  /\ (forall i dm, dims !! i = Some dm ->
        exists c, cols !! i = Some c /\ rcRole c = "dimension" /\
          rcSamples c = take 5 (fst (getStrings (SampleValues dm) h)))
  /\ (forall i c, cols !! i = Some c -> length dims <= i ->
        rcRole c = "measure" /\ rcSamples c = [])
  /\ Forall (fun c => length (rcSamples c) <= 5) cols.
Proof.
  intros d dims meas cols.
  destruct (buildRefinePayload_run draft h) as [Hh Hcols].
  fold d dims meas in Hcols. fold cols in Hcols.
  split; [exact Hh|]. rewrite Hcols. split_and!.
  - rewrite fmap_app, omap_measure_keys. f_equal.
    rewrite <- list_fmap_compose. by apply list_fmap_ext.
  - intros i dm Hi. exists (dimColumn h dm). split; [|done].
    rewrite lookup_app_l by (rewrite length_fmap; by eapply lookup_lt_Some).
    by rewrite list_lookup_fmap, Hi.
  - intros i c Hi Hge.
    rewrite lookup_app_r in Hi by (by rewrite length_fmap).
    apply list_elem_of_lookup_2 in Hi.
    by apply (proj1 (Forall_forall _ _) (omap_measure_plain meas)).
  - apply Forall_app. split.
    + apply Forall_fmap, Forall_forall. intros dm _. cbn.
      rewrite length_take. lia.
    + eapply Forall_impl; [apply omap_measure_plain|].
      intros c [_ ->]. cbn. lia.
Qed.

(** ** What the deep copy holds *)

Section StoreExtras.

(** The outcome of a computation satisfies [Q]. *)
Definition wp {A} (m : M A) (Q : A -> heap -> Prop) (h : heap) : Prop :=
  Q (fst (m h)) (snd (m h)).

Lemma wp_bind {A B} (m : M A) (k : A -> M B) (Q : B -> heap -> Prop) h :
  wp m (fun a h' => wp (k a) Q h') h -> wp (bind m k) Q h.
Proof. unfold wp. by rewrite run_bind. Qed.

Lemma wp_ret {A} (a : A) (Q : A -> heap -> Prop) h : Q a h -> wp (ret a) Q h.
Proof. done. Qed.

Lemma wp_alloc (c : cell) (Q : loc -> heap -> Prop) h :
  (forall l, l ∉ dom h -> Q l (<[l := c]> h)) -> wp (alloc c) Q h.
Proof. intros HQ. unfold wp, alloc. cbn [fst snd]. apply HQ, is_fresh. Qed.

Lemma wp_modify (l : loc) (f : cell -> cell) (c : cell)
    (Q : unit -> heap -> Prop) h :
  h !! l = Some c -> Q tt (<[l := f c]> h) -> wp (modify l f) Q h.
Proof. intros Hl HQ. unfold wp, modify. cbn [fst snd]. by rewrite Hl. Qed.

Lemma wp_modifyConfig (l : loc) (f : Config -> Config) (c : Config)
    (Q : unit -> heap -> Prop) h :
  h !! l = Some (CConfig c) -> Q tt (<[l := CConfig (f c)]> h)
  -> wp (modifyConfig l f) Q h.
Proof. intros Hl HQ. unfold modifyConfig. by eapply wp_modify. Qed.

Lemma wp_reader {A} (m : M A) (Q : A -> heap -> Prop) h :
  RefineFacts.reader m -> Q (fst (m h)) h -> wp m Q h.
Proof. intros Hr HQ. unfold wp. by rewrite Hr. Qed.

(** The kind of an object. *)
Definition kind (c : cell) : nat :=
  match c with
  | CConfig _ => 0 | CDims _ => 1 | CMeasures _ => 2 | CSkipped _ => 3
  | CStrings _ => 4 | CCurrency _ => 5 | CRates _ => 6
  end.

Lemma kind_ne (h : heap) (x y : loc) (c c' : cell) :
  h !! x = Some c -> h !! y = Some c' -> kind c <> kind c' -> x <> y.
Proof. intros Hx Hy Hk ->. rewrite Hx in Hy. by injection Hy as ->. Qed.

Lemma fresh_ne (h : heap) (x y : loc) (c : cell) :
  h !! x = Some c -> y ∉ dom h -> x <> y.
Proof. intros Hx Hy ->. apply Hy. apply elem_of_dom. by eexists. Qed.

(** [h'] keeps every object of [h], except perhaps the one at [w]. *)
Definition keeps (w : loc) (h h' : heap) : Prop :=
  forall x c, h !! x = Some c -> x <> w -> h' !! x = Some c.

Lemma keeps_refl w h : keeps w h h.
Proof. by intros x c Hx _. Qed.

Lemma keeps_trans w h1 h2 h3 : keeps w h1 h2 -> keeps w h2 h3 -> keeps w h1 h3.
Proof. intros H12 H23 x c Hx Hne. apply H23; [|done]. by apply H12. Qed.

Lemma keeps_insert w h c : keeps w h (<[w := c]> h).
Proof. intros x c' Hx Hne. by rewrite lookup_insert_ne. Qed.

Lemma keeps_new w l h c : l ∉ dom h -> keeps w h (<[l := c]> h).
Proof.
  intros Hl x c' Hx _. rewrite lookup_insert_ne; [done|].
  intros ->. by apply (fresh_ne h x x c').
Qed.

(** What is written next is an object made after [h]. *)
Lemma keeps_later w l h h1 h2 :
  l ∉ dom h -> keeps w h h1 -> keeps l h1 h2 -> keeps w h h2.
Proof.
  intros Hl H1 H2 x c Hx Hne. apply H2; [by apply H1|].
  by apply (fresh_ne h x l c).
Qed.

(** A slice that an array of its length stands behind. *)
Definition backed (h : heap) (s : slice) : Prop :=
  length (fst (getStrings s h)) = len s.

Lemma getStrings_mono (h0 h : heap) (s : slice) :
  h0 ⊆ h -> backed h0 s -> fst (getStrings s h) = fst (getStrings s h0).
Proof.
  unfold backed, getStrings. cbn [fst]. intros Hsub Hb.
  destruct (base s) as [b|]; [|done].
  destruct (h0 !! b) as [c|] eqn:Hc.
  - rewrite (lookup_weaken _ _ _ _ Hc Hsub). done.
  - cbn in Hb. rewrite <- Hb. by destruct (h !! b) as [[]|].
Qed.

Lemma getDims_mono (h0 h : heap) (s : slice) :
  h0 ⊆ h -> length (fst (getDims s h0)) = len s
  -> fst (getDims s h) = fst (getDims s h0).
Proof.
  unfold getDims. cbn [fst]. intros Hsub Hb.
  destruct (base s) as [b|]; [|done].
  destruct (h0 !! b) as [c|] eqn:Hc.
  - rewrite (lookup_weaken _ _ _ _ Hc Hsub). done.
  - cbn in Hb. rewrite <- Hb. by destruct (h !! b) as [[]|].
Qed.

Lemma getMeasures_mono (h0 h : heap) (s : slice) :
  h0 ⊆ h -> length (fst (getMeasures s h0)) = len s
  -> fst (getMeasures s h) = fst (getMeasures s h0).
Proof.
  unfold getMeasures. cbn [fst]. intros Hsub Hb.
  destruct (base s) as [b|]; [|done].
  destruct (h0 !! b) as [c|] eqn:Hc.
  - rewrite (lookup_weaken _ _ _ _ Hc Hsub). done.
  - cbn in Hb. rewrite <- Hb. by destruct (h !! b) as [[]|].
Qed.

Lemma getSkipped_mono (h0 h : heap) (s : slice) :
  h0 ⊆ h -> length (fst (getSkipped s h0)) = len s
  -> fst (getSkipped s h) = fst (getSkipped s h0).
Proof.
  unfold getSkipped. cbn [fst]. intros Hsub Hb.
  destruct (base s) as [b|]; [|done].
  destruct (h0 !! b) as [c|] eqn:Hc.
  - rewrite (lookup_weaken _ _ _ _ Hc Hsub). done.
  - cbn in Hb. rewrite <- Hb. by destruct (h !! b) as [[]|].
Qed.

Lemma indexed_elem {A} (l : list A) (i : nat) (x : A) :
  (i, x) ∈ indexed l <-> l !! i = Some x.
Proof.
  unfold indexed. rewrite elem_of_lookup_imap. split.
  - by intros (j & y & [= -> ->] & Hy).
  - intros Hx. by exists i, x.
Qed.

Lemma indexed_fst {A} (l : list A) : fst <$> indexed l = seq 0 (length l).
Proof.
  unfold indexed. rewrite fmap_imap.
  rewrite <- (list_fmap_id (seq 0 (length l))).
  by rewrite <- (imap_seq l id 0).
Qed.

End StoreExtras.

(** *** The copy loops

    Both loops of [deepCopyConfig] have one shape: [a[i] = x], a new array
    as long as the slice of [x], [a[i].f = ] that array, and [copy] into
    it. *)
Section CopyLoop.
Variable T : Type.
Variable wrap : list T -> cell.
Variable fld : T -> slice.
Variable setFld : T -> slice -> T.
Variable modAt : loc -> nat -> (T -> T) -> M unit.
Hypothesis modAt_run : forall l i f h A,
  h !! l = Some (wrap A) -> modAt l i f h = (tt, <[l := wrap (alter f i A)]> h).
Hypothesis wrap_kind : forall A, kind (wrap A) <> 0.

Definition copyBody (L : loc) (id : nat * T) : M unit :=
  modAt L (fst id) (fun _ => snd id) ;;
  (let n := len (fld (snd id)) in
   let* arr := alloc (CStrings (replicate n "")) in
   (modAt L (fst id) (fun d => setFld d (mkSlice (Some arr) n)) ;;
    (let* vals := getStrings (fld (snd id)) in
     copyStrings arr vals))).

(** The element copied to index [i], at a new array [a] that holds the
    strings of the original. *)
Definition copyOf (h0 h : heap) (d d' : T) : Prop :=
  exists a, d' = setFld d (mkSlice (Some a) (len (fld d)))
            /\ h !! a = Some (CStrings (fst (getStrings (fld d) h0))).

Lemma copyBody_run (h0 : heap) (L : loc) (i : nat) (d : T) (h : heap)
    (A : list T) :
  h0 ⊆ h -> L ∉ dom h0 -> h !! L = Some (wrap A) -> backed h0 (fld d) ->
  exists a, (a ∉ dom h)
    /\ snd (copyBody L (i, d) h)
       = <[a := CStrings (fst (getStrings (fld d) h0))]>
           (<[L := wrap (alter (fun x => setFld x (mkSlice (Some a) (len (fld d))))
                           i (alter (fun _ => d) i A))]> h).
Proof.
  intros Hsub HL0 HL Hb.
  assert (HLn : h0 !! L = None) by (by apply not_elem_of_dom).
  unfold copyBody. cbn [fst snd].
  rewrite run_bind, (modAt_run _ _ _ _ _ HL). cbn [fst snd].
  set (h1 := <[L := wrap (alter (fun _ => d) i A)]> h).
  rewrite run_bind. unfold alloc. cbn [fst snd].
  set (a := fresh (dom h1)).
  assert (Ha1 : a ∉ dom h1) by apply is_fresh.
  assert (Hdom : dom h1 = dom h).
  { subst h1. rewrite dom_insert_L.
    assert (HLd : L ∈ dom h) by (apply elem_of_dom; by eexists).
    apply set_eq. intros x. rewrite elem_of_union, elem_of_singleton.
    split; [intros [->|?]; done|auto]. }
  assert (Ha : a ∉ dom h) by (by rewrite <- Hdom).
  assert (HaL : a <> L).
  { intros Heq. apply Ha. rewrite Heq. apply elem_of_dom. by eexists. }
  assert (Ha0 : h0 !! a = None).
  { apply not_elem_of_dom. intros Hin. apply Ha.
    by apply (subseteq_dom _ _ Hsub). }
  exists a. split; [exact Ha|].
  set (h2 := <[a := CStrings (replicate (len (fld d)) "")]> h1).
  assert (H2L : h2 !! L = Some (wrap (alter (fun _ => d) i A))).
  { subst h2 h1. rewrite lookup_insert_ne by done. by rewrite lookup_insert_eq. }
  rewrite run_bind, (modAt_run _ _ _ _ _ H2L). cbn [fst snd].
  set (A2 := alter _ i (alter _ i A)).
  set (h3 := <[L := wrap A2]> h2).
  assert (Hsub3 : h0 ⊆ h3).
  { subst h3 h2 h1. repeat apply insert_subseteq_r; done. }
  rewrite run_bind. change (snd (getStrings (fld d) h3)) with h3.
  rewrite (getStrings_mono h0 h3 _ Hsub3 Hb).
  set (vals := fst (getStrings (fld d) h0)).
  unfold copyStrings, modify. cbn [snd].
  assert (H3a : h3 !! a = Some (CStrings (replicate (len (fld d)) ""))).
  { subst h3 h2. rewrite lookup_insert_ne by done. by rewrite lookup_insert_eq. }
  rewrite H3a.
  assert (Hvals : vals ++ drop (length vals) (replicate (len (fld d)) "") = vals).
  { rewrite drop_replicate. unfold backed in Hb. fold vals in Hb.
    rewrite Hb, Nat.sub_diag. cbn. apply app_nil_r. }
  rewrite Hvals. subst h3 h2 h1.
  apply map_eq. intros x.
  destruct (decide (x = a)) as [->|Hxa].
  { by rewrite !lookup_insert_eq. }
  rewrite !(lookup_insert_ne _ a x) by done.
  destruct (decide (x = L)) as [->|HxL].
  { by rewrite !lookup_insert_eq. }
  rewrite !(lookup_insert_ne _ L x) by done.
  rewrite (lookup_insert_ne _ a x) by done.
  by rewrite (lookup_insert_ne _ L x) by done.
Qed.

Lemma copyLoop_spec (h0 : heap) (L : loc) (l : list (nat * T)) :
  forall (h : heap) (A : list T),
    h0 ⊆ h -> L ∉ dom h0 -> h !! L = Some (wrap A) ->
    NoDup (fst <$> l) ->
    Forall (fun id => fst id < length A) l ->
    Forall (fun id => backed h0 (fld (snd id))) l ->
    let h' := snd (forM_ l (copyBody L) h) in
    h0 ⊆ h' /\ keeps L h h' /\
    exists A', h' !! L = Some (wrap A') /\ length A' = length A /\
      (forall i, i ∉ fst <$> l -> A' !! i = A !! i) /\
      (forall i d, (i, d) ∈ l ->
         exists d', A' !! i = Some d' /\ copyOf h0 h' d d').
Proof.
  induction l as [|[i d] l IH]; intros h A Hsub HL0 HL Hnd Hlt Hb; cbn [forM_].
  - cbn [snd ret]. split; [done|]. split; [apply keeps_refl|].
    exists A. split_and!; try done. intros i d Hin. by apply elem_of_nil in Hin.
  - rewrite run_bind.
    apply Forall_cons in Hlt as [Hi Hlt]. cbn [fst] in Hi.
    apply Forall_cons in Hb as [Hbd Hb]. cbn [snd] in Hbd.
    cbn [fmap list_fmap fst] in Hnd. apply NoDup_cons in Hnd as [Hil Hnd].
    destruct (copyBody_run h0 L i d h A Hsub HL0 HL Hbd) as (a & Ha & Hrun).
    rewrite Hrun. clear Hrun.
    set (A1 := alter _ i (alter (fun _ => d) i A)).
    set (h1 := <[a := _]> (<[L := wrap A1]> h)).
    assert (HaL : a <> L).
    { intros Heq. apply Ha. rewrite Heq. apply elem_of_dom. by eexists. }
    assert (HLn : h0 !! L = None) by (by apply not_elem_of_dom).
    assert (Ha0 : h0 !! a = None).
    { apply not_elem_of_dom. intros Hin. apply Ha.
      by apply (subseteq_dom _ _ Hsub). }
    assert (Hsub1 : h0 ⊆ h1).
    { subst h1. repeat apply insert_subseteq_r; done. }
    assert (H1L : h1 !! L = Some (wrap A1)).
    { subst h1. rewrite lookup_insert_ne by done. by rewrite lookup_insert_eq. }
    assert (Hlen1 : length A1 = length A).
    { subst A1. by rewrite !length_alter. }
    assert (Hlt1 : Forall (fun id : nat * T => fst id < length A1) l).
    { by rewrite Hlen1. }
    destruct (IH h1 A1 Hsub1 HL0 H1L Hnd Hlt1 Hb)
      as (Hsub' & Hk & A' & HL' & Hlen' & Hout & Hin).
    set (h' := snd (forM_ l (copyBody L) h1)) in *.
    split; [exact Hsub'|]. split.
    { intros x c Hx Hne. apply Hk; [|done]. subst h1.
      rewrite lookup_insert_ne by (intros ->; by apply (fresh_ne h x x c)).
      by rewrite lookup_insert_ne. }
    exists A'. split; [exact HL'|]. split; [by rewrite Hlen', Hlen1|]. split.
    + intros j Hj. cbn [fmap list_fmap fst] in Hj.
      apply not_elem_of_cons in Hj as [Hji Hj].
      rewrite (Hout j Hj). subst A1.
      by rewrite !list_lookup_alter_ne.
    + intros j d0 Hjd. apply elem_of_cons in Hjd as [[= -> ->]|Hjd].
      * exists (setFld d (mkSlice (Some a) (len (fld d)))). split.
        { rewrite (Hout i Hil). subst A1.
          rewrite !list_lookup_alter. rewrite !decide_True by done.
          destruct (lookup_lt_is_Some_2 A i Hi) as [x Hx]. by rewrite Hx. }
        exists a. split; [done|].
        apply Hk; [|done]. subst h1. by rewrite lookup_insert_eq.
      * by apply Hin.
Qed.

(** The whole of [src] copied to the array at [L]. *)
Definition copiedTo (h0 h : heap) (L : loc) (src : list T) : Prop :=
  exists A, h !! L = Some (wrap A) /\ Forall2 (copyOf h0 h) src A.

Lemma copyOf_keeps (h0 h h' : heap) (w : loc) (c : Config) (d d' : T) :
  keeps w h h' -> h !! w = Some (CConfig c) -> copyOf h0 h d d'
  -> copyOf h0 h' d d'.
Proof.
  intros Hk Hw (a & -> & Ha). exists a. split; [done|].
  apply Hk; [done|]. by apply (kind_ne h a w _ _ Ha Hw).
Qed.

Lemma copiedTo_keeps (h0 h h' : heap) (w : loc) (c : Config) (L : loc)
    (src : list T) :
  keeps w h h' -> h !! w = Some (CConfig c) -> copiedTo h0 h L src
  -> copiedTo h0 h' L src.
Proof.
  intros Hk Hw (A & HL & HA). exists A. split.
  - apply Hk; [done|]. apply (kind_ne h L w _ _ HL Hw). apply wrap_kind.
  - eapply Forall2_impl; [exact HA|]. intros d d'. exact (copyOf_keeps h0 h h' w c d d' Hk Hw).
Qed.

End CopyLoop.

(** *** The four parts of [deepCopyConfig] *)

Section DeepCopy.
Context {rt : GoRuntime}.

Lemma modifyDimAt_run l i f (h : heap) A :
  h !! l = Some (CDims A)
  -> modifyDimAt l i f h = (tt, <[l := CDims (alter f i A)]> h).
Proof. intros Hl. unfold modifyDimAt, modify. by rewrite Hl. Qed.

Lemma modifyMeasureAt_run l i f (h : heap) A :
  h !! l = Some (CMeasures A)
  -> modifyMeasureAt l i f h = (tt, <[l := CMeasures (alter f i A)]> h).
Proof. intros Hl. unfold modifyMeasureAt, modify. by rewrite Hl. Qed.

Lemma kind_CDims (A : list DimensionMeta) : kind (CDims A) <> 0.
Proof. done. Qed.

Lemma kind_CMeasures (A : list MeasureMeta) : kind (CMeasures A) <> 0.
Proof. done. Qed.

Definition dimsCopied : heap -> heap -> loc -> list DimensionMeta -> Prop :=
  copiedTo DimensionMeta CDims SampleValues setSampleValues.

Definition measuresCopied : heap -> heap -> loc -> list MeasureMeta -> Prop :=
  copiedTo MeasureMeta CMeasures Aggregations setAggregations.

Definition phaseDims (s : Config) (dst : loc) (k : M loc) : M loc :=
  let* dimsArr := alloc (CDims (replicate (len (Dimensions s)) zeroDim)) in
  (modifyConfig dst
     (fun c => setDimensions c (mkSlice (Some dimsArr) (len (Dimensions s)))) ;;
   (let* srcDims := getDims (Dimensions s) in
    (forM_ (indexed srcDims)
       (copyBody DimensionMeta SampleValues setSampleValues modifyDimAt dimsArr) ;;
     k))).

Definition phaseMeasures (s : Config) (dst : loc) (k : M loc) : M loc :=
  let* measArr := alloc (CMeasures (replicate (len (Measures s)) zeroMeasure)) in
  (modifyConfig dst
     (fun c => setMeasures c (mkSlice (Some measArr) (len (Measures s)))) ;;
   (let* srcMeas := getMeasures (Measures s) in
    (forM_ (indexed srcMeas)
       (copyBody MeasureMeta Aggregations setAggregations modifyMeasureAt measArr) ;;
     k))).

Definition phaseSkipped (s : Config) (dst : loc) (k : M loc) : M loc :=
  let* skArr := alloc (CSkipped (replicate (len (SkippedColumns s)) zeroSkipped)) in
  (modifyConfig dst
     (fun c => setSkippedColumns c (mkSlice (Some skArr) (len (SkippedColumns s)))) ;;
   (let* srcSk := getSkipped (SkippedColumns s) in
    (copySkipped skArr srcSk ;; k))).

Definition phaseCurrency (s : Config) (dst : loc) : M loc :=
  match Currency s with
  | Some cp =>
      let* currency := getCurrency cp in
      let* rates := alloc (CRates ∅) in
      let* srcRates := getRates (Rates currency) in
      (forM_ (range_map srcRates) (fun kv => setRate rates (fst kv) (snd kv)) ;;
       (let* p := alloc (CCurrency (mkCurrencyConfig (Enabled currency)
                                      (CodeDimension currency)
                                      (CBaseCurrency currency) (Some rates))) in
        (modifyConfig dst (fun c => setCurrency c (Some p)) ;;
         ret dst)))
  | None => ret dst
  end.

Lemma deepCopyConfig_phases (src : loc) :
  deepCopyConfig src
  = let* s := getConfig src in
    let* dst := alloc (CConfig (mkConfig (Name s) (Version s) (CDescription s)
                                  zeroSlice zeroSlice None
                                  (DiscoveredFrom s) (DiscoveredAt s)
                                  zeroSlice "" "")) in
    phaseDims s dst (phaseMeasures s dst (phaseSkipped s dst (phaseCurrency s dst))).
Proof. reflexivity. Qed.

Lemma fresh_old (h0 h : heap) (l : loc) : h0 ⊆ h -> l ∉ dom h -> h0 !! l = None.
Proof.
  intros Hsub Hl. apply not_elem_of_dom. intros Hin. apply Hl.
  by apply (subseteq_dom _ _ Hsub).
Qed.

Lemma wp_phaseDims (h0 : heap) (s : Config) (dst : loc) (k : M loc)
    (Q : loc -> heap -> Prop) (h : heap) (c : Config) :
  let src := fst (getDims (Dimensions s) h0) in
  h0 ⊆ h -> h0 !! dst = None -> h !! dst = Some (CConfig c) ->
  length src = len (Dimensions s) ->
  Forall (fun d => backed h0 (SampleValues d)) src ->
  (forall h' dL,
     h0 ⊆ h' -> keeps dst h h' ->
     h' !! dst = Some (CConfig (setDimensions c
                                  (mkSlice (Some dL) (len (Dimensions s))))) ->
     dimsCopied h0 h' dL src -> wp k Q h') ->
  wp (phaseDims s dst k) Q h.
Proof.
  intros src Hsub Hd0 Hdst Hlen Hb HQ. unfold phaseDims.
  apply wp_bind, wp_alloc. intros L HL.
  set (h1 := <[L := CDims (replicate (len (Dimensions s)) zeroDim)]> h).
  assert (HdL : dst <> L) by (by apply (fresh_ne h dst L _ Hdst)).
  assert (HL0 : h0 !! L = None) by (by apply (fresh_old h0 h)).
  apply wp_bind. eapply (wp_modifyConfig dst _ c).
  { subst h1. by rewrite lookup_insert_ne. }
  set (h2 := <[dst := _]> h1).
  assert (Hsub2 : h0 ⊆ h2).
  { subst h2 h1. by repeat apply insert_subseteq_r. }
  apply wp_bind, wp_reader; [apply RefineFacts.reader_getDims|].
  rewrite (getDims_mono h0 h2 _ Hsub2 Hlen). fold src.
  apply wp_bind. unfold wp at 1.
  assert (H2L : h2 !! L = Some (CDims (replicate (len (Dimensions s)) zeroDim))).
  { subst h2 h1. rewrite lookup_insert_ne by done. by rewrite lookup_insert_eq. }
  destruct (copyLoop_spec DimensionMeta CDims SampleValues setSampleValues
              modifyDimAt modifyDimAt_run h0 L (indexed src) h2 _ Hsub2
              (proj2 (not_elem_of_dom _ _) HL0) H2L)
    as (Hsub' & Hk & A' & HL' & Hlen' & _ & Hin).
  { rewrite indexed_fst. apply NoDup_seq. }
  { apply Forall_forall. intros [i d] Hid. apply indexed_elem in Hid.
    cbn [fst]. rewrite length_replicate, <- Hlen. by eapply lookup_lt_Some. }
  { apply Forall_forall. intros [i d] Hid. apply indexed_elem in Hid.
    cbn [snd]. exact (Forall_lookup_1 _ _ _ _ Hb Hid). }
  apply (HQ _ L); [exact Hsub'| | |].
  - intros x cx Hx Hne. apply Hk; [|by apply (fresh_ne h x L cx)].
    subst h2 h1. rewrite lookup_insert_ne by done.
    rewrite lookup_insert_ne by (by apply not_eq_sym, (fresh_ne h x L cx)).
    done.
  - apply Hk; [|done]. subst h2. by rewrite lookup_insert_eq.
  - exists A'. split; [exact HL'|].
    apply Forall2_same_length_lookup_2.
    { by rewrite Hlen', length_replicate. }
    intros i d d' Hd Hd'.
    destruct (Hin i d (proj2 (indexed_elem src i d) Hd)) as (d2 & Hd2 & Hc).
    rewrite Hd' in Hd2. by injection Hd2 as <-.
Qed.

Lemma wp_phaseMeasures (h0 : heap) (s : Config) (dst : loc) (k : M loc)
    (Q : loc -> heap -> Prop) (h : heap) (c : Config) :
  let src := fst (getMeasures (Measures s) h0) in
  h0 ⊆ h -> h0 !! dst = None -> h !! dst = Some (CConfig c) ->
  length src = len (Measures s) ->
  Forall (fun m => backed h0 (Aggregations m)) src ->
  (forall h' mL,
     h0 ⊆ h' -> keeps dst h h' ->
     h' !! dst = Some (CConfig (setMeasures c
                                  (mkSlice (Some mL) (len (Measures s))))) ->
     measuresCopied h0 h' mL src -> wp k Q h') ->
  wp (phaseMeasures s dst k) Q h.
Proof.
  intros src Hsub Hd0 Hdst Hlen Hb HQ. unfold phaseMeasures.
  apply wp_bind, wp_alloc. intros L HL.
  set (h1 := <[L := CMeasures (replicate (len (Measures s)) zeroMeasure)]> h).
  assert (HdL : dst <> L) by (by apply (fresh_ne h dst L _ Hdst)).
  assert (HL0 : h0 !! L = None) by (by apply (fresh_old h0 h)).
  apply wp_bind. eapply (wp_modifyConfig dst _ c).
  { subst h1. by rewrite lookup_insert_ne. }
  set (h2 := <[dst := _]> h1).
  assert (Hsub2 : h0 ⊆ h2).
  { subst h2 h1. by repeat apply insert_subseteq_r. }
  apply wp_bind, wp_reader; [apply RefineFacts.reader_getMeasures|].
  rewrite (getMeasures_mono h0 h2 _ Hsub2 Hlen). fold src.
  apply wp_bind. unfold wp at 1.
  assert (H2L : h2 !! L
                = Some (CMeasures (replicate (len (Measures s)) zeroMeasure))).
  { subst h2 h1. rewrite lookup_insert_ne by done. by rewrite lookup_insert_eq. }
  destruct (copyLoop_spec MeasureMeta CMeasures Aggregations setAggregations
              modifyMeasureAt modifyMeasureAt_run h0 L (indexed src) h2 _ Hsub2
              (proj2 (not_elem_of_dom _ _) HL0) H2L)
    as (Hsub' & Hk & A' & HL' & Hlen' & _ & Hin).
  { rewrite indexed_fst. apply NoDup_seq. }
  { apply Forall_forall. intros [i d] Hid. apply indexed_elem in Hid.
    cbn [fst]. rewrite length_replicate, <- Hlen. by eapply lookup_lt_Some. }
  { apply Forall_forall. intros [i d] Hid. apply indexed_elem in Hid.
    cbn [snd]. exact (Forall_lookup_1 _ _ _ _ Hb Hid). }
  apply (HQ _ L); [exact Hsub'| | |].
  - intros x cx Hx Hne. apply Hk; [|by apply (fresh_ne h x L cx)].
    subst h2 h1. rewrite lookup_insert_ne by done.
    rewrite lookup_insert_ne by (by apply not_eq_sym, (fresh_ne h x L cx)).
    done.
  - apply Hk; [|done]. subst h2. by rewrite lookup_insert_eq.
  - exists A'. split; [exact HL'|].
    apply Forall2_same_length_lookup_2.
    { by rewrite Hlen', length_replicate. }
    intros i d d' Hd Hd'.
    destruct (Hin i d (proj2 (indexed_elem src i d) Hd)) as (d2 & Hd2 & Hc).
    rewrite Hd' in Hd2. by injection Hd2 as <-.
Qed.

Lemma wp_phaseSkipped (h0 : heap) (s : Config) (dst : loc) (k : M loc)
    (Q : loc -> heap -> Prop) (h : heap) (c : Config) :
  let src := fst (getSkipped (SkippedColumns s) h0) in
  h0 ⊆ h -> h0 !! dst = None -> h !! dst = Some (CConfig c) ->
  length src = len (SkippedColumns s) ->
  (forall h' sL,
     h0 ⊆ h' -> keeps dst h h' ->
     h' !! dst = Some (CConfig (setSkippedColumns c
                                  (mkSlice (Some sL) (len (SkippedColumns s))))) ->
     h' !! sL = Some (CSkipped src) -> wp k Q h') ->
  wp (phaseSkipped s dst k) Q h.
Proof.
  intros src Hsub Hd0 Hdst Hlen HQ. unfold phaseSkipped.
  apply wp_bind, wp_alloc. intros L HL.
  set (h1 := <[L := CSkipped (replicate (len (SkippedColumns s)) zeroSkipped)]> h).
  assert (HdL : dst <> L) by (by apply (fresh_ne h dst L _ Hdst)).
  assert (HL0 : h0 !! L = None) by (by apply (fresh_old h0 h)).
  apply wp_bind. eapply (wp_modifyConfig dst _ c).
  { subst h1. by rewrite lookup_insert_ne. }
  set (h2 := <[dst := _]> h1).
  assert (Hsub2 : h0 ⊆ h2).
  { subst h2 h1. by repeat apply insert_subseteq_r. }
  apply wp_bind, wp_reader; [apply RefineFacts.reader_getSkipped|].
  rewrite (getSkipped_mono h0 h2 _ Hsub2 Hlen). fold src.
  apply wp_bind. unfold copySkipped. eapply wp_modify.
  { subst h2 h1. rewrite lookup_insert_ne by done. by rewrite lookup_insert_eq. }
  cbn beta iota.
  assert (Hsrc : src ++ drop (length src)
                          (replicate (len (SkippedColumns s)) zeroSkipped) = src).
  { rewrite drop_replicate, Hlen, Nat.sub_diag. cbn. apply app_nil_r. }
  rewrite Hsrc.
  set (h3 := <[L := CSkipped src]> h2).
  apply (HQ _ L).
  - subst h3. by apply insert_subseteq_r.
  - intros x cx Hx Hne. subst h3 h2 h1.
    assert (x <> L) by (by apply (fresh_ne h x L cx)).
    by rewrite !lookup_insert_ne by done.
  - subst h3 h2. rewrite lookup_insert_ne by done. by rewrite lookup_insert_eq.
  - subst h3. by rewrite lookup_insert_eq.
Qed.

(** The rates are put one by one into the new map. *)
Definition putRate (m : gmap string float) (kv : string * float)
    : gmap string float :=
  <[fst kv := snd kv]> m.

Lemma setRate_loop (rates : loc) (l : list (string * float)) :
  forall (h : heap) (m0 : gmap string float),
    h !! rates = Some (CRates m0) ->
    snd (forM_ l (fun kv => setRate rates (fst kv) (snd kv)) h)
    = <[rates := CRates (foldl putRate m0 l)]> h.
Proof.
  induction l as [|[k v] l IH]; intros h m0 Hr; cbn [forM_ foldl].
  - cbn [ret snd]. by rewrite insert_id.
  - assert (Hstep : setRate rates k v h
                    = (tt, <[rates := CRates (<[k := v]> m0)]> h)).
    { unfold setRate, modify. by rewrite Hr. }
    rewrite run_bind. cbn [fst snd]. rewrite Hstep. cbn [fst snd].
    rewrite (IH _ (<[k := v]> m0)) by (by rewrite lookup_insert_eq).
    by rewrite insert_insert_eq.
Qed.

Lemma putRate_foldl (l : list (string * float)) :
  forall (m0 : gmap string float),
    NoDup (fst <$> l) ->
    (forall k v, (k, v) ∈ l -> foldl putRate m0 l !! k = Some v) /\
    (forall k, k ∉ fst <$> l -> foldl putRate m0 l !! k = m0 !! k).
Proof.
  induction l as [|[k0 v0] l IH]; intros m0 Hnd; cbn [foldl].
  - split; [|done]. intros k v Hin. by apply elem_of_nil in Hin.
  - cbn [fmap list_fmap fst] in Hnd. apply NoDup_cons in Hnd as [Hk0 Hnd].
    destruct (IH (putRate m0 (k0, v0)) Hnd) as [Hin Hout]. split.
    + intros k v Hkv. apply elem_of_cons in Hkv as [[= -> ->]|Hkv].
      * rewrite (Hout k0 Hk0). unfold putRate. cbn [fst snd].
        by rewrite lookup_insert_eq.
      * by apply Hin.
    + intros k Hk. cbn [fmap list_fmap fst] in Hk.
      apply not_elem_of_cons in Hk as [Hne Hk].
      rewrite (Hout k Hk). unfold putRate. cbn [fst snd].
      by rewrite lookup_insert_ne.
Qed.

Lemma putRate_range_map (m : gmap string float) :
  foldl putRate ∅ (range_map m) = m.
Proof.
  destruct (putRate_foldl (range_map m) ∅
              (EngineFacts.NoDup_range_map_keys m)) as [Hin Hout].
  apply map_eq. intros k. destruct (m !! k) as [v|] eqn:Hk.
  - apply Hin. by apply EngineFacts.elem_of_range_map.
  - rewrite Hout; [done|]. intros Hel.
    apply list_elem_of_fmap in Hel as ([k' v] & -> & Hel). cbn [fst] in Hk.
    apply EngineFacts.elem_of_range_map in Hel. congruence.
Qed.

(** The currency settings of the copy: its own object, with its own map. *)
Definition currencyCopied (h0 h : heap) (src cur : option loc) : Prop :=
  match src with
  | None => cur = None
  | Some cp =>
      let c0 := fst (getCurrency cp h0) in
      exists p r, cur = Some p
        /\ h !! p = Some (CCurrency (mkCurrencyConfig (Enabled c0)
                                       (CodeDimension c0) (CBaseCurrency c0)
                                       (Some r)))
        /\ h !! r = Some (CRates (fst (getRates (Rates c0) h0)))
  end.

Lemma wp_phaseCurrency (h0 : heap) (s : Config) (dst : loc)
    (Q : loc -> heap -> Prop) (h : heap) (c : Config) :
  h0 ⊆ h -> h0 !! dst = None -> h !! dst = Some (CConfig c) ->
  Currency c = None ->
  (forall cp, Currency s = Some cp ->
     cp ∈ dom h0 /\
     forall r, Rates (fst (getCurrency cp h0)) = Some r -> r ∈ dom h0) ->
  (forall h' cur,
     h0 ⊆ h' -> keeps dst h h' ->
     h' !! dst = Some (CConfig (setCurrency c cur)) ->
     currencyCopied h0 h' (Currency s) cur -> Q dst h') ->
  wp (phaseCurrency s dst) Q h.
Proof.
  intros Hsub Hd0 Hdst Hnone Hvalid HQ. unfold phaseCurrency, currencyCopied in *.
  destruct (Currency s) as [cp|].
  - destruct (Hvalid cp eq_refl) as [Hcp Hr].
    apply wp_bind, wp_reader; [apply RefineFacts.reader_getCurrency|].
    assert (Hcur : fst (getCurrency cp h) = fst (getCurrency cp h0)).
    { unfold getCurrency. cbn [fst]. apply elem_of_dom in Hcp as [x Hx].
      by rewrite Hx, (lookup_weaken _ _ _ _ Hx Hsub). }
    rewrite Hcur. set (c0 := fst (getCurrency cp h0)) in *.
    apply wp_bind, wp_alloc. intros R HR.
    set (h1 := <[R := CRates ∅]> h).
    assert (HdR : dst <> R) by (by apply (fresh_ne h dst R _ Hdst)).
    assert (HR0 : h0 !! R = None) by (by apply (fresh_old h0 h)).
    assert (Hsub1 : h0 ⊆ h1) by (subst h1; by apply insert_subseteq_r).
    apply wp_bind, wp_reader; [apply RefineFacts.reader_getRates|].
    assert (Hrates : fst (getRates (Rates c0) h1) = fst (getRates (Rates c0) h0)).
    { unfold getRates. cbn [fst]. destruct (Rates c0) as [r|]; [|done].
      destruct (proj1 (elem_of_dom _ _) (Hr r eq_refl)) as [x Hx].
      by rewrite Hx, (lookup_weaken _ _ _ _ Hx Hsub1). }
    rewrite Hrates. set (m := fst (getRates (Rates c0) h0)).
    apply wp_bind. unfold wp at 1.
    rewrite (setRate_loop R (range_map m) h1 ∅)
      by (subst h1; by rewrite lookup_insert_eq).
    rewrite putRate_range_map. subst h1. rewrite insert_insert_eq.
    set (h2 := <[R := CRates m]> h).
    assert (H2d : h2 !! dst = Some (CConfig c)).
    { subst h2. by rewrite lookup_insert_ne. }
    apply wp_bind, wp_alloc. intros P HP.
    set (h3 := <[P := _]> h2).
    assert (HdP : dst <> P) by (by apply (fresh_ne h2 dst P _ H2d)).
    assert (HRP : R <> P).
    { apply (fresh_ne h2 R P (CRates m)); [|done]. subst h2.
      by rewrite lookup_insert_eq. }
    assert (Hsub2 : h0 ⊆ h2) by (subst h2; by apply insert_subseteq_r).
    assert (HP0 : h0 !! P = None) by (by apply (fresh_old h0 h2)).
    apply wp_bind. eapply (wp_modifyConfig dst _ c).
    { subst h3. by rewrite lookup_insert_ne. }
    apply wp_ret.
    apply (HQ _ (Some P)).
    + subst h3. by repeat apply insert_subseteq_r.
    + intros x cx Hx Hne. subst h3 h2.
      assert (x <> R) by (by apply (fresh_ne h x R cx)).
      assert (x <> P).
      { apply (fresh_ne (<[R:=CRates m]> h) x P cx); [|done].
        by rewrite lookup_insert_ne. }
      by rewrite !lookup_insert_ne by done.
    + by rewrite lookup_insert_eq.
    + exists P, R. split; [done|]. split.
      * rewrite lookup_insert_ne by done. subst h3. by rewrite lookup_insert_eq.
      * rewrite lookup_insert_ne by done. subst h3.
        rewrite lookup_insert_ne by done. subst h2.
        by rewrite lookup_insert_eq.
  - apply wp_ret. apply (HQ h None); [done|apply keeps_refl| |done].
    rewrite Hdst. destruct c. cbn in Hnone. by subst.
Qed.

(** A draft whose slices are within their arrays and whose pointers lead to
    objects of the store: what Go's memory safety gives. *)
Definition wfConfig (h : heap) (src : loc) : Prop :=
  let s := fst (getConfig src h) in
  let dims := fst (getDims (Dimensions s) h) in
  let meas := fst (getMeasures (Measures s) h) in
  length dims = len (Dimensions s)
  /\ length meas = len (Measures s)
  /\ length (fst (getSkipped (SkippedColumns s) h)) = len (SkippedColumns s)
  /\ Forall (fun d => backed h (SampleValues d)) dims
  /\ Forall (fun m => backed h (Aggregations m)) meas
  /\ forall cp, Currency s = Some cp ->
       cp ∈ dom h /\
       forall r, Rates (fst (getCurrency cp h)) = Some r -> r ∈ dom h.

(** The store after the copy, object by object. *)
Definition copyAt (h : heap) (src : loc) (dst : loc) (h' : heap) : Prop :=
  let s := fst (getConfig src h) in
  (dst ∉ dom h) /\ h ⊆ h' /\
  exists dL mL sL cur,
    h' !! dst
    = Some (CConfig (mkConfig (Name s) (Version s) (CDescription s)
                       (mkSlice (Some dL) (len (Dimensions s)))
                       (mkSlice (Some mL) (len (Measures s)))
                       cur (DiscoveredFrom s) (DiscoveredAt s)
                       (mkSlice (Some sL) (len (SkippedColumns s))) "" ""))
    /\ dimsCopied h h' dL (fst (getDims (Dimensions s) h))
    /\ measuresCopied h h' mL (fst (getMeasures (Measures s) h))
    /\ h' !! sL = Some (CSkipped (fst (getSkipped (SkippedColumns s) h)))
    /\ currencyCopied h h' (Currency s) cur.

Lemma deepCopyConfig_post (src : loc) (h : heap) :
  wfConfig h src -> wp (deepCopyConfig src) (copyAt h src) h.
Proof.
  intros (Hld & Hlm & Hls & Hbd & Hbm & Hcur).
  rewrite deepCopyConfig_phases.
  apply wp_bind, wp_reader; [apply RefineFacts.reader_getConfig|].
  set (s := fst (getConfig src h)) in *.
  apply wp_bind, wp_alloc. intros dst Hdst.
  set (c0 := mkConfig (Name s) (Version s) (CDescription s) zeroSlice zeroSlice
               None (DiscoveredFrom s) (DiscoveredAt s) zeroSlice "" "").
  set (h1 := <[dst := CConfig c0]> h).
  assert (Hd0 : h !! dst = None) by (by apply not_elem_of_dom).
  assert (Hsub1 : h ⊆ h1) by (subst h1; by apply insert_subseteq_r).
  apply (wp_phaseDims h s dst _ _ h1 c0); try done.
  { subst h1. by rewrite lookup_insert_eq. }
  intros hD dL HsubD KD HdstD CD.
  eapply (wp_phaseMeasures h s dst _ _ hD);
    [exact HsubD|exact Hd0|exact HdstD|exact Hlm|exact Hbm|].
  intros hM mL HsubM KM HdstM CM.
  eapply (wp_phaseSkipped h s dst _ _ hM);
    [exact HsubM|exact Hd0|exact HdstM|exact Hls|].
  intros hS sL HsubS KS HdstS CS.
  eapply (wp_phaseCurrency h s dst _ hS);
    [exact HsubS|exact Hd0|exact HdstS|reflexivity|exact Hcur|].
  intros hC cur HsubC KC HdstC CC.
  split; [exact Hdst|]. split; [exact HsubC|].
  exists dL, mL, sL, cur. split_and!.
  - exact HdstC.
  - apply (copiedTo_keeps _ _ _ _ kind_CDims h hD hC dst _
             dL _ (keeps_trans _ _ _ _ KM (keeps_trans _ _ _ _ KS KC)) HdstD CD).
  - apply (copiedTo_keeps _ _ _ _ kind_CMeasures h hM hC dst _
             mL _ (keeps_trans _ _ _ _ KS KC) HdstM CM).
  - apply KC; [exact CS|]. by apply (kind_ne hS sL dst _ _ CS HdstS).
  - exact CC.
Qed.

End DeepCopy.

(** *** Reading a configuration back *)

Section ReadBack.
Context {rt : GoRuntime}.

(** What a reader sees of a column: the slice followed to its strings. *)
Definition readDim (h : heap) (d : DimensionMeta) : DimensionMeta_ (list string) :=
  mkDimensionMeta (Key d) (DisplayName d) (Description d)
    (fst (getStrings (SampleValues d) h))
    (Groupable d) (Filterable d) (Parent d) (IsTemporal d) (TemporalFormat d)
    (TemporalOrder d) (IsCurrencyCode d) (CardinalityHint d) (DerivedFrom d)
    (SortHint d).

Definition readMeasure (h : heap) (m : MeasureMeta) : MeasureMeta_ (list string) :=
  mkMeasureMeta (MKey m) (MDisplayName m) (MDescription m) (Unit m)
    (IsCurrency m) (IsSynthetic m) (fst (getStrings (Aggregations m) h))
    (DefaultAggregation m) (Format m).

Definition readDims (h : heap) (s : slice) : list (DimensionMeta_ (list string)) :=
  readDim h <$> fst (getDims s h).

Definition readMeasures (h : heap) (s : slice)
    : list (MeasureMeta_ (list string)) :=
  readMeasure h <$> fst (getMeasures s h).

Definition readCurrency (h : heap) (p : option loc)
    : option (CurrencyConfig_ (gmap string float)) :=
  match p with
  | Some cp =>
      let c := fst (getCurrency cp h) in
      Some (mkCurrencyConfig (Enabled c) (CodeDimension c) (CBaseCurrency c)
              (fst (getRates (Rates c) h)))
  | None => None
  end.

Lemma Forall2_fmap_eq {A B C} (f : A -> C) (g : B -> C) (l : list A)
    (k : list B) :
  Forall2 (fun x y => g y = f x) l k -> g <$> k = f <$> l.
Proof. induction 1 as [|x y l k Hxy _ IH]; [done|]. cbn. by rewrite Hxy, IH. Qed.

Lemma Forall2_Forall_l {A B} (P : A -> B -> Prop) (Q : A -> Prop)
    (R : A -> B -> Prop) (l : list A) (k : list B) :
  Forall2 P l k -> Forall Q l -> (forall x y, P x y -> Q x -> R x y)
  -> Forall2 R l k.
Proof.
  intros HP HQ HR. induction HP as [|x y l k Hxy _ IH]; [constructor|].
  apply Forall_cons in HQ as [Hx HQ]. constructor; auto.
Qed.

Lemma getStrings_whole (h : heap) (a : loc) (vals : list string) (n : nat) :
  h !! a = Some (CStrings vals) -> length vals = n
  -> fst (getStrings (mkSlice (Some a) n) h) = vals.
Proof.
  intros Ha Hn. unfold getStrings. cbn [fst base len]. rewrite Ha.
  apply take_ge. lia.
Qed.

Lemma readDim_copyOf (h h' : heap) (d d' : DimensionMeta) :
  copyOf DimensionMeta SampleValues setSampleValues h h' d d' ->
  backed h (SampleValues d) -> readDim h' d' = readDim h d.
Proof.
  intros (a & -> & Ha) Hb. unfold readDim.
  change (SampleValues (setSampleValues d _))
    with (mkSlice (Some a) (len (SampleValues d))).
  by rewrite (getStrings_whole h' a _ _ Ha Hb).
Qed.

Lemma readMeasure_copyOf (h h' : heap) (m m' : MeasureMeta) :
  copyOf MeasureMeta Aggregations setAggregations h h' m m' ->
  backed h (Aggregations m) -> readMeasure h' m' = readMeasure h m.
Proof.
  intros (a & -> & Ha) Hb. unfold readMeasure.
  change (Aggregations (setAggregations m _))
    with (mkSlice (Some a) (len (Aggregations m))).
  by rewrite (getStrings_whole h' a _ _ Ha Hb).
Qed.

Lemma readDims_copied (h h' : heap) (L : loc) (src : list DimensionMeta) :
  dimsCopied h h' L src -> Forall (fun d => backed h (SampleValues d)) src ->
  readDims h' (mkSlice (Some L) (length src)) = readDim h <$> src.
Proof.
  intros (A & HL & HA) Hb. unfold readDims, getDims. cbn [fst base len].
  rewrite HL, take_ge by (by rewrite (Forall2_length _ _ _ HA)).
  apply Forall2_fmap_eq.
  eapply (Forall2_Forall_l _ _ _ _ _ HA Hb). intros d d'. apply readDim_copyOf.
Qed.

Lemma readMeasures_copied (h h' : heap) (L : loc) (src : list MeasureMeta) :
  measuresCopied h h' L src -> Forall (fun m => backed h (Aggregations m)) src ->
  readMeasures h' (mkSlice (Some L) (length src)) = readMeasure h <$> src.
Proof.
  intros (A & HL & HA) Hb. unfold readMeasures, getMeasures. cbn [fst base len].
  rewrite HL, take_ge by (by rewrite (Forall2_length _ _ _ HA)).
  apply Forall2_fmap_eq.
  eapply (Forall2_Forall_l _ _ _ _ _ HA Hb). intros d d'.
  apply readMeasure_copyOf.
Qed.

Lemma readCurrency_copied (h h' : heap) (src cur : option loc) :
  currencyCopied h h' src cur -> readCurrency h' cur = readCurrency h src.
Proof.
  unfold currencyCopied, readCurrency. destruct src as [cp|]; [|by intros ->].
  intros (p & r & -> & Hp & Hr). unfold getCurrency, getRates. cbn [fst].
  rewrite Hp. cbn. by rewrite Hr.
Qed.

Lemma wp_mono {A} (m : M A) (Q Q' : A -> heap -> Prop) (h : heap) :
  wp m Q h -> (forall a h', Q a h' -> Q' a h') -> wp m Q' h.
Proof. unfold wp. auto. Qed.

(** The copy read back, against the draft. *)
Lemma copyAt_read (h : heap) (src dst : loc) (h' : heap) :
  wfConfig h src -> copyAt h src dst h' ->
  let s := fst (getConfig src h) in
  let c := fst (getConfig dst h') in
  Name c = Name s /\ Version c = Version s /\ CDescription c = CDescription s
  /\ DiscoveredFrom c = DiscoveredFrom s /\ DiscoveredAt c = DiscoveredAt s
  /\ RefinedAt c = "" /\ RefinedBy c = ""
  /\ readDims h' (Dimensions c) = readDims h (Dimensions s)
  /\ readMeasures h' (Measures c) = readMeasures h (Measures s)
  /\ fst (getSkipped (SkippedColumns c) h') = fst (getSkipped (SkippedColumns s) h)
  /\ readCurrency h' (Currency c) = readCurrency h (Currency s).
Proof.
  intros (Hld & Hlm & Hls & Hbd & Hbm & Hcur)
         (Hnew & Hsub & dL & mL & sL & cur & Hdst & HD & HM & HS & HC).
  intros s c. fold s in Hld, Hlm, Hls, Hbd, Hbm, Hcur, Hdst, HD, HM, HS, HC.
  assert (Hc : c = mkConfig (Name s) (Version s) (CDescription s)
                     (mkSlice (Some dL) (len (Dimensions s)))
                     (mkSlice (Some mL) (len (Measures s)))
                     cur (DiscoveredFrom s) (DiscoveredAt s)
                     (mkSlice (Some sL) (len (SkippedColumns s))) "" "").
  { subst c. unfold getConfig. cbn [fst]. by rewrite Hdst. }
  rewrite Hc. cbn [Name Version CDescription DiscoveredFrom DiscoveredAt
                   RefinedAt RefinedBy Dimensions Measures SkippedColumns
                   Currency].
  split_and!; try done.
  - rewrite <- Hld. by apply readDims_copied.
  - rewrite <- Hlm. by apply readMeasures_copied.
  - unfold getSkipped at 1. cbn [fst base len]. rewrite HS.
    apply take_ge. lia.
  - by apply readCurrency_copied.
Qed.

End ReadBack.

(** X23. The deep copy of a well-formed draft is a new object that reads
    exactly like the draft: the same name, version, description and
    discovery marks, the same dimensions and measures with the same sample
    values and aggregations, the same skipped columns and the same currency
    settings and rates.  Only the refinement marks are not carried over:
    the copy has none. *)
Theorem deepCopyConfig_faithful {rt : GoRuntime} (src : loc) (h : heap) :
  wfConfig h src ->
  let s := fst (getConfig src h) in
  let dst := fst (deepCopyConfig src h) in
  let h' := snd (deepCopyConfig src h) in
  let c := fst (getConfig dst h') in
  (dst ∉ dom h)
  /\ Name c = Name s /\ Version c = Version s /\ CDescription c = CDescription s
  /\ DiscoveredFrom c = DiscoveredFrom s /\ DiscoveredAt c = DiscoveredAt s
  /\ RefinedAt c = "" /\ RefinedBy c = ""
  /\ readDims h' (Dimensions c) = readDims h (Dimensions s)
  /\ readMeasures h' (Measures c) = readMeasures h (Measures s)
  /\ fst (getSkipped (SkippedColumns c) h') = fst (getSkipped (SkippedColumns s) h)
  /\ readCurrency h' (Currency c) = readCurrency h (Currency s).
Proof.
  intros Hwf s dst h' c.
  pose proof (deepCopyConfig_post src h Hwf) as Hpost. unfold wp in Hpost.
  fold dst h' in Hpost.
  split; [apply Hpost|].
  exact (copyAt_read h src dst h' Hwf Hpost).
Qed.

Lemma sampleStore_wf : wfConfig RefineFacts.sampleStore 1%positive.
Proof.
  unfold wfConfig. split_and!.
  - vm_compute. reflexivity.
  - vm_compute. reflexivity.
  - vm_compute. reflexivity.
  - vm_compute. repeat constructor.
  - vm_compute. repeat constructor.
  - intros cp Hcp. vm_compute in Hcp. injection Hcp as <-. split.
    + apply elem_of_dom. eexists. vm_compute. reflexivity.
    + intros r Hr. vm_compute in Hr. injection Hr as <-.
      apply elem_of_dom. eexists. vm_compute. reflexivity.
Defined.

Lemma deepCopyConfig_faithful_witness :
  let h := RefineFacts.sampleStore in
  let out := deepCopyConfig (rt := asciiRuntime) 1%positive h in
  readDims (snd out) (Dimensions (fst (getConfig (fst out) (snd out))))
  = readDims h (Dimensions (fst (getConfig 1%positive h))).
Proof.
  intros h out.
  exact (proj1 (proj2 (proj2 (proj2 (proj2 (proj2 (proj2 (proj2 (proj2
           (deepCopyConfig_faithful (rt := asciiRuntime) 1%positive
              RefineFacts.sampleStore sampleStore_wf)))))))))).
Defined.

(** *** The merge, store by store *)

Section Enrich.
Context {rt : GoRuntime}.
Variable time_Now : string.

(** The lookup table [applyEnrichments] builds, and the three updates it
    makes to a column. *)
Definition enrichMapOf (e : refineEnrichment) : gmap string columnEnrichment :=
  foldl (fun (m : gmap string columnEnrichment) e => <[eKey e := e]> m)
        ∅ (Enrichments e).

Definition enrichD (em : gmap string columnEnrichment) (d : DimensionMeta)
    : DimensionMeta :=
  match em !! Key d with
  | Some e => enrichDimension e d
  | None => d
  end.

Definition enrichM (em : gmap string columnEnrichment) (m : MeasureMeta)
    : MeasureMeta :=
  match em !! MKey m with
  | Some e => enrichMeasure e m
  | None => m
  end.

Definition hierStep (hs : hierarchySuggestion) (d : DimensionMeta)
    : DimensionMeta :=
  if String.eqb (Key d) (hChild hs) && String.eqb (Parent d) ""
  then setParent d (hParent hs) else d.

Definition hierAll (sugg : list hierarchySuggestion) (A : list DimensionMeta)
    : list DimensionMeta :=
  foldl (fun X hs => hierStep hs <$> X) A sugg.

Lemma wp_run {A} (m : M A) (Q : A -> heap -> Prop) h a h' :
  m h = (a, h') -> Q a h' -> wp m Q h.
Proof. unfold wp. by intros ->. Qed.

Lemma getConfig_run (l : loc) (h : heap) (c : Config) :
  h !! l = Some (CConfig c) -> getConfig l h = (c, h).
Proof. intros Hl. unfold getConfig. by rewrite Hl. Qed.

Lemma modifyConfig_opt_run (b : bool) (r : loc) (f : Config -> Config)
    (h : heap) (c : Config) :
  h !! r = Some (CConfig c) ->
  (if b then ret tt else modifyConfig r f) h
  = (tt, <[r := CConfig (if b then c else f c)]> h).
Proof.
  intros Hr. destruct b.
  - unfold ret. by rewrite insert_id.
  - unfold modifyConfig, modify. by rewrite Hr.
Qed.

Lemma foldl_alter_lookup {A} (f : A -> A) (l : list nat) :
  forall (X : list A) (j : nat),
    NoDup l ->
    foldl (fun X i => alter f i X) X l !! j
    = if bool_decide (j ∈ l) then f <$> X !! j else X !! j.
Proof.
  induction l as [|i l IH]; intros X j Hnd; cbn [foldl].
  - by rewrite bool_decide_eq_false_2 by apply not_elem_of_nil.
  - apply NoDup_cons in Hnd as [Hi Hnd]. rewrite (IH _ _ Hnd).
    destruct (decide (j = i)) as [->|Hne].
    + rewrite (bool_decide_eq_false_2 (i ∈ l)) by done.
      rewrite (bool_decide_eq_true_2 (i ∈ i :: l)) by (by left).
      rewrite list_lookup_alter. by rewrite decide_True.
    + rewrite list_lookup_alter_ne by done.
      case_bool_decide as Hj.
      * by rewrite bool_decide_eq_true_2 by (by right).
      * rewrite bool_decide_eq_false_2; [done|].
        intros Hin. apply elem_of_cons in Hin as [?|?]; done.
Qed.

Lemma foldl_alter_seq {A} (f : A -> A) (X : list A) :
  foldl (fun X i => alter f i X) X (seq 0 (length X)) = f <$> X.
Proof.
  apply list_eq. intros j.
  rewrite foldl_alter_lookup by apply NoDup_seq.
  rewrite list_lookup_fmap. case_bool_decide as Hj; [done|].
  rewrite elem_of_seq in Hj.
  assert (Hnone : X !! j = None) by (apply lookup_ge_None; lia).
  by rewrite Hnone.
Qed.

Lemma dimLoop_run (r dL : loc) (f : DimensionMeta -> DimensionMeta)
    (l : list nat) :
  forall (h : heap) (c : Config) (A : list DimensionMeta),
    h !! r = Some (CConfig c) -> base (Dimensions c) = Some dL ->
    h !! dL = Some (CDims A) ->
    forM_ l (fun i => let* x := getConfig r in
                      atBase (Dimensions x) (fun b => modifyDimAt b i f)) h
    = (tt, <[dL := CDims (foldl (fun X i => alter f i X) A l)]> h).
Proof.
  induction l as [|i l IH]; intros h c A Hr Hb HL; cbn [forM_ foldl].
  - unfold ret. by rewrite insert_id.
  - assert (Hbody : (let* x := getConfig r in
                     atBase (Dimensions x) (fun b => modifyDimAt b i f)) h
                    = (tt, <[dL := CDims (alter f i A)]> h)).
    { unfold bind. rewrite (getConfig_run _ _ _ Hr). unfold atBase.
      rewrite Hb. by apply modifyDimAt_run. }
    rewrite run_bind. cbn beta. rewrite Hbody. cbn [fst snd].
    assert (Hne : r <> dL) by (by apply (kind_ne h r dL _ _ Hr HL)).
    rewrite (IH _ c (alter f i A)).
    + by rewrite insert_insert_eq.
    + by rewrite lookup_insert_ne.
    + done.
    + by rewrite lookup_insert_eq.
Qed.

Lemma measLoop_run (r mL : loc) (f : MeasureMeta -> MeasureMeta)
    (l : list nat) :
  forall (h : heap) (c : Config) (B : list MeasureMeta),
    h !! r = Some (CConfig c) -> base (Measures c) = Some mL ->
    h !! mL = Some (CMeasures B) ->
    forM_ l (fun i => let* x := getConfig r in
                      atBase (Measures x) (fun b => modifyMeasureAt b i f)) h
    = (tt, <[mL := CMeasures (foldl (fun X i => alter f i X) B l)]> h).
Proof.
  induction l as [|i l IH]; intros h c B Hr Hb HL; cbn [forM_ foldl].
  - unfold ret. by rewrite insert_id.
  - assert (Hbody : (let* x := getConfig r in
                     atBase (Measures x) (fun b => modifyMeasureAt b i f)) h
                    = (tt, <[mL := CMeasures (alter f i B)]> h)).
    { unfold bind. rewrite (getConfig_run _ _ _ Hr). unfold atBase.
      rewrite Hb. by apply modifyMeasureAt_run. }
    rewrite run_bind. cbn beta. rewrite Hbody. cbn [fst snd].
    assert (Hne : r <> mL) by (by apply (kind_ne h r mL _ _ Hr HL)).
    rewrite (IH _ c (alter f i B)).
    + by rewrite insert_insert_eq.
    + by rewrite lookup_insert_ne.
    + done.
    + by rewrite lookup_insert_eq.
Qed.

Lemma hierLoop_run (r dL : loc) (sugg : list hierarchySuggestion) :
  forall (h : heap) (c : Config) (A : list DimensionMeta),
    h !! r = Some (CConfig c) ->
    Dimensions c = mkSlice (Some dL) (length A) ->
    h !! dL = Some (CDims A) ->
    forM_ sugg (fun hs =>
      let* x := getConfig r in
      forM_ (seq 0 (len (Dimensions x))) (fun i =>
        let* y := getConfig r in
        atBase (Dimensions y) (fun b =>
          modifyDimAt b i (fun d =>
            if String.eqb (Key d) (hChild hs) && String.eqb (Parent d) ""
            then setParent d (hParent hs) else d)))) h
    = (tt, <[dL := CDims (hierAll sugg A)]> h).
Proof.
  unfold hierAll.
  induction sugg as [|hs sugg IH]; intros h c A Hr Hc HL; cbn [forM_ foldl].
  - unfold ret. by rewrite insert_id.
  - rewrite run_bind. cbn beta.
    rewrite (run_bind (getConfig r)). rewrite (getConfig_run _ _ _ Hr).
    cbn [fst snd]. rewrite Hc. cbn [len].
    rewrite (dimLoop_run r dL _ _ h c A Hr) by (by rewrite ?Hc).
    cbn [fst snd]. rewrite foldl_alter_seq.
    change (fun d : DimensionMeta =>
              if String.eqb (Key d) (hChild hs) && String.eqb (Parent d) ""
              then setParent d (hParent hs) else d) with (hierStep hs).
    assert (Hne : r <> dL) by (by apply (kind_ne h r dL _ _ Hr HL)).
    rewrite (IH _ c (hierStep hs <$> A)).
    + by rewrite insert_insert_eq.
    + by rewrite lookup_insert_ne.
    + by rewrite length_fmap.
    + by rewrite lookup_insert_eq.
Qed.

(** The store after the merge: the copy of the draft, with the suggestions
    applied to its own arrays. *)
Definition enrichedAt (e : refineEnrichment) (h : heap) (draft r : loc)
    (hf : heap) : Prop :=
  let s := fst (getConfig draft h) in
  let srcDims := fst (getDims (Dimensions s) h) in
  let srcMeas := fst (getMeasures (Measures s) h) in
  (r ∉ dom h) /\
  exists dL mL sL cur A B,
    hf !! r
    = Some (CConfig (mkConfig
              (if String.eqb (DatasetName e) "" then Name s else DatasetName e)
              (Version s)
              (if String.eqb (DatasetDescription e) "" then CDescription s
               else DatasetDescription e)
              (mkSlice (Some dL) (len (Dimensions s)))
              (mkSlice (Some mL) (len (Measures s)))
              cur (DiscoveredFrom s) (DiscoveredAt s)
              (mkSlice (Some sL) (len (SkippedColumns s)))
              time_Now "gemini"))
    /\ Forall2 (copyOf DimensionMeta SampleValues setSampleValues h hf) srcDims A
    /\ hf !! dL
       = Some (CDims (hierAll (SuggestedHierarchies e)
                        (enrichD (enrichMapOf e) <$> A)))
    /\ Forall2 (copyOf MeasureMeta Aggregations setAggregations h hf) srcMeas B
    /\ hf !! mL = Some (CMeasures (enrichM (enrichMapOf e) <$> B))
    /\ hf !! sL = Some (CSkipped (fst (getSkipped (SkippedColumns s) h)))
    /\ currencyCopied h hf (Currency s) cur.

Lemma copyOf_frame {T} (fld : T -> slice) (setFld : T -> slice -> T)
    (h0 h h' : heap) (r dL mL : loc) (c : Config) (A : list DimensionMeta)
    (B : list MeasureMeta) (d d' : T) :
  h !! r = Some (CConfig c) -> h !! dL = Some (CDims A) ->
  h !! mL = Some (CMeasures B) ->
  (forall x cx, h !! x = Some cx -> x <> r -> x <> dL -> x <> mL
                -> h' !! x = Some cx) ->
  copyOf T fld setFld h0 h d d' -> copyOf T fld setFld h0 h' d d'.
Proof.
  intros Hr HL HM Hfr (a & -> & Ha). exists a. split; [done|].
  apply Hfr; [done|..].
  - by apply (kind_ne h a r _ _ Ha Hr).
  - by apply (kind_ne h a dL _ _ Ha HL).
  - by apply (kind_ne h a mL _ _ Ha HM).
Qed.

Lemma applyEnrichments_post (draft : loc) (e : refineEnrichment) (h : heap) :
  wfConfig h draft ->
  wp (applyEnrichments time_Now draft e) (enrichedAt e h draft) h.
Proof.
  intros Hwf. unfold applyEnrichments.
  apply wp_bind. eapply wp_mono; [by apply deepCopyConfig_post|].
  intros r hc (Hnew & Hsub & dL & mL & sL & cur & Hr & HD & HM & HS & HC).
  destruct Hwf as (Hld & Hlm & Hls & Hbd & Hbm & Hcur).
  set (s := fst (getConfig draft h)) in *.
  destruct HD as (A & HdL & HA). destruct HM as (B & HmL & HB).
  assert (HlenA : length A = len (Dimensions s)).
  { by rewrite <- (Forall2_length _ _ _ HA). }
  assert (HlenB : length B = len (Measures s)).
  { by rewrite <- (Forall2_length _ _ _ HB). }
  assert (HrdL : r <> dL) by (by apply (kind_ne hc r dL _ _ Hr HdL)).
  assert (HrmL : r <> mL) by (by apply (kind_ne hc r mL _ _ Hr HmL)).
  assert (HdLmL : dL <> mL) by (by apply (kind_ne hc dL mL _ _ HdL HmL)).
  (* the name and the description *)
  apply wp_bind. eapply wp_run; [by apply (modifyConfig_opt_run _ r _ hc _ Hr)|].
  set (h1 := <[r := _]> hc).
  assert (H1r : h1 !! r = _) by (subst h1; apply lookup_insert_eq).
  apply wp_bind. eapply wp_run; [by apply (modifyConfig_opt_run _ r _ h1 _ H1r)|].
  set (h2 := <[r := _]> h1).
  assert (H2r : h2 !! r = _) by (subst h2; apply lookup_insert_eq).
  cbv zeta.
  (* the dimensions *)
  apply wp_bind. eapply wp_run; [by apply (getConfig_run _ _ _ H2r)|].
  assert (H2dL : h2 !! dL = Some (CDims A)).
  { subst h2 h1. by rewrite !lookup_insert_ne by done. }
  apply wp_bind. eapply wp_run.
  { apply (dimLoop_run r dL _ _ h2 _ A H2r); [|done].
    by destruct (String.eqb (DatasetName e) ""),
                (String.eqb (DatasetDescription e) ""). }
  match goal with
  | |- context [seq 0 (len (Dimensions ?c))] =>
      assert (HlenD : len (Dimensions c) = length A)
        by (rewrite HlenA;
            by destruct (String.eqb (DatasetName e) ""),
                        (String.eqb (DatasetDescription e) ""))
  end.
  rewrite HlenD, foldl_alter_seq.
  change (fun d : DimensionMeta =>
            match enrichMapOf e !! Key d with
            | Some e0 => enrichDimension e0 d
            | None => d
            end) with (enrichD (enrichMapOf e)).
  set (A1 := enrichD (enrichMapOf e) <$> A).
  set (h3 := <[dL := CDims A1]> h2).
  assert (H3r : h3 !! r = h2 !! r) by (subst h3; by rewrite lookup_insert_ne).
  rewrite H2r in H3r.
  (* the measures *)
  assert (H3mL : h3 !! mL = Some (CMeasures B)).
  { subst h3 h2 h1. by rewrite !lookup_insert_ne by done. }
  apply wp_bind. eapply wp_run; [by apply (getConfig_run _ _ _ H3r)|].
  apply wp_bind. eapply wp_run.
  { apply (measLoop_run r mL _ _ h3 _ B H3r); [|done].
    by destruct (String.eqb (DatasetName e) ""),
                (String.eqb (DatasetDescription e) ""). }
  match goal with
  | |- context [seq 0 (len (Measures ?c))] =>
      assert (HlenM : len (Measures c) = length B)
        by (rewrite HlenB;
            by destruct (String.eqb (DatasetName e) ""),
                        (String.eqb (DatasetDescription e) ""))
  end.
  rewrite HlenM, foldl_alter_seq.
  change (fun m : MeasureMeta =>
            match enrichMapOf e !! MKey m with
            | Some e0 => enrichMeasure e0 m
            | None => m
            end) with (enrichM (enrichMapOf e)).
  set (B1 := enrichM (enrichMapOf e) <$> B).
  set (h4 := <[mL := CMeasures B1]> h3).
  assert (H4r : h4 !! r = h3 !! r) by (subst h4; by rewrite lookup_insert_ne).
  rewrite H3r in H4r.
  assert (H4dL : h4 !! dL = Some (CDims A1)).
  { subst h4 h3. rewrite lookup_insert_ne by done. by rewrite lookup_insert_eq. }
  (* the hierarchy suggestions *)
  apply wp_bind. eapply wp_run.
  { apply (hierLoop_run r dL _ h4 _ A1 H4r); [|done].
    subst A1. rewrite length_fmap, HlenA.
    by destruct (String.eqb (DatasetName e) ""),
                (String.eqb (DatasetDescription e) ""). }
  set (h5 := <[dL := _]> h4).
  assert (H5r : h5 !! r = h4 !! r) by (subst h5; by rewrite lookup_insert_ne).
  rewrite H4r in H5r.
  (* the refinement marks *)
  apply wp_bind. eapply wp_modifyConfig; [exact H5r|].
  apply wp_ret.
  set (hf := <[r := _]> h5).
  assert (Hframe : forall x cx, hc !! x = Some cx -> x <> r -> x <> dL
                                -> x <> mL -> hf !! x = Some cx).
  { intros x cx Hx H1 H2 H3. subst hf h5 h4 h3 h2 h1.
    by rewrite !lookup_insert_ne by done. }
  split; [exact Hnew|].
  exists dL, mL, sL, cur, A, B. split_and!.
  - subst hf. rewrite lookup_insert_eq. do 2 f_equal.
    by destruct (String.eqb (DatasetName e) ""),
                (String.eqb (DatasetDescription e) "").
  - eapply Forall2_impl; [exact HA|]. intros d d'.
    by apply (copyOf_frame _ _ h hc hf r dL mL _ A B d d' Hr HdL HmL).
  - subst hf. rewrite lookup_insert_ne by done. subst h5.
    by rewrite lookup_insert_eq.
  - eapply Forall2_impl; [exact HB|]. intros d d'.
    by apply (copyOf_frame _ _ h hc hf r dL mL _ A B d d' Hr HdL HmL).
  - subst hf h5. rewrite !lookup_insert_ne by done. subst h4.
    by rewrite lookup_insert_eq.
  - apply Hframe; [done|..].
    + by apply (kind_ne hc sL r _ _ HS Hr).
    + by apply (kind_ne hc sL dL _ _ HS HdL).
    + by apply (kind_ne hc sL mL _ _ HS HmL).
  - revert HC. unfold currencyCopied. fold s.
    destruct (Currency s) as [cp|]; [|done].
    intros (p & q & -> & Hp & Hq). exists p, q. split; [done|].
    split.
    + apply Hframe; [done|..].
      * by apply (kind_ne hc p r _ _ Hp Hr).
      * by apply (kind_ne hc p dL _ _ Hp HdL).
      * by apply (kind_ne hc p mL _ _ Hp HmL).
    + apply Hframe; [done|..].
      * by apply (kind_ne hc q r _ _ Hq Hr).
      * by apply (kind_ne hc q dL _ _ Hq HdL).
      * by apply (kind_ne hc q mL _ _ Hq HmL).
Qed.

End Enrich.

(** *** What the merge keeps and what it changes *)

(** The same column: key, sample values, flags and formats agree, and a
    parent that was set is still the parent. *)
Definition sameColumn {strs} (d d' : DimensionMeta_ strs) : Prop :=
  Key d' = Key d /\ SampleValues d' = SampleValues d
  /\ Groupable d' = Groupable d /\ Filterable d' = Filterable d
  /\ IsTemporal d' = IsTemporal d /\ TemporalFormat d' = TemporalFormat d
  /\ TemporalOrder d' = TemporalOrder d /\ IsCurrencyCode d' = IsCurrencyCode d
  /\ CardinalityHint d' = CardinalityHint d /\ DerivedFrom d' = DerivedFrom d
  /\ (Parent d <> "" -> Parent d' = Parent d).

(** The same measure: key, aggregations, synthetic flag and format agree, a
    currency stays a currency, and the default aggregation is the old one or
    one of the five the engine knows. *)
Definition sameMeasure {strs} (m m' : MeasureMeta_ strs) : Prop :=
  MKey m' = MKey m /\ Aggregations m' = Aggregations m
  /\ IsSynthetic m' = IsSynthetic m /\ Format m' = Format m
  /\ (IsCurrency m = true -> IsCurrency m' = true)
  /\ (DefaultAggregation m' = DefaultAggregation m
      \/ isValidAggregation (DefaultAggregation m') = true).

(** What the loops do to one dimension. *)
Definition enrichOne (em : gmap string columnEnrichment)
    (sugg : list hierarchySuggestion) (d : DimensionMeta) : DimensionMeta :=
  foldl (fun d hs => hierStep hs d) (enrichD em d) sugg.

(** The suggestion that counts for a key: the last one listed. *)
Definition lastFor (k : string) (l : list columnEnrichment)
    : option columnEnrichment :=
  last (filter (fun en => eKey en = k) l).

(** The parent a child without one gets: that of the first suggestion for it
    that names one. *)
Definition suggestedParent (k : string) (sugg : list hierarchySuggestion)
    : string :=
  match List.find (fun hs => String.eqb k (hChild hs)
                             && negb (String.eqb (hParent hs) "")) sugg with
  | Some hs => hParent hs
  | None => ""
  end.

Definition pick (new old : string) : string :=
  if String.eqb new "" then old else new.

Section MergeFacts.

Lemma hierAll_fmap (sugg : list hierarchySuggestion) (A : list DimensionMeta) :
  hierAll sugg A = (fun d => foldl (fun d hs => hierStep hs d) d sugg) <$> A.
Proof.
  unfold hierAll. revert A.
  induction sugg as [|hs sugg IH]; intros A; cbn [foldl].
  - by rewrite list_fmap_id.
  - rewrite IH, <- list_fmap_compose. by apply list_fmap_ext.
Qed.

Lemma hierAll_enrich (em : gmap string columnEnrichment)
    (sugg : list hierarchySuggestion) (A : list DimensionMeta) :
  hierAll sugg (enrichD em <$> A) = enrichOne em sugg <$> A.
Proof.
  rewrite hierAll_fmap, <- list_fmap_compose. by apply list_fmap_ext.
Qed.

Lemma enrichMapOf_lookup (e : refineEnrichment) (k : string) :
  enrichMapOf e !! k = lastFor k (Enrichments e).
Proof.
  unfold enrichMapOf, lastFor.
  induction (Enrichments e) as [|en l IH] using rev_ind; [done|].
  rewrite foldl_app, filter_app. cbn [foldl].
  destruct (decide (eKey en = k)) as [Hk|Hk].
  - rewrite Hk, lookup_insert_eq.
    rewrite (filter_cons_True _ en []) by done.
    by rewrite filter_nil, last_snoc.
  - rewrite lookup_insert_ne by done.
    rewrite (filter_cons_False _ en []) by done.
    by rewrite filter_nil, app_nil_r.
Qed.

Lemma sameColumn_refl {strs} (d : DimensionMeta_ strs) : sameColumn d d.
Proof. by repeat split. Qed.

Lemma sameColumn_trans {strs} (a b c : DimensionMeta_ strs) :
  sameColumn a b -> sameColumn b c -> sameColumn a c.
Proof.
  intros (H1 & H2 & H3 & H4 & H5 & H6 & H7 & H8 & H9 & H10 & H11)
         (G1 & G2 & G3 & G4 & G5 & G6 & G7 & G8 & G9 & G10 & G11).
  repeat split; try congruence.
  intros Hp. rewrite G11; [by apply H11|]. by rewrite H11.
Qed.

Lemma sameColumn_enrichD em (d : DimensionMeta) : sameColumn d (enrichD em d).
Proof.
  unfold enrichD. destruct (em !! Key d); [|apply sameColumn_refl].
  by repeat split.
Qed.

Lemma sameColumn_hierStep hs (d : DimensionMeta) : sameColumn d (hierStep hs d).
Proof.
  unfold hierStep.
  destruct (String.eqb (Key d) (hChild hs) && String.eqb (Parent d) "") eqn:E;
    [|apply sameColumn_refl].
  apply andb_true_iff in E as [_ E]. apply String.eqb_eq in E.
  repeat split; try done.
Qed.

Lemma sameColumn_enrichOne em sugg (d : DimensionMeta) :
  sameColumn d (enrichOne em sugg d).
Proof.
  unfold enrichOne.
  assert (Hgen : forall x, sameColumn d x
                 -> sameColumn d (foldl (fun d hs => hierStep hs d) x sugg)).
  { induction sugg as [|hs sugg IH]; intros x Hx; cbn [foldl]; [done|].
    apply IH. eapply sameColumn_trans; [exact Hx|apply sameColumn_hierStep]. }
  apply Hgen, sameColumn_enrichD.
Qed.

Lemma sameColumn_read (h : heap) (a a' : DimensionMeta) :
  sameColumn a a' -> sameColumn (readDim h a) (readDim h a').
Proof.
  intros (H1 & H2 & H3 & H4 & H5 & H6 & H7 & H8 & H9 & H10 & H11).
  unfold readDim. repeat split; cbn; try done. by rewrite H2.
Qed.

Lemma sameMeasure_enrichM em (m : MeasureMeta) : sameMeasure m (enrichM em m).
Proof.
  unfold enrichM. destruct (em !! MKey m) as [en|].
  - unfold sameMeasure, enrichMeasure.
    cbn [MKey Aggregations IsSynthetic Format IsCurrency DefaultAggregation].
    split_and!; try done.
    + intros ->. by destruct (negb _ && _).
    + destruct (negb (String.eqb (eDefaultAggregation en) "")
                && isValidAggregation (eDefaultAggregation en)) eqn:E.
      * right. by apply andb_true_iff in E as [_ E].
      * by left.
  - repeat split; auto.
Qed.

Lemma sameMeasure_read (h : heap) (a a' : MeasureMeta) :
  sameMeasure a a' -> sameMeasure (readMeasure h a) (readMeasure h a').
Proof.
  intros (H1 & H2 & H3 & H4 & H5 & H6).
  unfold readMeasure. repeat split; cbn; try done. by rewrite H2.
Qed.

Lemma Forall2_read_map {S T V} (rd : S -> V) (rd' : T -> V) (g : T -> T)
    (R : V -> V -> Prop) (src : list S) (A : list T) :
  Forall2 (fun d a => rd' a = rd d) src A ->
  (forall a, R (rd' a) (rd' (g a))) ->
  Forall2 R (rd <$> src) (rd' <$> (g <$> A)).
Proof.
  intros HA Hg. induction HA as [|d a src A Hda _ IH]; [constructor|].
  cbn. constructor; [|exact IH]. rewrite <- Hda. apply Hg.
Qed.

(** The parts of a column the enrichment may set. *)
Lemma enrichOne_texts em sugg (d : DimensionMeta) :
  DisplayName (enrichOne em sugg d) = DisplayName (enrichD em d)
  /\ Description (enrichOne em sugg d) = Description (enrichD em d)
  /\ SortHint (enrichOne em sugg d) = SortHint (enrichD em d).
Proof.
  unfold enrichOne. generalize (enrichD em d) as x.
  induction sugg as [|hs sugg IH]; intros x; cbn [foldl]; [done|].
  destruct (IH (hierStep hs x)) as (H1 & H2 & H3).
  rewrite H1, H2, H3. unfold hierStep. by destruct (_ && _).
Qed.

Lemma hier_parent sugg :
  forall x : DimensionMeta,
    Parent (foldl (fun d hs => hierStep hs d) x sugg)
    = if String.eqb (Parent x) "" then suggestedParent (Key x) sugg
      else Parent x.
Proof.
  unfold suggestedParent.
  induction sugg as [|hs sugg IH]; intros x; cbn [foldl List.find].
  - destruct (String.eqb_spec (Parent x) ""); done.
  - rewrite IH. unfold hierStep.
    destruct (String.eqb (Key x) (hChild hs)) eqn:Ek; cbn [andb].
    + destruct (String.eqb (Parent x) "") eqn:Ep; cbn [Parent Key setParent].
      * by destruct (String.eqb (hParent hs) "").
      * by rewrite Ep.
    + done.
Qed.

Lemma enrichOne_parent em sugg (d : DimensionMeta) :
  Parent (enrichOne em sugg d)
  = if String.eqb (Parent d) "" then suggestedParent (Key d) sugg
    else Parent d.
Proof.
  unfold enrichOne. rewrite hier_parent.
  destruct (sameColumn_enrichD em d) as (Hk & _).
  assert (Hp : Parent (enrichD em d) = Parent d).
  { unfold enrichD. by destruct (em !! Key d). }
  by rewrite Hp, Hk.
Qed.

End MergeFacts.

Section MergeRead.
Context {rt : GoRuntime}.

(** The merged configuration read back. *)
Lemma enrichedAt_read (time_Now : string) (e : refineEnrichment) (h : heap)
    (draft r : loc) (hf : heap) :
  wfConfig h draft -> enrichedAt time_Now e h draft r hf ->
  let s := fst (getConfig draft h) in
  let c := fst (getConfig r hf) in
  (Name c = (if String.eqb (DatasetName e) "" then Name s else DatasetName e)
   /\ CDescription c = (if String.eqb (DatasetDescription e) ""
                        then CDescription s else DatasetDescription e)
   /\ Version c = Version s /\ DiscoveredFrom c = DiscoveredFrom s
   /\ DiscoveredAt c = DiscoveredAt s
   /\ RefinedAt c = time_Now /\ RefinedBy c = "gemini")
  /\ (exists A,
        Forall2 (fun d a => readDim hf a = readDim h d)
                (fst (getDims (Dimensions s) h)) A
        /\ fst (getDims (Dimensions c) hf)
           = enrichOne (enrichMapOf e) (SuggestedHierarchies e) <$> A)
  /\ (exists B,
        Forall2 (fun m b => readMeasure hf b = readMeasure h m)
                (fst (getMeasures (Measures s) h)) B
        /\ fst (getMeasures (Measures c) hf) = enrichM (enrichMapOf e) <$> B)
  /\ fst (getSkipped (SkippedColumns c) hf)
     = fst (getSkipped (SkippedColumns s) h)
  /\ readCurrency hf (Currency c) = readCurrency h (Currency s).
Proof.
  intros (Hld & Hlm & Hls & Hbd & Hbm & Hcur)
         (Hnew & dL & mL & sL & cur & A & B & Hr & HA & HdL & HB & HmL & HS & HC).
  intros s c. fold s in Hld, Hlm, Hls, Hbd, Hbm, Hcur, Hr, HA, HB, HS, HC.
  assert (Hc : c = mkConfig
              (if String.eqb (DatasetName e) "" then Name s else DatasetName e)
              (Version s)
              (if String.eqb (DatasetDescription e) "" then CDescription s
               else DatasetDescription e)
              (mkSlice (Some dL) (len (Dimensions s)))
              (mkSlice (Some mL) (len (Measures s)))
              cur (DiscoveredFrom s) (DiscoveredAt s)
              (mkSlice (Some sL) (len (SkippedColumns s)))
              time_Now "gemini").
  { subst c. unfold getConfig. cbn [fst]. by rewrite Hr. }
  rewrite Hc. cbn [Name Version CDescription DiscoveredFrom DiscoveredAt
                   RefinedAt RefinedBy Dimensions Measures SkippedColumns
                   Currency].
  split; [done|]. split_and!.
  - exists A. split.
    + eapply (Forall2_Forall_l _ _ _ _ _ HA Hbd). intros d d'.
      apply readDim_copyOf.
    + unfold getDims. cbn [fst base len]. rewrite HdL, hierAll_enrich.
      apply take_ge. rewrite length_fmap, <- (Forall2_length _ _ _ HA). lia.
  - exists B. split.
    + eapply (Forall2_Forall_l _ _ _ _ _ HB Hbm). intros d d'.
      apply readMeasure_copyOf.
    + unfold getMeasures. cbn [fst base len]. rewrite HmL.
      apply take_ge. rewrite length_fmap, <- (Forall2_length _ _ _ HB). lia.
  - unfold getSkipped at 1. cbn [fst base len]. rewrite HS.
    apply take_ge. lia.
  - by apply readCurrency_copied.
Qed.

End MergeRead.

(** X24. Merging suggestions never changes what the columns are: the result
    is a new configuration with the draft's dimensions and measures in the
    same order, each with its key, sample values or aggregations, flags and
    formats; a parent that was set is kept, a default aggregation is the old
    one or a valid one.  Skipped columns and currency settings read as in
    the draft, and the result is marked as refined by "gemini" at the
    current time. *)
Theorem applyEnrichments_keeps_columns {rt : GoRuntime} (time_Now : string)
    (draft : loc) (e : refineEnrichment) (h : heap) :
  wfConfig h draft ->
  let s := fst (getConfig draft h) in
  let out := applyEnrichments time_Now draft e h in
  let c := fst (getConfig (fst out) (snd out)) in
  (fst out ∉ dom h)
  /\ RefinedBy c = "gemini" /\ RefinedAt c = time_Now
  /\ Version c = Version s /\ DiscoveredFrom c = DiscoveredFrom s
  /\ DiscoveredAt c = DiscoveredAt s
  /\ Forall2 sameColumn (readDims h (Dimensions s))
                        (readDims (snd out) (Dimensions c))
  /\ Forall2 sameMeasure (readMeasures h (Measures s))
                         (readMeasures (snd out) (Measures c))
  /\ fst (getSkipped (SkippedColumns c) (snd out))
     = fst (getSkipped (SkippedColumns s) h)
  /\ readCurrency (snd out) (Currency c) = readCurrency h (Currency s).
Proof.
  intros Hwf s out c.
  pose proof (applyEnrichments_post time_Now draft e h Hwf) as Hpost.
  unfold wp in Hpost. fold out in Hpost.
  destruct (enrichedAt_read time_Now e h draft (fst out) (snd out) Hwf Hpost)
    as ((_ & _ & Hv & Hdf & Hda & Hat & Hby) & (A & HA & HdA) & (B & HB & HmB)
        & Hsk & Hcu).
  fold s c in Hv, Hdf, Hda, Hat, Hby, HA, HdA, HB, HmB, Hsk, Hcu.
  split; [apply Hpost|]. split_and!; try done.
  - unfold readDims at 2. rewrite HdA.
    apply Forall2_read_map; [exact HA|]. intros a.
    apply sameColumn_read, sameColumn_enrichOne.
  - unfold readMeasures at 2. rewrite HmB.
    apply Forall2_read_map; [exact HB|]. intros a.
    apply sameMeasure_read, sameMeasure_enrichM.
Qed.

Lemma applyEnrichments_keeps_columns_witness :
  let h := RefineFacts.sampleStore in
  let out := applyEnrichments (rt := asciiRuntime) "2026-01-01T00:00:00Z"
               1%positive RefineFacts.sampleEnrichment h in
  Forall2 sameColumn
    (readDims h (Dimensions (fst (getConfig 1%positive h))))
    (readDims (snd out) (Dimensions (fst (getConfig (fst out) (snd out))))).
Proof.
  intros h out.
  exact (proj1 (proj2 (proj2 (proj2 (proj2 (proj2 (proj2
           (applyEnrichments_keeps_columns (rt := asciiRuntime)
              "2026-01-01T00:00:00Z" 1%positive RefineFacts.sampleEnrichment
              RefineFacts.sampleStore sampleStore_wf)))))))).
Defined.

(** X25. How a suggestion changes a dimension.  For each dimension the
    suggestion that counts is the last one listed under its key: a display
    name, description or sort hint it gives replaces the draft's, one it
    leaves empty does not; without a suggestion the three stay.  A
    dimension that has a parent keeps it; one that has none gets the parent
    of the first hierarchy suggestion that names it as child and names a
    parent, and stays without one if there is none. *)
Theorem applyEnrichments_dimension_rules {rt : GoRuntime} (time_Now : string)
    (draft : loc) (e : refineEnrichment) (h : heap) :
  wfConfig h draft ->
  let s := fst (getConfig draft h) in
  let out := applyEnrichments time_Now draft e h in
  let c := fst (getConfig (fst out) (snd out)) in
  Forall2
    (fun d d' =>
       match lastFor (Key d) (Enrichments e) with
       | Some en =>
           DisplayName d' = pick (eDisplayName en) (DisplayName d)
           /\ Description d' = pick (eDescription en) (Description d)
           /\ SortHint d' = pick (eSortHint en) (SortHint d)
       | None =>
           DisplayName d' = DisplayName d /\ Description d' = Description d
           /\ SortHint d' = SortHint d
       end
       /\ Parent d'
          = (if String.eqb (Parent d) ""
             then suggestedParent (Key d) (SuggestedHierarchies e)
             else Parent d))
    (readDims h (Dimensions s)) (readDims (snd out) (Dimensions c)).
Proof.
  intros Hwf s out c.
  pose proof (applyEnrichments_post time_Now draft e h Hwf) as Hpost.
  unfold wp in Hpost. fold out in Hpost.
  destruct (enrichedAt_read time_Now e h draft (fst out) (snd out) Hwf Hpost)
    as (_ & (A & HA & HdA) & _).
  fold s c in HA, HdA.
  unfold readDims at 2. rewrite HdA.
  apply Forall2_read_map; [exact HA|]. intros a.
  unfold readDim. cbn [Key DisplayName Description SortHint Parent].
  destruct (enrichOne_texts (enrichMapOf e) (SuggestedHierarchies e) a)
    as (H1 & H2 & H3).
  split; [|apply enrichOne_parent].
  rewrite H1, H2, H3. unfold enrichD. rewrite enrichMapOf_lookup.
  destruct (lastFor (Key a) (Enrichments e)) as [en|]; [|done].
  unfold enrichDimension, pick. by cbn.
Qed.

Lemma applyEnrichments_dimension_rules_witness :
  let h := RefineFacts.sampleStore in
  let e := RefineFacts.sampleEnrichment in
  let out := applyEnrichments (rt := asciiRuntime) "2026-01-01T00:00:00Z"
               1%positive e h in
  Forall2
    (fun d d' =>
       match lastFor (Key d) (Enrichments e) with
       | Some en =>
           DisplayName d' = pick (eDisplayName en) (DisplayName d)
           /\ Description d' = pick (eDescription en) (Description d)
           /\ SortHint d' = pick (eSortHint en) (SortHint d)
       | None =>
           DisplayName d' = DisplayName d /\ Description d' = Description d
           /\ SortHint d' = SortHint d
       end
       /\ Parent d'
          = (if String.eqb (Parent d) ""
             then suggestedParent (Key d) (SuggestedHierarchies e)
             else Parent d))
    (readDims h (Dimensions (fst (getConfig 1%positive h))))
    (readDims (snd out) (Dimensions (fst (getConfig (fst out) (snd out))))).
Proof.
  intros h e out.
  exact (applyEnrichments_dimension_rules (rt := asciiRuntime)
           "2026-01-01T00:00:00Z" 1%positive RefineFacts.sampleEnrichment
           RefineFacts.sampleStore sampleStore_wf).
Defined.

(** X26. How a suggestion changes a measure and the data set.  For each
    measure the last suggestion listed under its key counts: a display name,
    description or unit it gives replaces the draft's; the unit "currency"
    also marks the measure as a currency; a default aggregation is taken
    over only when it is one of sum, avg, count, max and min.  Without a
    suggestion the measure reads as in the draft.  The data set takes the
    suggested name and description where they are not empty. *)
Theorem applyEnrichments_measure_rules {rt : GoRuntime} (time_Now : string)
    (draft : loc) (e : refineEnrichment) (h : heap) :
  wfConfig h draft ->
  let s := fst (getConfig draft h) in
  let out := applyEnrichments time_Now draft e h in
  let c := fst (getConfig (fst out) (snd out)) in
  Name c = pick (DatasetName e) (Name s)
  /\ CDescription c = pick (DatasetDescription e) (CDescription s)
  /\ Forall2
       (fun m m' =>
          match lastFor (MKey m) (Enrichments e) with
          | Some en =>
              MDisplayName m' = pick (eDisplayName en) (MDisplayName m)
              /\ MDescription m' = pick (eDescription en) (MDescription m)
              /\ Unit m' = pick (eUnit en) (Unit m)
              /\ IsCurrency m'
                 = (IsCurrency m || String.eqb (eUnit en) "currency")
              /\ DefaultAggregation m'
                 = (if isValidAggregation (eDefaultAggregation en)
                    then eDefaultAggregation en else DefaultAggregation m)
          | None => m' = m
          end)
       (readMeasures h (Measures s)) (readMeasures (snd out) (Measures c)).
Proof.
  intros Hwf s out c.
  pose proof (applyEnrichments_post time_Now draft e h Hwf) as Hpost.
  unfold wp in Hpost. fold out in Hpost.
  destruct (enrichedAt_read time_Now e h draft (fst out) (snd out) Hwf Hpost)
    as ((Hn & Hd & _) & _ & (B & HB & HmB) & _).
  fold s c in Hn, Hd, HB, HmB.
  split; [exact Hn|]. split; [exact Hd|].
  unfold readMeasures at 2. rewrite HmB.
  apply Forall2_read_map; [exact HB|]. intros a.
  unfold enrichM. rewrite enrichMapOf_lookup.
  change (MKey (readMeasure (snd out) a)) with (MKey a).
  destruct (lastFor (MKey a) (Enrichments e)) as [en|]; [|done].
  unfold readMeasure, enrichMeasure, pick.
  cbn [MDisplayName MDescription Unit IsCurrency DefaultAggregation].
  split_and!; try done.
  - destruct (String.eqb (eUnit en) "currency") eqn:Eu.
    + apply String.eqb_eq in Eu. rewrite Eu. cbn. by rewrite orb_true_r.
    + by rewrite andb_false_r, orb_false_r.
  - destruct (String.eqb (eDefaultAggregation en) "") eqn:Ea; [|done].
    apply String.eqb_eq in Ea. by rewrite Ea.
Qed.

Lemma applyEnrichments_measure_rules_witness :
  let h := RefineFacts.sampleStore in
  let out := applyEnrichments (rt := asciiRuntime) "2026-01-01T00:00:00Z"
               1%positive RefineFacts.sampleEnrichment h in
  Name (fst (getConfig (fst out) (snd out))) = "Sprint board".
Proof.
  intros h out.
  exact (proj1 (applyEnrichments_measure_rules (rt := asciiRuntime)
                  "2026-01-01T00:00:00Z" 1%positive
                  RefineFacts.sampleEnrichment RefineFacts.sampleStore
                  sampleStore_wf)).
Defined.

End RefineExtras.
